(** * URL shortener: shortcode allocation and redirect resolution

    A shallow embedding of [backend/server.js], [backend/utils.js] and
    [backend/models.js].  Handlers are written as programs over the storage,
    clock, random and logging effects they use; an interpreter runs them
    against an in-memory image of the two MongoDB collections.

    Modelling conventions:
    - JavaScript strings are the byte strings of their UTF-8 encoding.
      [trim] drops the white space and line terminators of the language,
      ASCII or not.  [toLowerCase] maps the letters A-Z and the Kelvin sign
      and keeps every other byte: it is exact on every string whose lower
      case is ASCII, and the service compares lower-cased strings with ASCII
      names only.  Well-formed shortcodes are ASCII, one byte a character.
    - [Date] values are integer milliseconds.  A [Date] further than
      8.64e15 ms from the epoch is an Invalid Date, and a document that
      holds one is not saved; within that range the arithmetic on
      milliseconds is exact.
    - The [ShortUrl] collection carries a unique index on [shortcode], so it
      is a finite map keyed by shortcode; the [Click] collection is a list in
      insertion order.  A sorted read returns documents with equal keys in
      an order the service does not choose. *)

From stdpp Require Import gmap strings list fin_maps sorting.
From Stdlib Require Import ZArith Ascii String Lia.

Local Open Scope string_scope.
Local Open Scope Z_scope.

(** ** JavaScript string primitives *)

Module JsString.

Definition is_upper (c : ascii) : bool :=
  let n := nat_of_ascii c in ((65 <=? n) && (n <=? 90))%nat.

Definition is_lower (c : ascii) : bool :=
  let n := nat_of_ascii c in ((97 <=? n) && (n <=? 122))%nat.

Definition is_digit (c : ascii) : bool :=
  let n := nat_of_ascii c in ((48 <=? n) && (n <=? 57))%nat.

(** The ASCII white space and line terminators: TAB, LF, VT, FF, CR and
    SPACE. *)
Definition is_space (c : ascii) : bool :=
  let n := nat_of_ascii c in (((9 <=? n) && (n <=? 13)) || (n =? 32))%nat.

Definition is_byte (n : nat) (c : ascii) : bool := (nat_of_ascii c =? n)%nat.

(** The white space and line terminators beyond ASCII, as UTF-8 sequences:
    U+00A0 (C2 A0); U+1680 (E1 9A 80); U+2000 to U+200A, U+2028, U+2029 and
    U+202F (E2 80 80..8A, A8, A9, AF); U+205F (E2 81 9F); U+3000 (E3 80 80);
    U+FEFF (EF BB BF). *)
Definition is_space2 (c1 c2 : ascii) : bool := is_byte 194 c1 && is_byte 160 c2.

Definition is_space3 (c1 c2 c3 : ascii) : bool :=
  let n3 := nat_of_ascii c3 in
  (is_byte 225 c1 && is_byte 154 c2 && is_byte 128 c3)
  || (is_byte 226 c1 && is_byte 128 c2
      && (((128 <=? n3) && (n3 <=? 138)) || (n3 =? 168) || (n3 =? 169)
          || (n3 =? 175))%nat)
  || (is_byte 226 c1 && is_byte 129 c2 && is_byte 159 c3)
  || (is_byte 227 c1 && is_byte 128 c2 && is_byte 128 c3)
  || (is_byte 239 c1 && is_byte 187 c2 && is_byte 191 c3).

Definition lower_char (c : ascii) : ascii :=
  if is_upper c then ascii_of_nat (nat_of_ascii c + 32) else c.

(** U+212A KELVIN SIGN (E2 84 AA) is the one character outside ASCII whose
    lower case is an ASCII letter. *)
Definition kelvin (c1 c2 c3 : ascii) : bool :=
  is_byte 226 c1 && is_byte 132 c2 && is_byte 170 c3.

(** [s.toLowerCase()], exact wherever the result is ASCII: the letters A-Z
    and the Kelvin sign are mapped, every other byte is kept. *)
Fixpoint toLowerCase (s : string) : string :=
  match s with
  | EmptyString => EmptyString
  | String c1 s1 =>
      match s1 with
      | String c2 (String c3 s3) =>
          if kelvin c1 c2 c3 then String "k" (toLowerCase s3)
          else String (lower_char c1) (toLowerCase s1)
      | _ => String (lower_char c1) (toLowerCase s1)
      end
  end.

Fixpoint trimStart (s : string) : string :=
  match s with
  | EmptyString => EmptyString
  | String c1 s1 =>
      if is_space c1 then trimStart s1
      else
        match s1 with
        | String c2 s2 =>
            if is_space2 c1 c2 then trimStart s2
            else
              match s2 with
              | String c3 s3 =>
                  if is_space3 c1 c2 c3 then trimStart s3 else s
              | EmptyString => s
              end
        | EmptyString => s
        end
  end.

(** [s] holds white space only. *)
Fixpoint blank (s : string) : bool :=
  match s with
  | EmptyString => true
  | String c1 s1 =>
      if is_space c1 then blank s1
      else
        match s1 with
        | String c2 s2 =>
            if is_space2 c1 c2 then blank s2
            else
              match s2 with
              | String c3 s3 => is_space3 c1 c2 c3 && blank s3
              | EmptyString => false
              end
        | EmptyString => false
        end
  end.

Fixpoint trimEnd (s : string) : string :=
  match s with
  | EmptyString => EmptyString
  | String c s' => if blank s then EmptyString else String c (trimEnd s')
  end.

(** [s.trim()] *)
Definition trim (s : string) : string := trimEnd (trimStart s).

(** The string with the given bytes, to write characters outside ASCII. *)
Definition utf8 (bytes : list Z) : string :=
  List.fold_right (fun n s => String (ascii_of_nat (Z.to_nat n)) s)
    EmptyString bytes.

Fixpoint all_chars (f : ascii -> bool) (s : string) : bool :=
  match s with
  | EmptyString => true
  | String c s' => f c && all_chars f s'
  end.

(** [s.charAt(i)]: the one-character string at [i], or the empty string
    out of range. *)
Definition charAt (s : string) (i : nat) : string :=
  match String.get i s with
  | Some c => String c EmptyString
  | None => EmptyString
  end.

(** Truthiness of a string: only the empty string is falsy. *)
Definition nonempty (s : string) : bool :=
  match s with EmptyString => false | _ => true end.

End JsString.
Import JsString.

(** ** backend/utils.js: the shortcode codec *)

(** The character class [[A-Za-z0-9_-]]. *)
Definition code_char (c : ascii) : bool :=
  is_upper c || is_lower c || is_digit c
  || (nat_of_ascii c =? 95)%nat || (nat_of_ascii c =? 45)%nat.

(** [/^[A-Za-z0-9_-]{3,30}$/.test(s)] *)
Definition shortcode_re (s : string) : bool :=
  all_chars code_char s
  && (3 <=? String.length s)%nat && (String.length s <=? 30)%nat.

Definition chars : string :=
  "ABCDEFGHIJKLMNOPQRSTUVWXYZabcdefghijklmnopqrstuvwxyz0123456789".

(** ** The reserved-name registry *)

Definition RESERVED_SHORTCODES : gset string :=
  list_to_set ["shorturls"; "api"; "admin"; "health"; "favicon.ico"].

(** [RESERVED_SHORTCODES.has(s.toLowerCase())] *)
Definition isReserved (s : string) : bool :=
  bool_decide (toLowerCase s ∈ RESERVED_SHORTCODES).


(** ** JavaScript values of a parsed JSON body *)

(** A JavaScript number, seen through the comparisons the service makes:
    an integral value, a finite value strictly between [fl] and [fl + 1],
    an infinity, or NaN. *)
Inductive jsnum : Type :=
| NInt (z : Z)
| NFrac (fl : Z)
| NInf (negative : bool)
| NNaN.

Inductive jsval : Type :=
| JUndefined
| JNull
| JBool (b : bool)
| JNumber (n : jsnum)
| JString (s : string)
| JObject (prim : string).  (* object or array; [prim] is its string conversion *)

Definition Number_isInteger (n : jsnum) : bool :=
  match n with NInt _ => true | _ => false end.

(** [n > 0] and [n <= 0]; both are false on NaN. *)
Definition num_gt0 (n : jsnum) : bool :=
  match n with
  | NInt z => 0 <? z
  | NFrac fl => 0 <=? fl
  | NInf negative => negb negative
  | NNaN => false
  end.

Definition num_le0 (n : jsnum) : bool :=
  match n with
  | NInt z => z <=? 0
  | NFrac fl => fl <? 0
  | NInf negative => negative
  | NNaN => false
  end.

(** The integer an integral number holds (read under [Number_isInteger]). *)
Definition int_value (n : jsnum) : Z :=
  match n with NInt z => z | _ => 0 end.

Definition truthy (v : jsval) : bool :=
  match v with
  | JUndefined | JNull => false
  | JBool b => b
  | JNumber (NInt z) => negb (z =? 0)
  | JNumber NNaN => false
  | JNumber _ => true
  | JString s => nonempty s
  | JObject _ => true
  end.

Definition is_string (v : jsval) : bool :=
  match v with JString _ => true | _ => false end.

(** What the handlers take from outside the repository: the [validator]
    package's URL test, the language's string-to-number conversion, and the
    process environment. *)
Class Host : Type := {
  validator_isURL : string -> bool;
  StringToNumber : string -> jsnum;
  BASE_URL : option string
}.

Section Codec.
Context `{Host}.

(** [Number(v)] *)
Definition Number (v : jsval) : jsnum :=
  match v with
  | JUndefined => NNaN
  | JNull => NInt 0
  | JBool b => NInt (if b then 1 else 0)
  | JNumber n => n
  | JString s => StringToNumber s
  | JObject prim => StringToNumber prim
  end.

Definition isValidUrl (s : jsval) : bool :=
  match s with
  | JString u => validator_isURL u
  | _ => false
  end.

Definition normalizeShortcode (code : jsval) : option string :=
  if negb (truthy code) || negb (is_string code) then None
  else match code with
       | JString c =>
           let cleaned := trim c in
           if negb (shortcode_re cleaned) then None else Some cleaned
       | _ => None
       end.

(** [Number.isInteger(Number(validity)) && Number(validity) > 0
      ? Number(validity) : 30] *)
Definition validMinutes_of (validity : jsval) : Z :=
  if Number_isInteger (Number validity) && num_gt0 (Number validity)
  then int_value (Number validity) else 30.

End Codec.

(** ** backend/models.js *)

Record Metadata : Type := {
  createdFromIP : string;
  meta_userAgent : option string
}.

Record ShortUrl : Type := {
  shortcode : string;
  originalUrl : string;
  createdAt : Z;
  expiryAt : Z;
  validityMinutes : Z;
  clicksCount : Z;
  metadata : Metadata
}.

Record Geo : Type := { country : option string }.

Record Click : Type := {
  click_shortcode : string;
  clickedAt : Z;
  referrer : option string;
  ip : string;
  userAgent : option string;
  geo : Geo
}.

Definition inc_clicksCount (d : ShortUrl) : ShortUrl :=
  {| shortcode := shortcode d; originalUrl := originalUrl d;
     createdAt := createdAt d; expiryAt := expiryAt d;
     validityMinutes := validityMinutes d;
     clicksCount := clicksCount d + 1; metadata := metadata d |}.

(** ** Exceptions and effects *)

(** Values that reach a [catch]: the [{ status, message }] objects the service
    throws itself, and errors of the storage driver, which carry a [code]
    and no [status]. *)
Inductive exn : Type :=
| Thrown (status : Z) (message : string)
| DbError (code : Z) (message : string).

Definition exn_code (e : exn) : option Z :=
  match e with DbError c _ => Some c | Thrown _ _ => None end.

Definition exn_message (e : exn) : string :=
  match e with DbError _ m => m | Thrown _ m => m end.

Definition E11000 : exn := DbError 11000 "E11000 duplicate key error".

Inductive result (R : Type) : Type :=
| Ok (r : R)
| Err (e : exn).
Arguments Ok {R} r.
Arguments Err {R} e.

Inductive Level : Type := LInfo | LWarn | LError.

Inductive Eff : Type -> Type :=
| FindOneShortUrl (sc : string) : Eff (option ShortUrl)
| SaveShortUrl (doc : ShortUrl) : Eff ShortUrl
| IncClicksCount (sc : string) : Eff unit
| SaveClick (c : Click) : Eff unit
| FindClicks (sc : string) : Eff (list Click)
| NewDate : Eff Z
| MathRandom (n : nat) : Eff nat
| Log (lvl : Level) (msg : string) : Eff unit.

(** A handler is a finite tree of effects; every effect hands its
    continuation either a value or the exception the awaited call rejected
    with. *)
Inductive Prog (A : Type) : Type :=
| Ret (a : A)
| Throw (e : exn)
| Vis {R : Type} (ev : Eff R) (k : result R -> Prog A).
Arguments Ret {A} a.
Arguments Throw {A} e.
Arguments Vis {A R} ev k.

Fixpoint bind {A B : Type} (p : Prog A) (f : A -> Prog B) : Prog B :=
  match p with
  | Ret a => f a
  | Throw e => Throw e
  | Vis ev k => Vis ev (fun r => bind (k r) f)
  end.

(** [try { p } catch (e) { h e }] *)
Fixpoint try_catch {A : Type} (p : Prog A) (h : exn -> Prog A) : Prog A :=
  match p with
  | Ret a => Ret a
  | Throw e => h e
  | Vis ev k => Vis ev (fun r => try_catch (k r) h)
  end.

(** [await ev]: a rejected promise is rethrown at the [await].  The clock,
    the random source and the logger are called without [await] in the
    source; they go through the same constructor and the interpreter never
    rejects them (the logger catches its own failures). *)
Definition await {R : Type} (ev : Eff R) : Prog R :=
  Vis ev (fun r => match r with Ok v => Ret v | Err e => Throw e end).

(** [try { await ev } catch (e) { ... }] seen as a value. *)
Definition attempt {R : Type} (ev : Eff R) : Prog (result R) :=
  Vis ev (fun r => Ret r).

Notation "'let*' x ':=' p 'in' q" := (bind p (fun x => q))
  (at level 10, x name, p at level 100, q at level 200).

(** ** Requests and responses *)

Record Request : Type := {
  body_url : jsval;
  body_validity : jsval;
  body_shortcode : jsval;
  param_shortcode : string;
  req_ip : string;
  req_protocol : string;
  header_host : string;
  header_userAgent : option string;
  header_referer : option string
}.

Record ClickDetail : Type := {
  cd_timestamp : Z;
  cd_referrer : option string;
  cd_ip : string;
  cd_userAgent : option string;
  cd_geo : Geo
}.

Inductive Body : Type :=
| ErrorBody (error : string)
| CreatedBody (shortLink : string) (expiry : Z)
| StatsBody (sc originalUrl : string) (createdAt expiryAt clicksTotal : Z)
            (clicks : list ClickDetail).

Inductive Response : Type :=
| Json (status : Z) (body : Body)
| Redirect (status : Z) (location : string).

(** [x || null] on a header value. *)
Definition or_null (h : option string) : option string :=
  match h with
  | Some s => if nonempty s then Some s else None
  | None => None
  end.

(** ** backend/utils.js: [generateShortcode] *)

Fixpoint generateShortcode_from (n : nat) (out : string) : Prog string :=
  match n with
  | O => Ret out
  | S n' =>
      let* i := await (MathRandom (String.length chars)) in
      generateShortcode_from n' (out ++ charAt chars i)
  end.

Definition generateShortcode (length : nat) : Prog string :=
  generateShortcode_from length "".

(** ** backend/server.js *)

Definition exhausted : exn :=
  Thrown 500 "unable to generate unique shortcode, try again".

(** The generation loop of [makeUniqueShortcode], with [attempts]
    iterations left. *)
Fixpoint generate_unique (attempts : nat) : Prog string :=
  match attempts with
  | O => Throw exhausted
  | S n =>
      let* candidate := generateShortcode 6 in
      if isReserved candidate then generate_unique n
      else
        let* exists_ := await (FindOneShortUrl candidate) in
        match exists_ with
        | None => Ret candidate
        | Some _ => generate_unique n
        end
  end.

Definition makeUniqueShortcode (desired : option string) : Prog string :=
  match desired with
  | Some d =>
      if nonempty d then
        let normalized := trim d in
        if isReserved normalized then Throw (Thrown 400 "shortcode not allowed")
        else
          let* existing := await (FindOneShortUrl normalized) in
          match existing with
          | Some _ => Throw (Thrown 409 "shortcode already exists")
          | None => Ret normalized
          end
      else generate_unique 8
  | None => generate_unique 8
  end.

Definition internal_error : Response :=
  Json 500 (ErrorBody "internal server error").

Section Handlers.
Context `{Host}.

Definition new_ShortUrl (req : Request) (url : string)
    (now expiry validMinutes : Z) (chosen : string) : ShortUrl :=
  {| shortcode := chosen; originalUrl := url; createdAt := now;
     expiryAt := expiry; validityMinutes := validMinutes;
     clicksCount := 0;
     metadata := {| createdFromIP := req_ip req;
                    meta_userAgent := header_userAgent req |} |}.

(** The save-with-retry loop of [POST /shorturls], with [attempts]
    iterations left; yields [(savedDoc, chosen, lastSaveErr)]. *)
Fixpoint save_retry (attempts : nat) (mk : string -> ShortUrl)
    (chosen : string) (lastSaveErr : option exn)
    : Prog (option ShortUrl * string * option exn) :=
  match attempts with
  | O => Ret (None, chosen, lastSaveErr)
  | S n =>
      let* r := attempt (SaveShortUrl (mk chosen)) in
      match r with
      | Ok saved => Ret (Some saved, chosen, None)
      | Err e =>
          if bool_decide (exn_code e = Some 11000) then
            let* _ := await (Log LWarn
              "Duplicate key on save - shortcode collision, regenerating") in
            let* chosen' := makeUniqueShortcode None in
            save_retry n mk chosen' (Some e)
          else Ret (None, chosen, Some e)
      end
  end.

Definition base_of (req : Request) : string :=
  match BASE_URL with
  | Some b => if nonempty b then b
              else req_protocol req ++ "://" ++ header_host req
  | None => req_protocol req ++ "://" ++ header_host req
  end.

(** [new Date(t)] is a date only within 8.64e15 ms of the epoch; beyond, it
    is an Invalid Date. *)
Definition valid_time (t : Z) : bool :=
  (-8640000000000000 <=? t) && (t <=? 8640000000000000).

(** [POST /shorturls] from the point where [chosen] and the creation time
    are known.  When [expiryAt] is an Invalid Date, [save()] fails the
    document's validation before any storage call, with an error that
    carries no [code]: the loop stops at its first pass with nothing
    saved. *)
Definition create_at (req : Request) (url : string) (validMinutes now : Z)
    (chosen : string) : Prog Response :=
  let expiry := now + validMinutes * 60000 in
  if valid_time expiry then
    let* r := save_retry 5 (new_ShortUrl req url now expiry validMinutes)
                chosen None in
    match r with
    | (None, _, _) =>
        let* _ := await (Log LError "Failed to save ShortUrl after retries") in
        Ret internal_error
    | (Some _, chosen', _) =>
        let* _ := await (Log LInfo "Shortlink created") in
        Ret (Json 201 (CreatedBody (base_of req ++ "/" ++ chosen') expiry))
    end
  else
    let* _ := await (Log LError "Failed to save ShortUrl after retries") in
    Ret internal_error.

(** [POST /shorturls] from the point where [chosen] is known. *)
Definition create_with (req : Request) (url : string) (validMinutes : Z)
    (chosen : string) : Prog Response :=
  let* now := await NewDate in
  create_at req url validMinutes now chosen.

Definition post_shorturls_body (req : Request) : Prog Response :=
  match body_url req with
  | JString url =>
      if negb (nonempty url) then
        Ret (Json 400 (ErrorBody "url is required and must be a string"))
      else if negb (isValidUrl (body_url req)) then
        Ret (Json 400 (ErrorBody
          "url must include protocol (http/https) and be a valid URL"))
      else
        let validMinutes := validMinutes_of (body_validity req) in
        if validMinutes <=? 0 then
          Ret (Json 400 (ErrorBody
            "validity must be a positive integer (minutes)"))
        else if truthy (body_shortcode req) then
          match normalizeShortcode (body_shortcode req) with
          | None =>
              Ret (Json 400 (ErrorBody
                "invalid shortcode — only A-Z a-z 0-9 _ - allowed, length 3..30"))
          | Some normalized =>
              let* chosen := makeUniqueShortcode (Some normalized) in
              create_with req url validMinutes chosen
          end
        else
          let* chosen := makeUniqueShortcode None in
          create_with req url validMinutes chosen
  | _ => Ret (Json 400 (ErrorBody "url is required and must be a string"))
  end.

(** The outer [catch] of [POST /shorturls]. *)
Definition post_shorturls_catch (err : exn) : Prog Response :=
  let* _ := await (Log LError "create shorturl error") in
  match err with
  | Thrown status message =>
      if negb (status =? 0) then Ret (Json status (ErrorBody message))
      else Ret internal_error
  | DbError _ _ => Ret internal_error
  end.

Definition post_shorturls (req : Request) : Prog Response :=
  try_catch (post_shorturls_body req) post_shorturls_catch.

End Handlers.

Definition click_detail (c : Click) : ClickDetail :=
  {| cd_timestamp := clickedAt c; cd_referrer := referrer c; cd_ip := ip c;
     cd_userAgent := userAgent c; cd_geo := geo c |}.

(** [GET /shorturls/:shortcode] *)
Definition get_stats (req : Request) : Prog Response :=
  try_catch
    (let sc := param_shortcode req in
     let* doc := await (FindOneShortUrl sc) in
     match doc with
     | None =>
         let* _ := await (Log LWarn "stats_not_found") in
         Ret (Json 404 (ErrorBody "shortcode not found"))
     | Some d =>
         let* clicks := await (FindClicks sc) in
         Ret (Json 200 (StatsBody sc (originalUrl d) (createdAt d) (expiryAt d)
                          (clicksCount d) (map click_detail clicks)))
     end)
    (fun err =>
       let* _ := await (Log LError "stats error") in
       Ret internal_error).

(** [new Click({ shortcode: sc, referrer, ip, userAgent, geo })]; the
    schema default stamps [clickedAt] with the construction time. *)
Definition new_Click (req : Request) (sc : string) (stamp : Z) : Click :=
  {| click_shortcode := sc; clickedAt := stamp;
     referrer := or_null (header_referer req);
     ip := req_ip req;
     userAgent := header_userAgent req;
     geo := {| country := None |} |}.

(** [GET /:shortcode] *)
Definition get_redirect (req : Request) : Prog Response :=
  try_catch
    (let sc := param_shortcode req in
     if isReserved sc then
       let* _ := await (Log LWarn "redirect_attempt_reserved_shortcode") in
       Ret (Json 404 (ErrorBody "shortcode not found"))
     else
       let* doc := await (FindOneShortUrl sc) in
       match doc with
       | None =>
           let* _ := await (Log LWarn "redirect_not_found") in
           Ret (Json 404 (ErrorBody "shortcode not found"))
       | Some d =>
           let* now := await NewDate in
           if expiryAt d <? now then
             let* _ := await (Log LInfo "redirect_expired") in
             Ret (Json 410 (ErrorBody "shortcode expired"))
           else
             let* stamp := await NewDate in
             let click := new_Click req sc stamp in
             let* _ := await (SaveClick click) in
             let* _ := await (IncClicksCount sc) in
             let* _ := await (Log LInfo "redirect") in
             Ret (Redirect 302 (originalUrl d))
       end)
    (fun err =>
       let* _ := await (Log LError "redirect error") in
       Ret internal_error).

(** ** The store and the interpreter *)

(** The two collections, the log sink, the clock, and the three things the
    service does not control: which storage calls are rejected ([faults],
    indexed by the number of the call), what [Math.random] draws
    ([random], indexed by the number of the draw), and in which order the
    database returns documents that a sort key does not tell apart
    ([ties]). *)
Record World : Type := {
  shortUrls : gmap string ShortUrl;
  clicks : list Click;
  logs : list (Level * string);
  clock : Z;
  faults : nat -> option (Z * string);
  calls : nat;
  random : nat -> nat;
  draws : nat;
  ties : nat -> nat -> bool
}.

Definition set_shortUrls (m : gmap string ShortUrl) (w : World) : World :=
  {| shortUrls := m; clicks := clicks w; logs := logs w; clock := clock w;
     faults := faults w; calls := calls w; random := random w;
     draws := draws w;
     ties := ties w |}.

Definition set_clicks (l : list Click) (w : World) : World :=
  {| shortUrls := shortUrls w; clicks := l; logs := logs w; clock := clock w;
     faults := faults w; calls := calls w; random := random w;
     draws := draws w;
     ties := ties w |}.

Definition add_log (e : Level * string) (w : World) : World :=
  {| shortUrls := shortUrls w; clicks := clicks w; logs := logs w ++ [e];
     clock := clock w; faults := faults w; calls := calls w;
     random := random w; draws := draws w;
     ties := ties w |}.

Definition next_call (w : World) : World :=
  {| shortUrls := shortUrls w; clicks := clicks w; logs := logs w;
     clock := clock w; faults := faults w; calls := S (calls w);
     random := random w; draws := draws w;
     ties := ties w |}.

Definition next_draw (w : World) : World :=
  {| shortUrls := shortUrls w; clicks := clicks w; logs := logs w;
     clock := clock w; faults := faults w; calls := calls w;
     random := random w; draws := S (draws w);
     ties := ties w |}.

Definition set_clock (t : Z) (w : World) : World :=
  {| shortUrls := shortUrls w; clicks := clicks w; logs := logs w;
     clock := t; faults := faults w; calls := calls w;
     random := random w; draws := draws w;
     ties := ties w |}.

(** A storage call: rejected when the fault schedule says so, carried out on
    the collections otherwise. *)
Definition storage {R : Type} (w : World) (op : World -> World * result R)
    : World * result R :=
  match faults w (calls w) with
  | Some (code, msg) => (next_call w, Err (DbError code msg))
  | None => op (next_call w)
  end.

(** [.sort({ clickedAt: -1 })]: newest first.  The sort names no order for
    clicks with the same [clickedAt]; where [c] goes among them is read off
    [tie], one decision for each place it could take. *)
Fixpoint insert_desc (tie : nat -> bool) (c : Click) (l : list Click)
    : list Click :=
  match l with
  | [] => [c]
  | x :: l' =>
      if (clickedAt x <? clickedAt c)
         || ((clickedAt x =? clickedAt c) && tie (List.length l'))
      then c :: l else x :: insert_desc tie c l'
  end.

Definition sort_desc (ties : nat -> nat -> bool) (l : list Click)
    : list Click :=
  foldr (fun c acc => insert_desc (ties (List.length acc)) c acc) [] l.

Definition clicks_of (sc : string) (l : list Click) : list Click :=
  filter (fun c => click_shortcode c = sc) l.

Definition perform {R : Type} (ev : Eff R) (w : World) : World * result R :=
  match ev in Eff R return World * result R with
  | FindOneShortUrl sc =>
      storage w (fun w' => (w', Ok (shortUrls w' !! sc)))
  | SaveShortUrl doc =>
      storage w (fun w' =>
        match shortUrls w' !! shortcode doc with
        | Some _ => (w', Err E11000)
        | None => (set_shortUrls (<[shortcode doc := doc]> (shortUrls w')) w',
                   Ok doc)
        end)
  | IncClicksCount sc =>
      storage w (fun w' =>
        (set_shortUrls (alter inc_clicksCount sc (shortUrls w')) w', Ok tt))
  | SaveClick c =>
      storage w (fun w' => (set_clicks (clicks w' ++ [c]) w', Ok tt))
  | FindClicks sc =>
      storage w (fun w' =>
        (w', Ok (sort_desc (ties w') (clicks_of sc (clicks w')))))
  | NewDate => (w, Ok (clock w))
  | MathRandom n => (next_draw w, Ok (random w (draws w) mod n)%nat)
  | Log lvl msg => (add_log (lvl, msg) w, Ok tt)
  end.

Fixpoint run {A : Type} (p : Prog A) (w : World) : World * result A :=
  match p with
  | Ret a => (w, Ok a)
  | Throw e => (w, Err e)
  | Vis ev k => let '(w', r) := perform ev w in run (k r) w'
  end.

(** A world with empty collections, no faults and a fixed draw sequence. *)
Definition fresh (t : Z) (rnd : nat -> nat) : World :=
  {| shortUrls := ∅; clicks := []; logs := []; clock := t;
     faults := fun _ => None; calls := 0; random := rnd; draws := 0;
     ties := fun _ _ => false |}.

Definition starts_with (p s : string) : bool :=
  bool_decide (String.substring 0 (String.length p) s = p).

(** A sample host for running the handlers on concrete requests. *)
Definition sample_host : Host :=
  {| validator_isURL := fun s => starts_with "http://" s || starts_with "https://" s;
     StringToNumber := fun _ => NNaN;
     BASE_URL := None |}.

Definition sample_request : Request :=
  {| body_url := JString "https://example.com";
     body_validity := JUndefined;
     body_shortcode := JUndefined;
     param_shortcode := "";
     req_ip := "10.0.0.1";
     req_protocol := "http";
     header_host := "localhost:4000";
     header_userAgent := Some "curl";
     header_referer := None |}.

Definition with_validity (v : jsval) (r : Request) : Request :=
  {| body_url := body_url r; body_validity := v;
     body_shortcode := body_shortcode r; param_shortcode := param_shortcode r;
     req_ip := req_ip r; req_protocol := req_protocol r;
     header_host := header_host r; header_userAgent := header_userAgent r;
     header_referer := header_referer r |}.

Definition with_shortcode (v : jsval) (r : Request) : Request :=
  {| body_url := body_url r; body_validity := body_validity r;
     body_shortcode := v; param_shortcode := param_shortcode r;
     req_ip := req_ip r; req_protocol := req_protocol r;
     header_host := header_host r; header_userAgent := header_userAgent r;
     header_referer := header_referer r |}.

Definition with_param (sc : string) (r : Request) : Request :=
  {| body_url := body_url r; body_validity := body_validity r;
     body_shortcode := body_shortcode r; param_shortcode := sc;
     req_ip := req_ip r; req_protocol := req_protocol r;
     header_host := header_host r; header_userAgent := header_userAgent r;
     header_referer := header_referer r |}.

Definition with_url (u : string) (r : Request) : Request :=
  {| body_url := JString u; body_validity := body_validity r;
     body_shortcode := body_shortcode r; param_shortcode := param_shortcode r;
     req_ip := req_ip r; req_protocol := req_protocol r;
     header_host := header_host r; header_userAgent := header_userAgent r;
     header_referer := header_referer r |}.

(** ** Reading the draw sequence *)

(** The string [generateShortcode n] builds from draws [p], [p + 1], ... *)
Fixpoint drawn (rnd : nat -> nat) (p n : nat) : string :=
  match n with
  | O => ""
  | S n' =>
      charAt chars (rnd p mod String.length chars)%nat ++ drawn rnd (S p) n'
  end.

(** The first [k] six-character candidates the draw sequence of [w] holds. *)
Definition candidates (w : World) (k : nat) : list string :=
  map (fun i => drawn (random w) (draws w + 6 * i)%nat 6) (seq 0 k).

(** A candidate the generation loop accepts: not reserved, not stored. *)
Definition available (w : World) (c : string) : bool :=
  negb (isReserved c) && bool_decide (shortUrls w !! c = None).

(** No storage call from now on is rejected. *)
Definition no_faults (w : World) : Prop :=
  forall n : nat, (calls w <= n)%nat -> faults w n = None.

Definition add_draws (n : nat) (w : World) : World :=
  {| shortUrls := shortUrls w; clicks := clicks w; logs := logs w;
     clock := clock w; faults := faults w; calls := calls w;
     random := random w; draws := (draws w + n)%nat;
     ties := ties w |}.

(** ** Concurrent requests *)

(** One effect of a handler, as one atomic storage or runtime operation. *)
Definition step {A : Type} (p : Prog A) (w : World) : World * Prog A :=
  match p with
  | Vis ev k => let '(w', r) := perform ev w in (w', k r)
  | _ => (w, p)
  end.

(** What happens next in the process: request [i] performs its next effect,
    or time passes. *)
Inductive Move : Type :=
| Run (i : nat)
| Elapse (dt : nat).

(** The handlers of the in-flight requests, interleaved at their [await]s
    as the schedule says.  A request the schedule stops naming is one that
    was interrupted. *)
Fixpoint interleave (sched : list Move) (pool : list (Prog Response))
    (w : World) : World * list (Prog Response) :=
  match sched with
  | [] => (w, pool)
  | Run i :: sched' =>
      match pool !! i with
      | Some p =>
          let '(w', p') := step p w in
          interleave sched' (<[i := p']> pool) w'
      | None => interleave sched' pool w
      end
  | Elapse dt :: sched' =>
      interleave sched' pool (set_clock (clock w + Z.of_nat dt) w)
  end.

(** The counter of a shortcode (0 when it is not stored) and the number of
    click documents that name it. *)
Definition counter (sc : string) (w : World) : Z :=
  from_option clicksCount 0 (shortUrls w !! sc).

Definition recorded (sc : string) (w : World) : Z :=
  Z.of_nat (List.length (clicks_of sc (clicks w))).

(** No stored counter is ahead of the click log. *)
Definition counts_ok (w : World) : Prop :=
  forall (sc : string) (d : ShortUrl),
    shortUrls w !! sc = Some d -> clicksCount d <= recorded sc w.

(** The effects that write neither a click nor a counter. *)
Definition quiet_event {R : Type} (ev : Eff R) : bool :=
  match ev with
  | FindOneShortUrl _ | FindClicks _ | NewDate | MathRandom _ | Log _ _ => true
  | SaveShortUrl _ | IncClicksCount _ | SaveClick _ => false
  end.

(** [licensed sc c p]: the program [p] increments the counter of [sc] only
    against a click for [sc] it has appended before; it holds [c] appended
    clicks not yet counted.  New documents start at count 0. *)
Inductive licensed (sc : string) {A : Type} : nat -> Prog A -> Prop :=
| lic_Ret (c : nat) (a : A) : licensed sc c (Ret a)
| lic_Throw (c : nat) (e : exn) : licensed sc c (Throw e)
| lic_FindOne (c : nat) (s : string) k :
    (forall r, licensed sc c (k r)) ->
    licensed sc c (Vis (FindOneShortUrl s) k)
| lic_SaveShortUrl (c : nat) (doc : ShortUrl) k :
    clicksCount doc = 0 ->
    (forall r, licensed sc c (k r)) ->
    licensed sc c (Vis (SaveShortUrl doc) k)
| lic_Inc_other (c : nat) (s : string) k :
    s <> sc ->
    (forall r, licensed sc c (k r)) ->
    licensed sc c (Vis (IncClicksCount s) k)
| lic_Inc (c : nat) k :
    (forall e, licensed sc (S c) (k (Err e))) ->
    licensed sc c (k (Ok tt)) ->
    licensed sc (S c) (Vis (IncClicksCount sc) k)
| lic_SaveClick_other (c : nat) (cl : Click) k :
    click_shortcode cl <> sc ->
    (forall r, licensed sc c (k r)) ->
    licensed sc c (Vis (SaveClick cl) k)
| lic_SaveClick (c : nat) (cl : Click) k :
    click_shortcode cl = sc ->
    (forall e, licensed sc c (k (Err e))) ->
    licensed sc (S c) (k (Ok tt)) ->
    licensed sc c (Vis (SaveClick cl) k)
| lic_FindClicks (c : nat) (s : string) k :
    (forall r, licensed sc c (k r)) ->
    licensed sc c (Vis (FindClicks s) k)
| lic_NewDate (c : nat) k :
    (forall r, licensed sc c (k r)) -> licensed sc c (Vis NewDate k)
| lic_MathRandom (c n : nat) k :
    (forall r, licensed sc c (k r)) -> licensed sc c (Vis (MathRandom n) k)
| lic_Log (c : nat) (lvl : Level) (msg : string) k :
    (forall r, licensed sc c (k r)) -> licensed sc c (Vis (Log lvl msg) k).

(** [always Q P p]: every effect [p] can issue satisfies [Q] and every value
    it can return satisfies [P]. *)
Inductive always {A : Type} (Q : forall R : Type, Eff R -> Prop)
    (P : A -> Prop) : Prog A -> Prop :=
| always_Ret (a : A) : P a -> always Q P (Ret a)
| always_Throw (e : exn) : always Q P (Throw e)
| always_Vis (R : Type) (ev : Eff R) k :
    Q R ev -> (forall r, always Q P (k r)) -> always Q P (Vis ev k).

(** Postconditions: a non-reserved string; no condition. *)
Definition not_reserved (s : string) : Prop := isReserved s = false.

Definition anything {A : Type} (_ : A) : Prop := True.

(** Inserts into the [ShortUrl] collection go under non-reserved keys. *)
Definition unreserved_insert (R : Type) (ev : Eff R) : Prop :=
  match ev with
  | SaveShortUrl doc => isReserved (shortcode doc) = false
  | _ => True
  end.

(** No document is stored under a reserved name. *)
Definition unreserved (w : World) : Prop :=
  forall (sc : string) (d : ShortUrl),
    shortUrls w !! sc = Some d -> isReserved sc = false.

(** The route handlers of the service. *)
Inductive is_handler `{Host} : Prog Response -> Prop :=
| handler_create (req : Request) : is_handler (post_shorturls req)
| handler_stats (req : Request) : is_handler (get_stats req)
| handler_redirect (req : Request) : is_handler (get_redirect req).

Definition sample_link : ShortUrl :=
  {| shortcode := "promo1"; originalUrl := "https://example.com/landing";
     createdAt := 1000; expiryAt := 1801000; validityMinutes := 30;
     clicksCount := 0;
     metadata := {| createdFromIP := "10.0.0.1"; meta_userAgent := None |} |}.

(** A world that holds [sample_link], at time [t], under fault schedule [f]. *)
Definition sample_world (t : Z) (f : nat -> option (Z * string)) : World :=
  {| shortUrls := {[ "promo1" := sample_link ]}; clicks := []; logs := [];
     clock := t; faults := f; calls := 0; random := fun n => n; draws := 0;
     ties := fun _ _ => false |}.

Definition no_fault : nat -> option (Z * string) := fun _ => None.

(** The schedule that rejects storage call number [i] only. *)
Definition fault_at (i : nat) : nat -> option (Z * string) :=
  fun n => if (n =? i)%nat then Some (89, "network timeout") else None.

(** ** Character classes of the codec *)

(** The 62 characters [generateShortcode] draws from. *)
Definition alnum (c : ascii) : bool := is_upper c || is_lower c || is_digit c.

(** An ASCII character that is not white space: no white-space sequence
    starts with it. *)
Definition plain (c : ascii) : bool :=
  negb (is_space c) && (nat_of_ascii c <? 128)%nat.

(** A plain character other than 'k'. *)
Definition plain_no_k (c : ascii) : bool := plain c && negb (is_byte 107 c).

(** The rest of [s] behind a Kelvin sign it starts with. *)
Definition kelvin_at (s : string) : option string :=
  match s with
  | String c1 (String c2 (String c3 s3)) =>
      if kelvin c1 c2 c3 then Some s3 else None
  | _ => None
  end.

(** A string [toLowerCase] leaves as it is: no upper-case ASCII letter and
    no Kelvin sign. *)
Fixpoint lowered (s : string) : bool :=
  match s with
  | EmptyString => true
  | String c s1 =>
      negb (is_upper c) && bool_decide (kelvin_at s = None) && lowered s1
  end.

(** ** Storage traffic and stored documents *)

(** The effects that are calls to the database. *)
Definition is_storage {R : Type} (ev : Eff R) : bool :=
  match ev with
  | NewDate | MathRandom _ | Log _ _ => false
  | _ => true
  end.

(** [within n p]: on every path, [p] issues at most [n] database calls. *)
Inductive within {A : Type} : nat -> Prog A -> Prop :=
| within_Ret (n : nat) (a : A) : within n (Ret a)
| within_Throw (n : nat) (e : exn) : within n (Throw e)
| within_call (n : nat) (R : Type) (ev : Eff R) k :
    (forall r, within n (k r)) -> within (S n) (Vis ev k)
| within_free (n : nat) (R : Type) (ev : Eff R) k :
    is_storage ev = false -> (forall r, within n (k r)) -> within n (Vis ev k).

(** A [ShortUrl] document as the creation handler builds it: never clicked,
    valid for at least a minute, expiring [validityMinutes] after its
    creation. *)
Definition wf_doc (d : ShortUrl) : Prop :=
  0 < validityMinutes d
  /\ expiryAt d = createdAt d + validityMinutes d * 60000
  /\ 0 <= clicksCount d.

Definition wf_insert (R : Type) (ev : Eff R) : Prop :=
  match ev with
  | SaveShortUrl doc => wf_doc doc
  | _ => True
  end.

(** Every stored document is filed under its own shortcode and is
    well formed. *)
Definition wf_store (w : World) : Prop :=
  forall (sc : string) (d : ShortUrl),
    shortUrls w !! sc = Some d -> shortcode d = sc /\ wf_doc d.

(** ** Repeated requests and orderings *)

(** [k] redirect requests served one after the other. *)
Fixpoint redirects (k : nat) (req : Request) (w : World) : World :=
  match k with
  | O => w
  | S k' => redirects k' req (run (get_redirect req) w).1
  end.

(** Newest first, on click documents and on the details sent back. *)
Definition click_newer (a b : Click) : Prop := clickedAt b <= clickedAt a.

Definition detail_newer (a b : ClickDetail) : Prop :=
  cd_timestamp b <= cd_timestamp a.

(** ** [GET /shorturls]: the listing handler *)

(** The listing answers with a body of its own shape, so it is written in
    state-passing style over the same world and the same [storage] calls. *)
Record Summary : Type := {
  sm_shortcode : string;
  sm_shortLink : string;
  sm_originalUrl : string;
  sm_createdAt : Z;
  sm_expiryAt : Z;
  sm_clicksTotal : Z
}.

Inductive ListResponse : Type :=
| ListJson (out : list Summary)
| ListError (status : Z) (error : string).


(** [.sort({ createdAt: -1 })]; documents with equal [createdAt] come out in
    the order [ties] decides, as for the clicks. *)
Fixpoint insert_newest (tie : nat -> bool) (d : ShortUrl) (l : list ShortUrl)
    : list ShortUrl :=
  match l with
  | [] => [d]
  | x :: l' =>
      if (createdAt x <? createdAt d)
         || ((createdAt x =? createdAt d) && tie (List.length l'))
      then d :: l else x :: insert_newest tie d l'
  end.

Definition sort_newest (ties : nat -> nat -> bool) (l : list ShortUrl)
    : list ShortUrl :=
  foldr (fun d acc => insert_newest (ties (List.length acc)) d acc) [] l.

(** [ShortUrl.find({}).sort({ createdAt: -1 }).limit(100)] *)
Definition find_recent (w : World) : list ShortUrl :=
  take 100 (sort_newest (ties w) (map_to_list (shortUrls w)).*2).

Definition summary (base : string) (d : ShortUrl) : Summary :=
  {| sm_shortcode := shortcode d;
     sm_shortLink := base ++ "/" ++ shortcode d;
     sm_originalUrl := originalUrl d;
     sm_createdAt := createdAt d;
     sm_expiryAt := expiryAt d;
     sm_clicksTotal := clicksCount d |}.

Definition get_list `{Host} (req : Request) (w : World) : World * ListResponse :=
  match storage w (fun w' => (w', Ok (find_recent w'))) with
  | (w1, Ok docs) => (w1, ListJson (map (summary (base_of req)) docs))
  | (w1, Err err) =>
      (add_log (LError, "list shorturls error") w1,
       ListError 500 "internal server error")
  end.

(** ** logging-middleware/index.js, backend/logging.js, frontend/src/logger.js *)

(** An absent argument of a logger is the empty string, which the code
    treats alike (both are falsy).  The file
    the middleware appends to is a list of lines, the remote endpoint an
    oracle that answers a post with response data or with an error
    message. *)
Module Logging.

Definition ALLOWED_STACKS : gset string := list_to_set ["backend"; "frontend"].

Definition ALLOWED_LEVELS : gset string :=
  list_to_set ["debug"; "info"; "error"; "fatal"].

Definition BACKEND_PACKAGES : gset string :=
  list_to_set ["cache"; "controller"; "cron job"; "db"; "domain"; "handler";
               "repository"; "route"; "service"].

Definition FRONTEND_PACKAGES : gset string :=
  list_to_set ["api"; "component"; "hook"; "page"; "state"; "style"].

Definition BOTH_PACKAGES : gset string :=
  list_to_set ["auth"; "config"; "middleware"; "utils"].

Definition has (x : string) (s : gset string) : bool := bool_decide (x ∈ s).

Definition normalizePackage (p : string) : string :=
  if negb (nonempty p) then ""
  else
    let s := toLowerCase p in
    if bool_decide (s = "cron-job") || bool_decide (s = "cronjob")
    then "cron job" else s.

Record Payload : Type := {
  p_stack : string;
  p_level : string;
  p_package : string;
  p_message : string
}.

(** The packages allowed for a lower-cased stack. *)
Definition allowed_for (s : string) : gset string :=
  BOTH_PACKAGES
  ∪ (if bool_decide (s = "backend") then BACKEND_PACKAGES else ∅)
  ∪ (if bool_decide (s = "frontend") then FRONTEND_PACKAGES else ∅).

(** Returns the payload, or the message of the [Error] it throws. *)
Definition validateAndNormalize (stack level pkg : string)
    (message : option string) : Payload + string :=
  if negb (nonempty stack) || negb (nonempty level) || negb (nonempty pkg)
  then inr "stack, level and package are required"
  else
    let s := toLowerCase stack in
    let l := toLowerCase level in
    let p := normalizePackage pkg in
    if negb (has s ALLOWED_STACKS) then inr ("invalid stack: " ++ stack)
    else if negb (has l ALLOWED_LEVELS) then inr ("invalid level: " ++ level)
    else if negb (has p (allowed_for s))
    then inr ("invalid package '" ++ pkg ++ "' for stack '" ++ stack ++ "'")
    else inl {| p_stack := s; p_level := l; p_package := p;
                p_message := match message with Some m => m | None => "" end |}.

(** A line of the fallback file. *)
Inductive Line : Type :=
| InvalidArgs (ts : Z) (message : string) (stack level pkg : string)
              (msg : option string)
| NoToken (ts : Z) (payload : Payload)
| Sent (ts : Z) (payload : Payload) (response : string)
| RemoteError (ts : Z) (payload : Payload) (remoteError : string).

Record Sink : Type := {
  file : list Line;
  posts : list Payload;
  LOGGING_AUTH_TOKEN : string;
  LOGGING_ACCESS_TOKEN : string;
  remote : Payload -> string + string;
  disk_ok : bool;
  now : Z
}.

Definition set_file (l : list Line) (s : Sink) : Sink :=
  {| file := l; posts := posts s;
     LOGGING_AUTH_TOKEN := LOGGING_AUTH_TOKEN s;
     LOGGING_ACCESS_TOKEN := LOGGING_ACCESS_TOKEN s;
     remote := remote s; disk_ok := disk_ok s; now := now s |}.

Definition add_post (p : Payload) (s : Sink) : Sink :=
  {| file := file s; posts := posts s ++ [p];
     LOGGING_AUTH_TOKEN := LOGGING_AUTH_TOKEN s;
     LOGGING_ACCESS_TOKEN := LOGGING_ACCESS_TOKEN s;
     remote := remote s; disk_ok := disk_ok s; now := now s |}.

(** [fs.appendFileSync] inside a [try] whose [catch] ignores the error. *)
Definition append_line (mk : Z -> Line) (s : Sink) : Sink :=
  if disk_ok s then set_file (file s ++ [mk (now s)]) s else s.

Definition fallbackWrite (mk : Z -> Line) (s : Sink) : Sink := append_line mk s.

(** [a || b] on strings. *)
Definition or_else (a b : string) : string := if nonempty a then a else b.

Definition token_of (s : Sink) : string :=
  or_else (LOGGING_AUTH_TOKEN s) (or_else (LOGGING_ACCESS_TOKEN s) "").

(** [Log]; the value is what the promise resolves to ([None] for
    [undefined]). *)
Definition Log (stack level pkg : string) (message : option string)
    (s : Sink) : Sink * option string :=
  match validateAndNormalize stack level pkg message with
  | inr err =>
      (fallbackWrite
         (fun ts => InvalidArgs ts ("invalid log args: " ++ err)
                      stack level pkg message) s,
       None)
  | inl payload =>
      if negb (nonempty (token_of s)) then
        (fallbackWrite (fun ts => NoToken ts payload) s, None)
      else
        match remote s payload with
        | inl data =>
            (append_line (fun ts => Sent ts payload data) (add_post payload s),
             Some data)
        | inr err =>
            (fallbackWrite (fun ts => RemoteError ts payload err)
               (add_post payload s),
             None)
        end
  end.

(** The [meta] argument of the logger methods. *)
Record Meta : Type := { m_stack : string; m_package : string; m_pkg : string }.

(** The methods of the middleware's [logger] object, and those of the
    adapter, which adds [warn]. *)
Inductive BaseMethod : Type := BInfo | BDebug | BError | BFatal.

Inductive Method : Type := MInfo | MDebug | MWarn | MError | MFatal.

Definition logger (m : BaseMethod) (msg : string) (meta : Meta) (s : Sink)
    : Sink * option string :=
  let stack := or_else (m_stack meta) "backend" in
  let pkg default := or_else (m_package meta) (or_else (m_pkg meta) default) in
  match m with
  | BInfo => Log stack "info" (pkg "middleware") (Some msg) s
  | BDebug => Log stack "debug" (pkg "middleware") (Some msg) s
  | BError => Log stack "error" (pkg "handler") (Some msg) s
  | BFatal => Log stack "fatal" (pkg "handler") (Some msg) s
  end.

(** The level a method logs at through the adapter, and the package it
    falls back to. *)
Definition level_name (m : Method) : string :=
  match m with
  | MInfo | MWarn => "info"
  | MDebug => "debug"
  | MError => "error"
  | MFatal => "fatal"
  end.

Definition default_package (m : Method) : string :=
  match m with
  | MInfo | MDebug | MWarn => "middleware"
  | MError | MFatal => "handler"
  end.

(** backend/logging.js: the adapter forces [stack: 'backend'] and maps
    [warn] to [info]. *)
Definition backend_logger (m : Method) (msg : string) (meta : Meta) (s : Sink)
    : Sink * option string :=
  let meta' := {| m_stack := "backend"; m_package := m_package meta;
                  m_pkg := m_pkg meta |} in
  match m with
  | MInfo => logger BInfo msg meta' s
  | MDebug => logger BDebug msg meta' s
  | MWarn => logger BInfo msg meta' s
  | MError => logger BError msg meta' s
  | MFatal => logger BFatal msg meta' s
  end.

(** frontend/src/logger.js *)
Definition allowedStacks : gset string := list_to_set ["frontend"].

Definition allowedLevels : gset string :=
  list_to_set ["debug"; "info"; "error"; "fatal"].

Definition allowedPackages : gset string :=
  list_to_set ["api"; "component"; "hook"; "page"; "state"; "style"; "auth";
               "config"; "middleware"; "utils"].

Definition validate (stack level pkg : string)
    : (string * string * string) + string :=
  let s := toLowerCase (or_else stack "") in
  let l := toLowerCase (or_else level "") in
  let p := toLowerCase (or_else pkg "") in
  if negb (has s allowedStacks) then inr "invalid stack for frontend logger"
  else if negb (has l allowedLevels) then inr "invalid level"
  else if negb (has p allowedPackages) then inr "invalid package"
  else inl (s, l, p).

(** What [clientLog] posts, if anything, given the configured token.  The
    four arguments are the values after the parameter defaults have been
    applied (a caller that omits one calls with 'frontend', 'info',
    'component' or the empty message). *)
Definition clientLog (LOG_TOKEN stack level pkg message : string)
    : option Payload :=
  match validate stack level pkg with
  | inr _ => None
  | inl _ =>
      if negb (nonempty LOG_TOKEN) then None
      else Some {| p_stack := toLowerCase stack; p_level := toLowerCase level;
                   p_package := toLowerCase pkg; p_message := message |}
  end.

End Logging.

(** ** A request between two of its effects *)

(** The rest of [p] once its next effect has been performed in [w]. *)
Definition resume {A : Type} (p : Prog A) (w : World) : Prog A := (step p w).2.

(** What an effect can hand back: a value, or, for a database call, an
    error of the storage driver. *)
Definition from_storage {R : Type} (ev : Eff R) (r : result R) : Prop :=
  match r with
  | Ok _ => True
  | Err e =>
      is_storage ev = true /\ exists (code : Z) (msg : string), e = DbError code msg
  end.

(** [ends P E p]: whatever the effects of [p] hand back, a value it returns
    satisfies [P] and an exception it throws satisfies [E]. *)
Inductive ends {A : Type} (P : A -> Prop) (E : exn -> Prop) : Prog A -> Prop :=
| ends_Ret (a : A) : P a -> ends P E (Ret a)
| ends_Throw (e : exn) : E e -> ends P E (Throw e)
| ends_Vis (R : Type) (ev : Eff R) k :
    (forall r, from_storage ev r -> ends P E (k r)) -> ends P E (Vis ev k).

(** A response other than 409; an exception other than a thrown 409. *)
Definition not_conflict (resp : Response) : Prop :=
  forall body : Body, resp <> Json 409 body.

Definition no_conflict_thrown (e : exn) : Prop :=
  forall msg : string, e <> Thrown 409 msg.

Definition never (_ : exn) : Prop := False.

Arguments isReserved : simpl never.
Arguments trim : simpl never.

(** * Properties *)

(** ** Running composed programs *)

Lemma run_bind {A B : Type} (p : Prog A) (f : A -> Prog B) (w : World) :
  run (bind p f) w =
  match run p w with
  | (w', Ok a) => run (f a) w'
  | (w', Err e) => (w', Err e)
  end.
Proof.
  revert w. induction p as [a | e | R ev k IH]; intros w; simpl; try reflexivity.
  destruct (perform ev w) as [w' r]. apply IH.
Qed.

Lemma run_try_catch {A : Type} (p : Prog A) (h : exn -> Prog A) (w : World) :
  run (try_catch p h) w =
  match run p w with
  | (w', Ok a) => (w', Ok a)
  | (w', Err e) => run (h e) w'
  end.
Proof.
  revert w. induction p as [a | e | R ev k IH]; intros w; simpl; try reflexivity.
  destruct (perform ev w) as [w' r]. apply IH.
Qed.

Lemma run_await {R : Type} (ev : Eff R) (w : World) :
  run (await ev) w =
  match perform ev w with
  | (w', Ok v) => (w', Ok v)
  | (w', Err e) => (w', Err e)
  end.
Proof.
  unfold await. simpl. destruct (perform ev w) as [w' [v | e]]; reflexivity.
Qed.

Lemma storage_ok {R : Type} (w : World) (op : World -> World * result R) :
  faults w (calls w) = None -> storage w op = op (next_call w).
Proof. intros Hf. unfold storage. rewrite Hf. reflexivity. Qed.

Lemma storage_fault {R : Type} (w : World) (op : World -> World * result R)
    (code : Z) (msg : string) :
  faults w (calls w) = Some (code, msg) ->
  storage w op = (next_call w, Err (DbError code msg)).
Proof. intros Hf. unfold storage. rewrite Hf. reflexivity. Qed.

(** ** Strings: trimming and lower-casing *)

Example reserved_mixed_case : isReserved "HeAlTh" = true.
Proof. vm_compute. reflexivity. Qed.

Example trim_example : trim "  ab c  " = "ab c".
Proof. reflexivity. Qed.

(** A no-break space in front; a line separator and a byte-order mark
    behind. *)
Example trim_beyond_ascii :
  trim (utf8 [194; 160] ++ "ab c" ++ utf8 [226; 128; 168; 239; 187; 191])
  = "ab c".
Proof. vm_compute. reflexivity. Qed.

Example normalize_no_break_space :
  @normalizeShortcode (JString (utf8 [194; 160] ++ "promo1")) = Some "promo1".
Proof. vm_compute. reflexivity. Qed.

(** The Kelvin sign lower-cases to 'k'. *)
Example lower_kelvin :
  toLowerCase ("bac" ++ utf8 [226; 132; 170] ++ "END") = "backend".
Proof. vm_compute. reflexivity. Qed.

Example normalize_rejects_dot :
  @normalizeShortcode (JString "favicon.ico") = None.
Proof. reflexivity. Qed.

Lemma string_length_ind (P : string -> Prop) :
  (forall s, (forall t, (String.length t < String.length s)%nat -> P t) -> P s) ->
  forall s, P s.
Proof.
  intros Hstep s. remember (String.length s) as n eqn:Hn. revert s Hn.
  induction n as [n IH] using lt_wf_ind. intros s ->.
  apply Hstep. intros t Hlt. apply (IH _ Hlt). reflexivity.
Qed.

Lemma all_chars_impl (f g : ascii -> bool) (s : string) :
  (forall c, f c = true -> g c = true) ->
  all_chars f s = true -> all_chars g s = true.
Proof.
  intros Hfg. induction s as [| c s IH]; simpl; [reflexivity |].
  intros Hc. apply andb_true_iff in Hc. destruct Hc as [Hc Hs].
  rewrite (Hfg c Hc), (IH Hs). reflexivity.
Qed.

(** [toLowerCase], one character at a time. *)
Lemma toLowerCase_eq (s : string) :
  toLowerCase s =
  match s with
  | EmptyString => EmptyString
  | String c1 s1 =>
      match kelvin_at s with
      | Some s3 => String "k" (toLowerCase s3)
      | None => String (lower_char c1) (toLowerCase s1)
      end
  end.
Proof.
  destruct s as [| c1 [| c2 [| c3 s3]]]; try reflexivity.
  cbn [kelvin_at]. destruct (kelvin c1 c2 c3) eqn:Hk;
    cbn [toLowerCase]; rewrite Hk; reflexivity.
Qed.

Lemma kelvin_at_shorter (s s3 : string) :
  kelvin_at s = Some s3 -> (String.length s3 < String.length s)%nat.
Proof.
  destruct s as [| c1 [| c2 [| c3 s']]]; try discriminate.
  cbn [kelvin_at]. destruct (kelvin c1 c2 c3); [| discriminate].
  intros Hs. injection Hs as <-. simpl. lia.
Qed.

Lemma kelvin_at_lead (c : ascii) (s : string) :
  is_byte 226 c = false -> kelvin_at (String c s) = None.
Proof.
  intros Hc. destruct s as [| c2 [| c3 s3]]; try reflexivity.
  cbn [kelvin_at]. unfold kelvin. rewrite Hc. reflexivity.
Qed.

(** Lower-casing does not touch the bytes outside ASCII. *)
Lemma is_byte_lower (n : nat) (c : ascii) :
  (128 <= n)%nat -> is_byte n (lower_char c) = is_byte n c.
Proof.
  intros Hn. unfold lower_char.
  destruct (is_upper c) eqn:Hu; [| reflexivity].
  unfold is_upper in Hu. apply andb_true_iff in Hu. destruct Hu as [_ Hu].
  apply Nat.leb_le in Hu. unfold is_byte.
  rewrite nat_ascii_embedding by lia.
  destruct (Nat.eqb_spec (nat_of_ascii c + 32) n),
    (Nat.eqb_spec (nat_of_ascii c) n); try reflexivity; lia.
Qed.

Lemma plain_lower (c : ascii) : plain_no_k (lower_char c) = true -> plain c = true.
Proof.
  destruct c as [[] [] [] [] [] [] [] []]; intros Hc;
    solve [reflexivity | discriminate Hc].
Qed.

Lemma plain_ascii (c : ascii) :
  plain c = true -> is_space c = false /\ (nat_of_ascii c < 128)%nat.
Proof.
  unfold plain. intros Hc. apply andb_true_iff in Hc. destruct Hc as [Hs Hn].
  apply negb_true_iff in Hs. apply Nat.ltb_lt in Hn. split; assumption.
Qed.

Lemma ascii_not_byte (n : nat) (c : ascii) :
  (nat_of_ascii c < 128)%nat -> (128 <= n)%nat -> is_byte n c = false.
Proof. intros Hc Hn. unfold is_byte. apply Nat.eqb_neq. lia. Qed.

Lemma plain_space2 (c c2 : ascii) : plain c = true -> is_space2 c c2 = false.
Proof.
  intros Hc. destruct (plain_ascii c Hc) as [_ Hn]. unfold is_space2.
  rewrite (ascii_not_byte 194 c Hn) by lia. reflexivity.
Qed.

Lemma plain_space3 (c c2 c3 : ascii) : plain c = true -> is_space3 c c2 c3 = false.
Proof.
  intros Hc. destruct (plain_ascii c Hc) as [_ Hn]. unfold is_space3.
  rewrite (ascii_not_byte 225 c Hn), (ascii_not_byte 226 c Hn),
    (ascii_not_byte 227 c Hn), (ascii_not_byte 239 c Hn) by lia.
  reflexivity.
Qed.

(** A string that starts with a plain character has no white space to drop
    at its start, and is not blank. *)
Lemma trimStart_plain (c : ascii) (s : string) :
  plain c = true -> trimStart (String c s) = String c s.
Proof.
  intros Hc. destruct (plain_ascii c Hc) as [Hs _]. cbn [trimStart].
  rewrite Hs. destruct s as [| c2 s2]; [reflexivity |].
  rewrite (plain_space2 c c2 Hc). destruct s2 as [| c3 s3]; [reflexivity |].
  rewrite (plain_space3 c c2 c3 Hc). reflexivity.
Qed.

Lemma blank_plain (c : ascii) (s : string) :
  plain c = true -> blank (String c s) = false.
Proof.
  intros Hc. destruct (plain_ascii c Hc) as [Hs _]. cbn [blank].
  rewrite Hs. destruct s as [| c2 s2]; [reflexivity |].
  rewrite (plain_space2 c c2 Hc). destruct s2 as [| c3 s3]; [reflexivity |].
  rewrite (plain_space3 c c2 c3 Hc). reflexivity.
Qed.

Lemma trimEnd_plain (s : string) : all_chars plain s = true -> trimEnd s = s.
Proof.
  induction s as [| c s IH]; [reflexivity |]. cbn [all_chars].
  intros Hc. apply andb_true_iff in Hc. destruct Hc as [Hc Hs].
  cbn [trimEnd]. rewrite (blank_plain c s Hc), (IH Hs). reflexivity.
Qed.

Lemma trim_plain (s : string) : all_chars plain s = true -> trim s = s.
Proof.
  intros Hs. unfold trim. destruct s as [| c s]; [reflexivity |].
  pose proof Hs as Hc. cbn [all_chars] in Hc.
  apply andb_true_iff in Hc. destruct Hc as [Hc _].
  rewrite (trimStart_plain c s Hc). apply trimEnd_plain. exact Hs.
Qed.

(** A string whose lower case is made of plain characters other than 'k'
    is itself made of plain characters. *)
Lemma lower_plain (s : string) :
  all_chars plain_no_k (toLowerCase s) = true -> all_chars plain s = true.
Proof.
  induction s as [s IH] using string_length_ind.
  rewrite toLowerCase_eq. destruct s as [| c1 s1]; [reflexivity |].
  destruct (kelvin_at (String c1 s1)) as [s3 |] eqn:Hk; cbn [all_chars];
    intros Hl; apply andb_true_iff in Hl; destruct Hl as [H1 H2].
  - vm_compute in H1. discriminate H1.
  - rewrite (plain_lower c1 H1). apply IH; [simpl; lia | exact H2].
Qed.

Lemma reserved_cases (r : string) :
  r ∈ RESERVED_SHORTCODES ->
  r = "shorturls" \/ r = "api" \/ r = "admin" \/ r = "health"
  \/ r = "favicon.ico".
Proof.
  unfold RESERVED_SHORTCODES. rewrite elem_of_list_to_set.
  rewrite !elem_of_cons, elem_of_nil. tauto.
Qed.

Lemma reserved_nonempty (r : string) : r ∈ RESERVED_SHORTCODES -> nonempty r = true.
Proof.
  intros Hr. destruct (reserved_cases r Hr) as [-> | [-> | [-> | [-> | ->]]]];
    reflexivity.
Qed.

Lemma isReserved_spec (s : string) :
  isReserved s = true <-> toLowerCase s ∈ RESERVED_SHORTCODES.
Proof. unfold isReserved. apply bool_decide_eq_true. Qed.

(** A name that lower-cases to a reserved name is plain ASCII. *)
Lemma isReserved_plain (s : string) :
  isReserved s = true -> all_chars plain s = true.
Proof.
  rewrite isReserved_spec. intros Hr. apply lower_plain.
  destruct (reserved_cases _ Hr) as [-> | [-> | [-> | [-> | ->]]]];
    reflexivity.
Qed.

Lemma isReserved_trim (s : string) :
  isReserved s = true -> isReserved (trim s) = true.
Proof.
  intros Hr. rewrite (trim_plain s (isReserved_plain s Hr)). exact Hr.
Qed.

Lemma isReserved_nonempty (s : string) : isReserved s = true -> nonempty s = true.
Proof.
  rewrite isReserved_spec. intros Hr. apply reserved_nonempty in Hr.
  destruct s; [discriminate Hr | reflexivity].
Qed.

(** ** Reserved names *)

(** C3. For every name whose lower-cased form is in the registry (a reserved
    name in any letter case), [makeUniqueShortcode] called with that name
    rejects it with the [{ status: 400, message: 'shortcode not allowed' }]
    error before touching storage, and the redirect handler answers
    404 'shortcode not found' without reading or changing the collections,
    whatever they hold. *)
Theorem reserved_name_refused (name : string) (w : World) (req : Request) :
  toLowerCase name ∈ RESERVED_SHORTCODES ->
  param_shortcode req = name ->
  run (makeUniqueShortcode (Some name)) w
    = (w, Err (Thrown 400 "shortcode not allowed"))
  /\ run (get_redirect req) w
    = (add_log (LWarn, "redirect_attempt_reserved_shortcode") w,
       Ok (Json 404 (ErrorBody "shortcode not found"))).
Proof.
  intros Hr Hsc. apply isReserved_spec in Hr. split.
  - unfold makeUniqueShortcode.
    rewrite (isReserved_nonempty _ Hr), (isReserved_trim _ Hr). reflexivity.
  - unfold get_redirect. rewrite Hsc, Hr. reflexivity.
Qed.

(** "Admin" is refused even in a world that stores a document under it. *)
Lemma reserved_name_refused_witness :
  let w := set_shortUrls {[ "Admin" := sample_link ]} (fresh 0 (fun n => n)) in
  shortUrls w !! "Admin" = Some sample_link
  /\ run (makeUniqueShortcode (Some "Admin")) w
     = (w, Err (Thrown 400 "shortcode not allowed"))
  /\ run (get_redirect (with_param "Admin" sample_request)) w
     = (add_log (LWarn, "redirect_attempt_reserved_shortcode") w,
        Ok (Json 404 (ErrorBody "shortcode not found"))).
Proof.
  intros w. split; [vm_compute; reflexivity |].
  apply (reserved_name_refused "Admin" w (with_param "Admin" sample_request)).
  - vm_compute. reflexivity.
  - reflexivity.
Defined.

(** ** The redirect handler *)

(** Everything [GET /:shortcode] does once the name is not reserved and the
    lookup has returned a document. *)
Lemma redirect_outcome (w : World) (req : Request) (d : ShortUrl) :
  isReserved (param_shortcode req) = false ->
  faults w (calls w) = None ->
  shortUrls w !! param_shortcode req = Some d ->
  let r := run (get_redirect req) w in
  let sc := param_shortcode req in
  if expiryAt d <? clock w then
    r.2 = Ok (Json 410 (ErrorBody "shortcode expired"))
    /\ shortUrls r.1 = shortUrls w /\ clicks r.1 = clicks w
  else
    match faults w (S (calls w)) with
    | Some _ =>
        r.2 = Ok internal_error
        /\ shortUrls r.1 = shortUrls w /\ clicks r.1 = clicks w
    | None =>
        clicks r.1 = (clicks w ++ [new_Click req sc (clock w)])%list
        /\ match faults w (S (S (calls w))) with
           | Some _ => r.2 = Ok internal_error /\ shortUrls r.1 = shortUrls w
           | None =>
               r.2 = Ok (Redirect 302 (originalUrl d))
               /\ shortUrls r.1 = alter inc_clicksCount sc (shortUrls w)
           end
    end.
Proof.
  intros Hres Hf Hd r sc. subst r sc.
  destruct (expiryAt d <? clock w) eqn:E;
    [| destruct (faults w (S (calls w))) as [[c1 m1] |] eqn:F1;
       [| destruct (faults w (S (S (calls w)))) as [[c2 m2] |] eqn:F2]];
    unfold get_redirect; rewrite Hres;
    repeat (progress (simpl; unfold storage; simpl;
                      rewrite ?Hf, ?Hd, ?E, ?F1, ?F2));
    auto.
Qed.

(** C4. Once the lookup of a non-reserved shortcode has returned its
    document, the redirect handler answers 410 'shortcode expired' exactly
    when the current time is strictly greater than [expiryAt]; at
    [now <= expiryAt], equality included, the link is active and, both click
    writes going through, the answer is the 302 redirect to the original
    URL. *)
Theorem expiry_is_strict (w : World) (req : Request) (d : ShortUrl) :
  isReserved (param_shortcode req) = false ->
  faults w (calls w) = None ->
  shortUrls w !! param_shortcode req = Some d ->
  ((run (get_redirect req) w).2 = Ok (Json 410 (ErrorBody "shortcode expired"))
   <-> clock w > expiryAt d)
  /\ (clock w <= expiryAt d ->
      faults w (S (calls w)) = None ->
      faults w (S (S (calls w))) = None ->
      (run (get_redirect req) w).2 = Ok (Redirect 302 (originalUrl d))).
Proof.
  intros Hres Hf Hd.
  pose proof (redirect_outcome w req d Hres Hf Hd) as Hout. simpl in Hout.
  destruct (Z.ltb_spec (expiryAt d) (clock w)) as [Hlt | Hge].
  - destruct Hout as [-> _]. split; [split; [lia | reflexivity] | lia].
  - split.
    + split; [| lia]. intros Hr.
      destruct (faults w (S (calls w))) as [[c m] |].
      * destruct Hout as [Hout _]. rewrite Hout in Hr. discriminate Hr.
      * destruct Hout as [_ Hout].
        destruct (faults w (S (S (calls w)))) as [[c m] |];
          destruct Hout as [Hout _]; rewrite Hout in Hr; discriminate Hr.
    + intros _ F1 F2. rewrite F1, F2 in Hout. tauto.
Qed.

(** At the boundary: [now = expiryAt] redirects. *)
Lemma expiry_is_strict_witness :
  ((run (get_redirect (with_param "promo1" sample_request))
      (sample_world 1801000 no_fault)).2
     = Ok (Json 410 (ErrorBody "shortcode expired"))
   <-> clock (sample_world 1801000 no_fault) > expiryAt sample_link)
  /\ (run (get_redirect (with_param "promo1" sample_request))
        (sample_world 1801000 no_fault)).2
     = Ok (Redirect 302 (originalUrl sample_link)).
Proof.
  destruct (expiry_is_strict (sample_world 1801000 no_fault)
              (with_param "promo1" sample_request) sample_link) as [Hiff Hact].
  - vm_compute. reflexivity.
  - reflexivity.
  - vm_compute. reflexivity.
  - split; [exact Hiff |].
    apply Hact; [vm_compute; discriminate | reflexivity | reflexivity].
Defined.

(** C8. A redirect request on a stored shortcode whose [expiryAt] is in the
    past appends no click and leaves the [ShortUrl] collection, click counters
    included, as it was; the lookup of a non-reserved shortcode having
    returned, the answer is 410 'shortcode expired'. *)
Theorem expired_redirect_is_inert (w : World) (req : Request) (d : ShortUrl) :
  shortUrls w !! param_shortcode req = Some d ->
  expiryAt d < clock w ->
  shortUrls (run (get_redirect req) w).1 = shortUrls w
  /\ clicks (run (get_redirect req) w).1 = clicks w
  /\ (isReserved (param_shortcode req) = false ->
      faults w (calls w) = None ->
      (run (get_redirect req) w).2
        = Ok (Json 410 (ErrorBody "shortcode expired"))).
Proof.
  intros Hd Hexp.
  destruct (isReserved (param_shortcode req)) eqn:Hres.
  { unfold get_redirect. rewrite Hres. simpl.
    split; [reflexivity | split; [reflexivity | discriminate]]. }
  destruct (faults w (calls w)) as [[c m] |] eqn:Hf.
  { unfold get_redirect. rewrite Hres. simpl. unfold storage. rewrite Hf.
    simpl. split; [reflexivity | split; [reflexivity | discriminate]]. }
  pose proof (redirect_outcome w req d Hres Hf Hd) as Hout. simpl in Hout.
  assert (Hlt : (expiryAt d <? clock w) = true) by (apply Z.ltb_lt; exact Hexp).
  rewrite Hlt in Hout. destruct Hout as (Hr & Hs & Hc). auto.
Qed.

Lemma expired_redirect_is_inert_witness :
  shortUrls (run (get_redirect (with_param "promo1" sample_request))
               (sample_world 1801001 no_fault)).1
    = shortUrls (sample_world 1801001 no_fault)
  /\ clicks (run (get_redirect (with_param "promo1" sample_request))
               (sample_world 1801001 no_fault)).1
    = clicks (sample_world 1801001 no_fault)
  /\ (run (get_redirect (with_param "promo1" sample_request))
        (sample_world 1801001 no_fault)).2
     = Ok (Json 410 (ErrorBody "shortcode expired")).
Proof.
  destruct (expired_redirect_is_inert (sample_world 1801001 no_fault)
              (with_param "promo1" sample_request) sample_link)
    as (Hs & Hc & Hr).
  - vm_compute. reflexivity.
  - vm_compute. reflexivity.
  - split; [exact Hs | split; [exact Hc |]].
    apply Hr; [vm_compute; reflexivity | reflexivity].
Defined.

(** A stored, unexpired link whose click append is rejected: the caller gets
    500 'internal server error', not the redirect. *)
Lemma click_failure_denies_redirect :
  shortUrls (sample_world 5000 (fault_at 1)) !! "promo1" = Some sample_link
  /\ clock (sample_world 5000 (fault_at 1)) <= expiryAt sample_link
  /\ faults (sample_world 5000 (fault_at 1)) 1%nat = Some (89, "network timeout")
  /\ (run (get_redirect (with_param "promo1" sample_request))
        (sample_world 5000 (fault_at 1))).2
     = Ok (Json 500 (ErrorBody "internal server error")).
Proof. vm_compute. repeat split; discriminate. Qed.


(** C1 (as the code has it). For a stored, unexpired, non-reserved shortcode
    whose lookup succeeds, the redirect to the original URL is returned
    exactly when both click writes succeed; when the click append or the
    counter increment is rejected, the handler's [catch] logs
    'redirect error' and answers 500 'internal server error'. *)
Theorem click_failure_is_surfaced (w : World) (req : Request) (d : ShortUrl) :
  isReserved (param_shortcode req) = false ->
  faults w (calls w) = None ->
  shortUrls w !! param_shortcode req = Some d ->
  clock w <= expiryAt d ->
  let r := run (get_redirect req) w in
  match faults w (S (calls w)), faults w (S (S (calls w))) with
  | None, None =>
      r.2 = Ok (Redirect 302 (originalUrl d))
      /\ logs r.1 = (logs w ++ [(LInfo, "redirect")])%list
  | _, _ =>
      r.2 = Ok internal_error
      /\ logs r.1 = (logs w ++ [(LError, "redirect error")])%list
  end.
Proof.
  intros Hres Hf Hd Hact r. subst r.
  assert (Hge : (expiryAt d <? clock w) = false) by (apply Z.ltb_ge; exact Hact).
  destruct (faults w (S (calls w))) as [[c1 m1] |] eqn:F1;
    [| destruct (faults w (S (S (calls w)))) as [[c2 m2] |] eqn:F2];
    unfold get_redirect; rewrite Hres;
    repeat (progress (simpl; unfold storage; simpl;
                      rewrite ?Hf, ?Hd, ?Hge, ?F1, ?F2));
    split; reflexivity.
Qed.

(** The counter increment rejected after the click was appended. *)
Lemma click_failure_is_surfaced_witness :
  let r := run (get_redirect (with_param "promo1" sample_request))
             (sample_world 5000 (fault_at 2)) in
  r.2 = Ok internal_error
  /\ logs r.1 = [(LError, "redirect error")]
  /\ List.length (clicks r.1) = 1%nat.
Proof.
  intros r.
  pose proof (click_failure_is_surfaced (sample_world 5000 (fault_at 2))
                (with_param "promo1" sample_request) sample_link) as Hc1.
  cbv zeta in Hc1.
  change (faults (sample_world 5000 (fault_at 2))
            (S (calls (sample_world 5000 (fault_at 2)))))
    with (@None (Z * string)) in Hc1.
  change (faults (sample_world 5000 (fault_at 2))
            (S (S (calls (sample_world 5000 (fault_at 2))))))
    with (Some (89, "network timeout")) in Hc1.
  destruct Hc1 as [Hr Hl].
  - vm_compute. reflexivity.
  - reflexivity.
  - vm_compute. reflexivity.
  - vm_compute. discriminate.
  - split; [exact Hr |]. split; [exact Hl |]. vm_compute. reflexivity.
Defined.

(** ** The stats handler *)

Lemma insert_desc_perm (tie : nat -> bool) (c : Click) (l : list Click) :
  insert_desc tie c l ≡ₚ c :: l.
Proof.
  induction l as [| x l IH]; simpl; [reflexivity |].
  destruct ((clickedAt x <? clickedAt c)
            || ((clickedAt x =? clickedAt c) && tie (List.length l)));
    [reflexivity |].
  rewrite IH. apply Permutation_swap.
Qed.

Lemma sort_desc_perm (ties : nat -> nat -> bool) (l : list Click) :
  sort_desc ties l ≡ₚ l.
Proof.
  induction l as [| c l IH]; simpl; [reflexivity |].
  unfold sort_desc in *. simpl. rewrite insert_desc_perm, IH. reflexivity.
Qed.

Lemma insert_desc_sorted (tie : nat -> bool) (c : Click) (l : list Click) :
  StronglySorted click_newer l ->
  StronglySorted click_newer (insert_desc tie c l).
Proof.
  induction l as [| x l IH]; intros Hl; simpl.
  - repeat constructor.
  - apply StronglySorted_inv in Hl. destruct Hl as [Hl Hx].
    destruct ((clickedAt x <? clickedAt c)
              || ((clickedAt x =? clickedAt c) && tie (List.length l)))
      eqn:Hfirst.
    + assert (Hle : clickedAt x <= clickedAt c).
      { apply orb_true_iff in Hfirst. destruct Hfirst as [Hlt | Heq].
        - apply Z.ltb_lt in Hlt. lia.
        - apply andb_true_iff in Heq. destruct Heq as [Heq _].
          apply Z.eqb_eq in Heq. lia. }
      constructor; [constructor; assumption |].
      constructor; [exact Hle |].
      eapply Forall_impl; [exact Hx |]. intros y Hy.
      unfold click_newer in *. lia.
    + apply orb_false_iff in Hfirst. destruct Hfirst as [Hge _].
      apply Z.ltb_ge in Hge.
      constructor; [apply IH; exact Hl |].
      rewrite insert_desc_perm. constructor; [exact Hge | exact Hx].
Qed.

Lemma sort_desc_sorted (ties : nat -> nat -> bool) (l : list Click) :
  StronglySorted click_newer (sort_desc ties l).
Proof.
  induction l as [| c l IH]; [constructor |].
  unfold sort_desc in *. simpl. apply insert_desc_sorted. exact IH.
Qed.

Lemma run_get_stats_ok (req : Request) (w : World) :
  faults w (calls w) = None ->
  faults w (S (calls w)) = None ->
  (run (get_stats req) w).2 =
    match shortUrls w !! param_shortcode req with
    | Some d =>
        Ok (Json 200
              (StatsBody (param_shortcode req) (originalUrl d) (createdAt d)
                 (expiryAt d) (clicksCount d)
                 (map click_detail
                    (sort_desc (ties w)
                       (clicks_of (param_shortcode req) (clicks w))))))
    | None => Ok (Json 404 (ErrorBody "shortcode not found"))
    end.
Proof.
  intros F0 F1. unfold get_stats. simpl. unfold storage at 1. rewrite F0. simpl.
  destruct (shortUrls w !! param_shortcode req) as [d |]; simpl; [| reflexivity].
  unfold storage. simpl. rewrite F1. reflexivity.
Qed.

(** C10. [GET /shorturls/:shortcode] never consults the clock: both storage
    reads going through, a stored shortcode gets the full record whatever its
    [expiryAt] and whatever the time: its shortcode, originalUrl, createdAt,
    expiryAt and clicksTotal, and one entry for each click recorded for the
    shortcode, newest first, each carrying that click's timestamp, referrer,
    ip, userAgent and geo.  The answer is 404 only when no document with
    that shortcode is stored. *)
Theorem stats_ignore_expiry (w : World) (req : Request) :
  ((run (get_stats req) w).2 = Ok (Json 404 (ErrorBody "shortcode not found")) ->
   shortUrls w !! param_shortcode req = None)
  /\ (faults w (calls w) = None ->
      faults w (S (calls w)) = None ->
      match shortUrls w !! param_shortcode req with
      | Some d =>
          exists (listed : list Click) (details : list ClickDetail),
            (run (get_stats req) w).2
              = Ok (Json 200
                      (StatsBody (param_shortcode req) (originalUrl d)
                         (createdAt d) (expiryAt d) (clicksCount d) details))
            /\ listed ≡ₚ clicks_of (param_shortcode req) (clicks w)
            /\ StronglySorted click_newer listed
            /\ Forall2 (fun (c : Click) (e : ClickDetail) =>
                          cd_timestamp e = clickedAt c
                          /\ cd_referrer e = referrer c
                          /\ cd_ip e = ip c
                          /\ cd_userAgent e = userAgent c
                          /\ cd_geo e = geo c)
                 listed details
      | None =>
          (run (get_stats req) w).2
            = Ok (Json 404 (ErrorBody "shortcode not found"))
      end)
  /\ (forall t : Z,
        (run (get_stats req) (set_clock t w)).2 = (run (get_stats req) w).2).
Proof.
  split; [| split].
  - unfold get_stats. simpl. unfold storage at 1.
    destruct (faults w (calls w)) as [[c m] |]; simpl; [discriminate |].
    destruct (shortUrls w !! param_shortcode req) as [d |]; simpl;
      [| reflexivity].
    unfold storage. simpl.
    destruct (faults w (S (calls w))) as [[c m] |]; simpl; discriminate.
  - intros F0 F1. rewrite (run_get_stats_ok req w F0 F1).
    destruct (shortUrls w !! param_shortcode req) as [d |]; [| reflexivity].
    exists (sort_desc (ties w) (clicks_of (param_shortcode req) (clicks w))).
    exists (map click_detail
              (sort_desc (ties w) (clicks_of (param_shortcode req) (clicks w)))).
    split; [reflexivity |]. split; [apply sort_desc_perm |].
    split; [apply sort_desc_sorted |].
    apply Forall2_fmap_r, Forall_Forall2_diag, Forall_forall.
    intros c _. cbn. repeat split; reflexivity.
  - intros t.
    destruct (faults w (calls w)) as [[c0 m0] |] eqn:F0;
      [| destruct (shortUrls w !! param_shortcode req) as [d |] eqn:Hd;
         [destruct (faults w (S (calls w))) as [[c1 m1] |] eqn:F1 |]];
      unfold get_stats;
      repeat (progress (simpl; unfold storage; simpl; rewrite ?F0, ?Hd, ?F1));
      reflexivity.
Qed.

(** Two clicks recorded for the stored link and one for another shortcode,
    read an hour after the link expired. *)
Lemma stats_ignore_expiry_witness :
  let visit t ref addr agent land :=
    {| click_shortcode := "promo1"; clickedAt := t; referrer := ref;
       ip := addr; userAgent := agent; geo := {| country := land |} |} in
  let w := set_clicks
             [visit 2000 (Some "https://news.example") "10.0.0.7"
                (Some "Firefox") (Some "IN");
              new_Click sample_request "other" 3000;
              visit 4000 None "10.0.0.9" None None]
             (sample_world 5401000 no_fault) in
  expiryAt sample_link < clock w
  /\ exists details : list ClickDetail,
       (run (get_stats (with_param "promo1" sample_request)) w).2
         = Ok (Json 200
                 (StatsBody "promo1" "https://example.com/landing" 1000
                    1801000 0 details))
       /\ details
          = [ {| cd_timestamp := 4000; cd_referrer := None; cd_ip := "10.0.0.9";
                 cd_userAgent := None; cd_geo := {| country := None |} |};
              {| cd_timestamp := 2000;
                 cd_referrer := Some "https://news.example";
                 cd_ip := "10.0.0.7"; cd_userAgent := Some "Firefox";
                 cd_geo := {| country := Some "IN" |} |} ].
Proof.
  intros visit w. split; [vm_compute; reflexivity |].
  pose proof (proj1 (proj2 (stats_ignore_expiry w
                              (with_param "promo1" sample_request))))
    as Hstats.
  assert (Hd : shortUrls w !! param_shortcode (with_param "promo1" sample_request)
               = Some sample_link) by (vm_compute; reflexivity).
  rewrite Hd in Hstats.
  destruct Hstats as (listed & details & Hr & _); [reflexivity | reflexivity |].
  exists details. split; [exact Hr |].
  vm_compute in Hr. injection Hr as <-. reflexivity.
Defined.

(** ** Validity of a creation request *)

Section Validity.
Context `{Host}.

(** The computed validity is always at least one minute, so the handler's
    [validMinutes <= 0] rejection can never fire. *)
Lemma validMinutes_positive (validity : jsval) : 0 < validMinutes_of validity.
Proof.
  unfold validMinutes_of.
  destruct (Number validity) as [z | fl | neg |]; simpl; try lia.
  destruct (Z.ltb_spec 0 z); lia.
Qed.

(** A non-positive number is replaced by the default of 30 minutes. *)
Lemma nonpositive_validity_defaults (n : jsnum) :
  num_le0 n = true -> validMinutes_of (JNumber n) = 30.
Proof.
  unfold validMinutes_of. simpl.
  destruct n as [z | fl | neg |]; simpl; try reflexivity.
  intros Hle. apply Z.leb_le in Hle.
  destruct (Z.ltb_spec 0 z); [lia | reflexivity].
Qed.

(** A request with a non-positive numeric validity is handled exactly as
    the same request with no validity field. *)
Lemma nonpositive_validity_accepted (n : jsnum) (req : Request) :
  num_le0 n = true ->
  post_shorturls (with_validity (JNumber n) req)
  = post_shorturls (with_validity JUndefined req).
Proof.
  intros Hle. unfold post_shorturls, post_shorturls_body. simpl.
  rewrite (nonpositive_validity_defaults n Hle). reflexivity.
Qed.

End Validity.

(** C5 (what the code does at [validity: -5]). The request is not rejected:
    the handler answers 201 and stores a link valid for the default 30
    minutes, although it carries the rejection
    'validity must be a positive integer (minutes)' for this case. *)
Theorem negative_validity_creates_link :
  let r := run (@post_shorturls sample_host
                  (with_shortcode (JString "promo2")
                     (with_validity (JNumber (NInt (-5))) sample_request)))
               (fresh 1000 (fun n => n)) in
  r.2 = Ok (Json 201 (CreatedBody "http://localhost:4000/promo2" 1801000))
  /\ validityMinutes <$> (shortUrls r.1 !! "promo2") = Some 30.
Proof. vm_compute. split; reflexivity. Qed.

(** ** The generation loop *)

Lemma append_assoc (a b c : string) : (a ++ b) ++ c = a ++ (b ++ c).
Proof.
  induction a as [| x a IH]; [reflexivity |].
  change (String x ((a ++ b) ++ c) = String x (a ++ b ++ c)).
  f_equal. exact IH.
Qed.

Lemma append_empty_r (a : string) : a ++ "" = a.
Proof.
  induction a as [| x a IH]; [reflexivity |].
  change (String x (a ++ "") = String x a). f_equal. exact IH.
Qed.

Lemma add_draws_next (n : nat) (w : World) :
  add_draws n (next_draw w) = add_draws (S n) w.
Proof. unfold add_draws, next_draw. simpl. f_equal. lia. Qed.

Lemma add_draws_0 (w : World) : add_draws 0 w = w.
Proof. destruct w. unfold add_draws. simpl. f_equal. lia. Qed.

Lemma run_generateShortcode_from (n : nat) (out : string) (w : World) :
  run (generateShortcode_from n out) w
  = (add_draws n w, Ok (out ++ drawn (random w) (draws w) n)).
Proof.
  revert out w. induction n as [| n IH]; intros out w.
  - simpl. rewrite add_draws_0, append_empty_r. reflexivity.
  - cbn [generateShortcode_from]. rewrite run_bind, run_await.
    cbn [perform]. rewrite IH. cbn [next_draw random draws].
    rewrite add_draws_next, append_assoc. reflexivity.
Qed.

Lemma run_generateShortcode (n : nat) (w : World) :
  run (generateShortcode n) w = (add_draws n w, Ok (drawn (random w) (draws w) n)).
Proof. unfold generateShortcode. rewrite run_generateShortcode_from. reflexivity. Qed.

Lemma no_faults_next_call (w : World) : no_faults w -> no_faults (next_call w).
Proof. intros Hn n Hle. apply (Hn n). simpl in Hle. lia. Qed.

Lemma no_faults_add_draws (k : nat) (w : World) :
  no_faults w -> no_faults (add_draws k w).
Proof. intros Hn n Hle. apply (Hn n). exact Hle. Qed.

Lemma no_faults_now (w : World) : no_faults w -> faults w (calls w) = None.
Proof. intros Hn. apply Hn. lia. Qed.

Lemma candidates_S (w : World) (k : nat) :
  candidates w (S k)
  = drawn (random w) (draws w) 6 :: candidates (add_draws 6 w) k.
Proof.
  unfold candidates. cbn [seq map]. f_equal.
  - f_equal. lia.
  - rewrite <- seq_shift, map_map. apply map_ext. intros i.
    cbn [add_draws random draws]. f_equal. lia.
Qed.

Lemma list_find_available_cons (w : World) (c : string) (l : list string) :
  list_find (available w) (c :: l)
  = if available w c then Some (0%nat, c)
    else prod_map S id <$> list_find (available w) l.
Proof.
  cbn [list_find]. destruct (decide (available w c)) as [Ha | Ha].
  - apply Is_true_true in Ha. rewrite Ha. reflexivity.
  - apply Is_true_false in Ha. rewrite Ha. reflexivity.
Qed.

(** The loop with [k] attempts left: it leaves both collections alone, and
    its result and the number of draws it consumed are read off the first
    available candidate among the next [k]. *)
Lemma run_generate_unique (k : nat) (w : World) :
  no_faults w ->
  let r := run (generate_unique k) w in
  shortUrls r.1 = shortUrls w /\ clicks r.1 = clicks w
  /\ random r.1 = random w /\ faults r.1 = faults w /\ clock r.1 = clock w
  /\ (calls w <= calls r.1 <= calls w + k)%nat
  /\ match list_find (available w) (candidates w k) with
     | Some (i, c) => r.2 = Ok c /\ draws r.1 = (draws w + 6 * (i + 1))%nat
     | None => r.2 = Err exhausted /\ draws r.1 = (draws w + 6 * k)%nat
     end.
Proof.
  revert w. induction k as [| k IH]; intros w Hn r; subst r.
  - simpl. repeat split; lia.
  - cbn [generate_unique]. rewrite run_bind, run_generateShortcode.
    rewrite candidates_S, list_find_available_cons.
    set (c0 := drawn (random w) (draws w) 6).
    set (w1 := add_draws 6 w).
    assert (Hn1 : no_faults w1) by (apply no_faults_add_draws; exact Hn).
    assert (Hav : available w c0
                  = negb (isReserved c0) && bool_decide (shortUrls w !! c0 = None))
      by reflexivity.
    destruct (isReserved c0) eqn:Hres.
    + (* reserved candidate: the attempt is spent *)
      rewrite Hav. cbn [negb andb].
      destruct (IH w1 Hn1) as (Hs & Hc & Hr & Hf & Ht & Hcalls & Hfind).
      change (available w1) with (available w) in Hfind.
      repeat split; try assumption; try (simpl in Hcalls; lia).
      destruct (list_find (available w) (candidates w1 k)) as [[i c] |];
        simpl; destruct Hfind as [Hres' Hd]; split; try exact Hres';
        rewrite Hd; simpl; lia.
    + rewrite run_bind, run_await. cbn [perform].
      rewrite storage_ok by (apply no_faults_now; exact Hn1).
      change (shortUrls (next_call w1)) with (shortUrls w).
      destruct (shortUrls w !! c0) as [d |] eqn:Hlook.
      * (* stored candidate: try again *)
        rewrite Hav, bool_decide_false by congruence. cbn [negb andb].
        destruct (IH (next_call w1) (no_faults_next_call _ Hn1))
          as (Hs & Hc & Hr & Hf & Ht & Hcalls & Hfind).
        change (available (next_call w1)) with (available w) in Hfind.
        change (candidates (next_call w1) k) with (candidates w1 k) in Hfind.
        repeat split; try assumption; try (simpl in Hcalls; lia).
        destruct (list_find (available w) (candidates w1 k)) as [[i c] |];
          simpl; destruct Hfind as [Hres' Hd]; split; try exact Hres';
          rewrite Hd; simpl; lia.
      * (* free candidate: returned *)
        rewrite Hav, bool_decide_true by reflexivity. cbn [negb andb].
        simpl. repeat split; lia.
Qed.

(** C6. With no desired shortcode and storage answering, the allocator reads
    at most 8 six-character candidates off the draw sequence, passes over
    every candidate that is reserved or already stored, returns the first
    candidate that is neither, and throws 'unable to generate unique
    shortcode, try again' (status 500) when none of the 8 is available; it
    never writes to storage. *)
Theorem generation_is_bounded (w : World) :
  no_faults w ->
  let r := run (makeUniqueShortcode None) w in
  shortUrls r.1 = shortUrls w /\ clicks r.1 = clicks w
  /\ (draws r.1 <= draws w + 6 * 8)%nat
  /\ match list_find (available w) (candidates w 8) with
     | Some (i, c) => r.2 = Ok c /\ draws r.1 = (draws w + 6 * (i + 1))%nat
     | None => r.2 = Err exhausted /\ draws r.1 = (draws w + 6 * 8)%nat
     end.
Proof.
  intros Hn r. subst r. cbn [makeUniqueShortcode].
  destruct (run_generate_unique 8 w Hn) as (Hs & Hc & _ & _ & _ & _ & Hfind).
  split; [exact Hs | split; [exact Hc |]]. split; [| exact Hfind].
  destruct (list_find (available w) (candidates w 8)) as [[i c] |] eqn:Hlf.
  - apply list_find_Some in Hlf. destruct Hlf as (Hi & _ & _).
    apply lookup_lt_Some in Hi. unfold candidates in Hi.
    rewrite length_map, length_seq in Hi. destruct Hfind as [_ Hd]. lia.
  - destruct Hfind as [_ Hd]. lia.
Qed.

(** Draws spelling "HEALTH" first: the reserved candidate is passed over and
    the second candidate, "AAAAAA", is returned after 12 draws. *)
Lemma generation_is_bounded_witness :
  let w := fresh 0 (fun n => nth n [7; 4; 0; 11; 19; 7]%nat 0%nat) in
  let r := run (makeUniqueShortcode None) w in
  candidates w 2 = ["HEALTH"; "AAAAAA"]
  /\ r.2 = Ok "AAAAAA" /\ draws r.1 = 12%nat.
Proof.
  intros w r. split; [vm_compute; reflexivity |].
  assert (Hn : no_faults w) by (intros n _; reflexivity).
  destruct (generation_is_bounded w Hn) as (_ & _ & _ & Hfind).
  vm_compute in Hfind. vm_compute. exact Hfind.
Defined.

(** ** Well-formed shortcodes *)

Lemma code_char_plain (c : ascii) : code_char c = true -> plain c = true.
Proof.
  destruct c as [[] [] [] [] [] [] [] []]; intros Hc;
    solve [reflexivity | discriminate Hc].
Qed.

Lemma trimStart_code (s : string) :
  all_chars code_char s = true -> trimStart s = s.
Proof.
  destruct s as [| c s]; [reflexivity |]. cbn [all_chars].
  intros Hc. apply andb_true_iff in Hc. destruct Hc as [Hc _].
  apply trimStart_plain, code_char_plain. exact Hc.
Qed.

Lemma trimEnd_code (s : string) :
  all_chars code_char s = true -> trimEnd s = s.
Proof.
  intros Hc. apply trimEnd_plain.
  apply (all_chars_impl code_char plain _ code_char_plain Hc).
Qed.

Lemma shortcode_re_chars (s : string) :
  shortcode_re s = true -> all_chars code_char s = true.
Proof.
  unfold shortcode_re. intros Hre.
  apply andb_true_iff in Hre. destruct Hre as [Hre _].
  apply andb_true_iff in Hre. destruct Hre as [Hre _]. exact Hre.
Qed.

Lemma shortcode_re_trim (s : string) : shortcode_re s = true -> trim s = s.
Proof.
  intros Hre. apply shortcode_re_chars in Hre. unfold trim.
  rewrite (trimStart_code s Hre). apply trimEnd_code. exact Hre.
Qed.

Lemma shortcode_re_nonempty (s : string) :
  shortcode_re s = true -> nonempty s = true.
Proof. destruct s; [discriminate | reflexivity]. Qed.

(** ** The creation handler *)


Section Creation.
Context `{Host}.

Lemma save_retry_S (n : nat) (mk : string -> ShortUrl) (chosen : string)
    (last : option exn) :
  save_retry (S n) mk chosen last
  = (let* r := attempt (SaveShortUrl (mk chosen)) in
     match r with
     | Ok saved => Ret (Some saved, chosen, None)
     | Err e =>
         if bool_decide (exn_code e = Some 11000) then
           let* _ := await (Log LWarn
             "Duplicate key on save - shortcode collision, regenerating") in
           let* chosen' := makeUniqueShortcode None in
           save_retry n mk chosen' (Some e)
         else Ret (None, chosen, Some e)
     end).
Proof. reflexivity. Qed.

Lemma run_save_retry_ok (n : nat) (mk : string -> ShortUrl)
    (chosen : string) (last : option exn) (w : World) :
  faults w (calls w) = None ->
  shortUrls w !! shortcode (mk chosen) = None ->
  run (save_retry (S n) mk chosen last) w
  = (set_shortUrls (<[shortcode (mk chosen) := mk chosen]> (shortUrls w))
       (next_call w),
     Ok (Some (mk chosen), chosen, None)).
Proof.
  intros Hf Hfree. cbn [save_retry]. rewrite run_bind.
  unfold attempt. cbn [run perform]. rewrite (storage_ok _ _ Hf).
  change (shortUrls (next_call w)) with (shortUrls w). rewrite Hfree.
  reflexivity.
Qed.


(** [create_with] when the expiry is out of the range of [Date]: nothing is
    sent to storage. *)
Lemma run_create_with_invalid (req : Request) (url : string) (vm : Z)
    (chosen : string) (w : World) :
  valid_time (clock w + vm * 60000) = false ->
  run (create_with req url vm chosen) w
  = (add_log (LError, "Failed to save ShortUrl after retries") w,
     Ok internal_error).
Proof.
  intros Hdate. unfold create_with.
  rewrite run_bind, run_await. cbn [perform]. unfold create_at.
  rewrite Hdate. reflexivity.
Qed.

(** The handler body for a request with a well-formed URL and a
    well-formed desired shortcode. *)
Lemma post_body_desired (req : Request) (url s : string) :
  body_url req = JString url ->
  nonempty url = true ->
  validator_isURL url = true ->
  body_shortcode req = JString s ->
  shortcode_re s = true ->
  post_shorturls_body req
  = (let* chosen := makeUniqueShortcode (Some s) in
     create_with req url (validMinutes_of (body_validity req)) chosen).
Proof.
  intros Hurl Hne Hvalid Hsc Hre. unfold post_shorturls_body.
  rewrite Hurl, Hne. cbn [negb isValidUrl]. rewrite Hvalid. cbn [negb].
  pose proof (validMinutes_positive (body_validity req)) as Hpos.
  destruct (Z.leb_spec (validMinutes_of (body_validity req)) 0) as [Hle | _];
    [lia |].
  rewrite Hsc. unfold normalizeShortcode. cbn [truthy is_string].
  rewrite (shortcode_re_nonempty s Hre), (shortcode_re_trim s Hre), Hre.
  reflexivity.
Qed.


End Creation.

(** ** Case sensitivity *)


Section CaseSensitivity.
Context `{Host}.


End CaseSensitivity.


(** ** Duplicate key on insert *)

Lemma generate_unique_logs (k : nat) (w : World) :
  logs (run (generate_unique k) w).1 = logs w.
Proof.
  revert w. induction k as [| k IH]; intros w; [reflexivity |].
  cbn [generate_unique]. rewrite run_bind, run_generateShortcode.
  destruct (isReserved (drawn (random w) (draws w) 6));
    [rewrite IH; reflexivity |].
  rewrite run_bind, run_await. cbn [perform]. unfold storage.
  cbn [faults calls add_draws].
  destruct (faults w (calls w)) as [[code msg] |]; [reflexivity |].
  cbn [shortUrls next_call add_draws].
  destruct (shortUrls w !! drawn (random w) (draws w) 6);
    [rewrite IH; reflexivity | reflexivity].
Qed.

Lemma perform_from_storage {R : Type} (ev : Eff R) (w : World) :
  from_storage ev (perform ev w).2.
Proof.
  destruct ev; cbn [perform]; unfold storage;
    try (destruct (faults w (calls w)) as [[code msg] |]);
    try (destruct (shortUrls (next_call w) !! shortcode doc));
    cbn [snd from_storage is_storage]; unfold E11000; eauto.
Qed.

Lemma ends_bind {A B : Type} (P : A -> Prop) (P' : B -> Prop)
    (E : exn -> Prop) (p : Prog A) (f : A -> Prog B) :
  ends P E p -> (forall a, P a -> ends P' E (f a)) -> ends P' E (bind p f).
Proof.
  intros Hp Hf. induction Hp as [a Ha | e He | R ev k Hk IH]; simpl.
  - apply Hf. exact Ha.
  - constructor. exact He.
  - constructor. exact IH.
Qed.

Lemma ends_try_catch {A : Type} (P : A -> Prop) (E E' : exn -> Prop)
    (p : Prog A) (h : exn -> Prog A) :
  ends P E p -> (forall e, E e -> ends P E' (h e)) -> ends P E' (try_catch p h).
Proof.
  intros Hp Hh. induction Hp as [a Ha | e He | R ev k Hk IH]; simpl.
  - constructor. exact Ha.
  - apply Hh. exact He.
  - constructor. exact IH.
Qed.

Lemma ends_await {R : Type} (E : exn -> Prop) (ev : Eff R) :
  (forall code msg, E (DbError code msg)) -> ends anything E (await ev).
Proof.
  intros HE. constructor. intros [v | e] Hr.
  - constructor. exact I.
  - destruct Hr as (_ & code & msg & ->). constructor. apply HE.
Qed.

Lemma no_conflict_DbError (code : Z) (msg : string) :
  no_conflict_thrown (DbError code msg).
Proof. intros m. discriminate. Qed.

Lemma ends_generateShortcode_from (n : nat) (out : string) :
  ends anything no_conflict_thrown (generateShortcode_from n out).
Proof.
  revert out. induction n as [| n IH]; intros out; cbn [generateShortcode_from].
  - constructor. exact I.
  - eapply ends_bind; [apply ends_await, no_conflict_DbError |].
    intros i _. apply IH.
Qed.

Lemma ends_generate_unique (k : nat) :
  ends anything no_conflict_thrown (generate_unique k).
Proof.
  induction k as [| k IH]; cbn [generate_unique].
  - constructor. intros m. discriminate.
  - eapply ends_bind; [apply ends_generateShortcode_from |].
    intros candidate _. destruct (isReserved candidate); [exact IH |].
    eapply ends_bind; [apply ends_await, no_conflict_DbError |].
    intros [d |] _; [exact IH | constructor; exact I].
Qed.

Lemma step_ends {A : Type} (P : A -> Prop) (E : exn -> Prop) (p : Prog A)
    (w : World) :
  ends P E p -> ends P E (step p w).2.
Proof.
  intros Hp. destruct Hp as [a Ha | e He | R ev k Hk]; cbn [step].
  - constructor. exact Ha.
  - constructor. exact He.
  - pose proof (perform_from_storage ev w) as Hr.
    destruct (perform ev w) as [w' r]. apply Hk. exact Hr.
Qed.

(** What holds of the ends of a request holds of them however the other
    requests of the pool are scheduled around it. *)
Lemma interleave_ends (P : Response -> Prop) (E : exn -> Prop)
    (sched : list Move) (pool : list (Prog Response)) (w : World) (i : nat)
    (p : Prog Response) :
  pool !! i = Some p -> ends P E p ->
  exists p', (interleave sched pool w).2 !! i = Some p' /\ ends P E p'.
Proof.
  revert pool w p. induction sched as [| m sched IH]; intros pool w p Hi Hp.
  - exists p. split; assumption.
  - destruct m as [j | dt]; cbn [interleave]; [| apply (IH _ _ p); assumption].
    destruct (pool !! j) as [q |] eqn:Hj; [| apply (IH _ _ p); assumption].
    pose proof (step_ends P E q w) as Hq.
    destruct (step q w) as [w' q']. cbn [snd] in Hq.
    destruct (decide (j = i)) as [-> | Hne].
    + apply (IH _ _ q').
      * apply list_lookup_insert_eq. apply lookup_lt_Some in Hi. exact Hi.
      * apply Hq. congruence.
    + apply (IH _ _ p); [| exact Hp].
      rewrite list_lookup_insert_ne by exact Hne. exact Hi.
Qed.

Section DuplicateKey.
Context `{Host}.

Lemma ends_save_retry (n : nat) (mk : string -> ShortUrl) (chosen : string)
    (last : option exn) :
  ends anything no_conflict_thrown (save_retry n mk chosen last).
Proof.
  revert chosen last. induction n as [| n IH]; intros chosen last;
    cbn [save_retry]; [constructor; exact I |].
  eapply (ends_bind anything).
  { constructor. intros r _. constructor. exact I. }
  intros [saved | e] _; [constructor; exact I |].
  destruct (bool_decide (exn_code e = Some 11000)); [| constructor; exact I].
  eapply ends_bind; [apply ends_await, no_conflict_DbError |]. intros u _.
  eapply ends_bind; [apply ends_generate_unique |].
  intros chosen' _. apply IH.
Qed.

Lemma ends_post_catch (e : exn) :
  no_conflict_thrown e -> ends not_conflict never (post_shorturls_catch e).
Proof.
  intros He. unfold post_shorturls_catch. constructor. intros r Hr.
  assert (Hint : not_conflict internal_error) by (intros body; discriminate).
  destruct r as [u | e']; [| destruct Hr as [Hr _]; discriminate Hr].
  cbn [bind].
  destruct e as [status message | code message]; [| constructor; exact Hint].
  destruct (negb (status =? 0)); constructor; [| exact Hint].
  intros body Heq. injection Heq as -> _. apply (He message). reflexivity.
Qed.

(** Once the shortcode is chosen, the request cannot end in a 409. *)
Lemma ends_create_with (req : Request) (url : string) (vm : Z)
    (chosen : string) :
  ends not_conflict never
    (try_catch (create_with req url vm chosen) post_shorturls_catch).
Proof.
  apply (ends_try_catch not_conflict no_conflict_thrown);
    [| intros e He; apply ends_post_catch; exact He].
  unfold create_with.
  eapply ends_bind; [apply ends_await, no_conflict_DbError |].
  intros now _. unfold create_at. cbv zeta.
  assert (Hint : not_conflict internal_error) by (intros body; discriminate).
  destruct (valid_time (now + vm * 60000)).
  - eapply ends_bind; [apply ends_save_retry |].
    intros [[[saved |] chosen'] last] _;
      (eapply ends_bind; [apply ends_await, no_conflict_DbError |]);
      intros u _; constructor; [intros body; discriminate | exact Hint].
  - eapply ends_bind; [apply ends_await, no_conflict_DbError |].
    intros u _. constructor. exact Hint.
Qed.

(** The handler of a request for a well-formed, non-reserved shortcode, once
    its existence check has found nothing. *)
Lemma resume_post_checked (req : Request) (url desired : string) (w0 : World) :
  body_url req = JString url ->
  nonempty url = true ->
  validator_isURL url = true ->
  body_shortcode req = JString desired ->
  shortcode_re desired = true ->
  isReserved desired = false ->
  faults w0 (calls w0) = None ->
  shortUrls w0 !! desired = None ->
  resume (post_shorturls req) w0
  = try_catch
      (create_with req url (validMinutes_of (body_validity req)) desired)
      post_shorturls_catch.
Proof.
  intros Hurl Hne Hvalid Hsc Hre Hres F0 Hfree.
  unfold resume, post_shorturls.
  rewrite (post_body_desired req url desired) by assumption.
  unfold makeUniqueShortcode.
  rewrite (shortcode_re_nonempty _ Hre), (shortcode_re_trim _ Hre), Hres.
  cbn [bind await try_catch step perform]. rewrite (storage_ok _ _ F0).
  cbn [shortUrls next_call snd]. rewrite Hfree. reflexivity.
Qed.

(** C2 (as the code has it). A request for a well-formed, non-reserved
    desired shortcode passes the existence check (in [w0]), resumes and
    reads the clock (in [w1]), and by the time its insert reaches storage
    (in [w]) another request has stored that shortcode: the unique index
    rejects the insert with code 11000.  The request is not answered 409.
    The handler logs the collision and asks the allocator for a generated
    shortcode; storage answering and no request interfering from then on,
    it inserts the link under the first of the next 8 drawn candidates that
    is neither reserved nor stored and answers 201 with that shortcode in
    place of the desired one, or answers 500 'unable to generate unique
    shortcode, try again' when none of the 8 is available.  And once the
    check has passed, no interleaving with other requests and no storage
    failure makes the request end in a 409: only the existence check
    answers Conflict. *)
Theorem duplicate_key_falls_back (req : Request) (url desired : string)
    (w0 w1 w : World) (d : ShortUrl) :
  body_url req = JString url ->
  nonempty url = true ->
  validator_isURL url = true ->
  body_shortcode req = JString desired ->
  shortcode_re desired = true ->
  isReserved desired = false ->
  faults w0 (calls w0) = None ->
  shortUrls w0 !! desired = None ->
  valid_time (clock w1 + validMinutes_of (body_validity req) * 60000) = true ->
  shortUrls w !! desired = Some d ->
  no_faults w ->
  let vm := validMinutes_of (body_validity req) in
  let expiry := clock w1 + vm * 60000 in
  let checked := resume (post_shorturls req) w0 in
  let r := run (resume checked w1) w in
  let collision :=
    (LWarn, "Duplicate key on save - shortcode collision, regenerating") in
  match list_find (available w) (candidates w 8) with
  | Some (_, c) =>
      r.2 = Ok (Json 201 (CreatedBody (base_of req ++ "/" ++ c) expiry))
      /\ shortUrls r.1
         = <[c := new_ShortUrl req url (clock w1) expiry vm c]> (shortUrls w)
      /\ logs r.1 = (logs w ++ [collision; (LInfo, "Shortlink created")])%list
  | None =>
      r.2 = Ok (Json 500
                  (ErrorBody "unable to generate unique shortcode, try again"))
      /\ shortUrls r.1 = shortUrls w
      /\ logs r.1
         = (logs w ++ [collision; (LError, "create shorturl error")])%list
  end
  /\ forall (sched : list Move) (pool : list (Prog Response)) (i : nat)
       (w' : World) (resp : Response),
       pool !! i = Some checked ->
       (interleave sched pool w').2 !! i = Some (Ret resp) ->
       forall body : Body, resp <> Json 409 body.
Proof.
  intros Hurl Hne Hvalid Hsc Hre Hres F0 Hfree0 Hdate Hd Hn
    vm expiry checked r collision.
  assert (Hchecked : checked
                     = try_catch (create_with req url vm desired)
                         post_shorturls_catch)
    by (apply resume_post_checked; assumption).
  split.
  2: { intros sched pool i w' resp Hi Hend.
       destruct (interleave_ends not_conflict never sched pool w' i checked Hi)
         as (p' & Hp' & Hends).
       { rewrite Hchecked. apply ends_create_with. }
       rewrite Hp' in Hend. injection Hend as ->.
       inversion Hends as [a Ha | |]; subst. exact Ha. }
  assert (Hresumed : resume checked w1
                     = try_catch (create_at req url vm (clock w1) desired)
                         post_shorturls_catch)
    by (rewrite Hchecked; reflexivity).
  set (w2 := add_log collision (next_call w)).
  assert (Hn2 : no_faults w2)
    by (intros n Hle; apply Hn; simpl in Hle; lia).
  destruct (run_generate_unique 8 w2 Hn2)
    as (Hs & _ & _ & Hf & _ & Hcalls & Hfind).
  pose proof (generate_unique_logs 8 w2) as Hlogs.
  change (available w2) with (available w) in Hfind.
  change (candidates w2 8) with (candidates w 8) in Hfind.
  change (shortUrls w2) with (shortUrls w) in Hs.
  change (faults w2) with (faults w) in Hf.
  change (calls w2) with (S (calls w)) in Hcalls.
  change (logs w2) with (logs w ++ [collision])%list in Hlogs.
  destruct (run (generate_unique 8) w2) as [w3 res] eqn:Hgen.
  cbn [fst snd] in Hs, Hf, Hcalls, Hfind, Hlogs.
  assert (Hrun : r =
    match res with
    | Ok c =>
        run (try_catch
               (let* r := save_retry 4
                            (new_ShortUrl req url (clock w1) expiry vm) c
                            (Some E11000) in
                match r with
                | (None, _, _) =>
                    let* _ := await (Log LError
                                       "Failed to save ShortUrl after retries") in
                    Ret internal_error
                | (Some _, chosen', _) =>
                    let* _ := await (Log LInfo "Shortlink created") in
                    Ret (Json 201
                           (CreatedBody (base_of req ++ "/" ++ chosen') expiry))
                end)
               post_shorturls_catch) w3
    | Err e => run (post_shorturls_catch e) w3
    end).
  { assert (Hdate' : valid_time expiry = true) by exact Hdate.
    subst r. rewrite Hresumed. unfold create_at. cbv zeta. fold expiry.
    rewrite Hdate'.
    rewrite run_try_catch, run_bind, save_retry_S, run_bind.
    unfold attempt. cbn [run perform].
    rewrite (storage_ok w _ (no_faults_now w Hn)).
    cbn [shortUrls next_call shortcode new_ShortUrl]. rewrite Hd.
    unfold E11000 at 1. cbn [exn_code]. rewrite bool_decide_true by reflexivity.
    rewrite run_bind, run_await. cbn [perform]. fold collision. fold w2.
    rewrite run_bind. cbn [makeUniqueShortcode]. rewrite Hgen.
    destruct res as [c | e]; [| reflexivity].
    rewrite run_try_catch, run_bind. reflexivity. }
  destruct (list_find (available w) (candidates w 8)) as [[i c] |] eqn:Hlf.
  - destruct Hfind as [-> _].
    apply list_find_Some in Hlf. destruct Hlf as (_ & Hav & _).
    apply Is_true_true in Hav. unfold available in Hav.
    apply andb_true_iff in Hav. destruct Hav as [_ Hav].
    apply bool_decide_eq_true in Hav.
    rewrite run_try_catch, run_bind, run_save_retry_ok in Hrun;
      [| rewrite Hf; apply Hn; lia
       | cbn [shortcode new_ShortUrl]; rewrite Hs; exact Hav ].
    cbn [shortcode new_ShortUrl] in Hrun.
    rewrite Hrun.
    cbn [run bind await perform fst snd shortUrls logs add_log set_shortUrls
         next_call].
    rewrite Hs, Hlogs, <- app_assoc. repeat split; reflexivity.
  - destruct Hfind as [-> _]. rewrite Hrun. unfold post_shorturls_catch, exhausted.
    cbn [run bind await perform fst snd shortUrls logs add_log Z.eqb negb].
    rewrite Hlogs, <- app_assoc.
    split; [reflexivity | split; [exact Hs | reflexivity]].
Qed.

End DuplicateKey.

(** Two requests for "promo1" on an empty store.  The second passes its
    existence check and reads the clock, then the first runs to its end;
    the second's insert is rejected by the unique index and "ABCDEF" is
    created in its place. *)
Lemma duplicate_key_falls_back_witness :
  let req := with_shortcode (JString "promo1") sample_request in
  let w0 := fresh 1000 (fun n => n) in
  let w := (run (@post_shorturls sample_host req) (next_call w0)).1 in
  let r := run (resume (resume (@post_shorturls sample_host req) w0) w0) w in
  (exists d, shortUrls w !! "promo1" = Some d)
  /\ r.2 = Ok (Json 201 (CreatedBody "http://localhost:4000/ABCDEF" 1801000))
  /\ logs r.1
     = [(LInfo, "Shortlink created");
        (LWarn, "Duplicate key on save - shortcode collision, regenerating");
        (LInfo, "Shortlink created")].
Proof.
  intros req w0 w r.
  assert (Hd : exists d, shortUrls w !! "promo1" = Some d)
    by (vm_compute; eauto).
  split; [exact Hd |]. destruct Hd as [d Hd].
  destruct (@duplicate_key_falls_back sample_host req
              "https://example.com" "promo1" w0 w0 w d)
    as [Hfall _].
  - reflexivity.
  - reflexivity.
  - vm_compute. reflexivity.
  - reflexivity.
  - vm_compute. reflexivity.
  - vm_compute. reflexivity.
  - reflexivity.
  - vm_compute. reflexivity.
  - vm_compute. reflexivity.
  - exact Hd.
  - intros n _. reflexivity.
  - assert (Hfind : list_find (available w) (candidates w 8)
                    = Some (0%nat, "ABCDEF"))
      by (vm_compute; reflexivity).
    cbv zeta in Hfall. rewrite Hfind in Hfall.
    destruct Hfall as (Hr & _ & Hl). split; [exact Hr |].
    unfold r. rewrite Hl. vm_compute. reflexivity.
Defined.

(** Two callers ask for "promo9" at once.  Both existence checks run before
    either insert; the first insert wins, the second is rejected by the
    unique index, and the second caller is answered 201 with the generated
    "ABCDEF" instead of 409. *)
Lemma duplicate_key_not_conflict :
  let req := with_shortcode (JString "promo9") sample_request in
  let pool := [@post_shorturls sample_host req; @post_shorturls sample_host req] in
  let sched := ([Run 0; Run 1; Run 0; Run 0; Run 0] ++ repeat (Run 1) 12)%list in
  let r := interleave sched pool (fresh 1000 (fun n => n)) in
  r.2 = [Ret (Json 201 (CreatedBody "http://localhost:4000/promo9" 1801000));
         Ret (Json 201 (CreatedBody "http://localhost:4000/ABCDEF" 1801000))]
  /\ logs r.1
     = [(LInfo, "Shortlink created");
        (LWarn, "Duplicate key on save - shortcode collision, regenerating");
        (LInfo, "Shortlink created")].
Proof. vm_compute. split; reflexivity. Qed.

(** ** Click counters under interleaving *)

Section Licences.
Variable sc : string.

Lemma licensed_bind {A B : Type} (c : nat) (p : Prog A) (f : A -> Prog B) :
  licensed sc c p ->
  (forall (a : A) (c' : nat), licensed sc c' (f a)) ->
  licensed sc c (bind p f).
Proof.
  intros Hp Hf. induction Hp; simpl; try (constructor; solve [auto]); auto.
Qed.

Lemma licensed_try_catch {A : Type} (c : nat) (p : Prog A)
    (h : exn -> Prog A) :
  licensed sc c p ->
  (forall (e : exn) (c' : nat), licensed sc c' (h e)) ->
  licensed sc c (try_catch p h).
Proof.
  intros Hp Hh. induction Hp; simpl; try (constructor; solve [auto]); auto.
Qed.

Lemma licensed_await {R : Type} (ev : Eff R) (c : nat) :
  quiet_event ev = true -> licensed sc c (await ev).
Proof.
  destruct ev; intros Hq; try discriminate Hq;
    constructor; intros [v | e]; constructor.
Qed.

(** Builds the licence of a program made of reads, logs and draws. *)
Ltac quiet :=
  repeat first
    [ apply lic_Ret | apply lic_Throw
    | apply licensed_bind; [apply licensed_await; reflexivity | intros ? ?] ].

Lemma licensed_generateShortcode_from (n c : nat) (out : string) :
  licensed sc c (generateShortcode_from n out).
Proof.
  revert c out. induction n as [| n IH]; intros c out;
    cbn [generateShortcode_from]; quiet. apply IH.
Qed.

Lemma licensed_generate_unique (k c : nat) : licensed sc c (generate_unique k).
Proof.
  revert c. induction k as [| k IH]; intros c; cbn [generate_unique];
    [apply lic_Throw |].
  apply licensed_bind; [apply licensed_generateShortcode_from |].
  intros candidate c'. destruct (isReserved candidate); [apply IH |].
  quiet.
  match goal with |- licensed _ _ (match ?o with _ => _ end) =>
    destruct o end; quiet. apply IH.
Qed.

Lemma licensed_makeUniqueShortcode (desired : option string) (c : nat) :
  licensed sc c (makeUniqueShortcode desired).
Proof.
  unfold makeUniqueShortcode.
  destruct desired as [d |]; [| apply licensed_generate_unique].
  destruct (nonempty d); [| apply licensed_generate_unique].
  destruct (isReserved (trim d)); quiet.
  match goal with |- licensed _ _ (match ?o with _ => _ end) =>
    destruct o end; quiet.
Qed.

Lemma licensed_get_stats (req : Request) (c : nat) :
  licensed sc c (get_stats req).
Proof.
  unfold get_stats. apply licensed_try_catch; [| intros e c'; quiet].
  cbv zeta. quiet.
  match goal with |- licensed _ _ (match ?o with _ => _ end) =>
    destruct o end; quiet.
Qed.

(** The redirect handler appends its click before it increments, so it
    needs no licence to start with. *)
Lemma licensed_get_redirect (req : Request) (c : nat) :
  licensed sc c (get_redirect req).
Proof.
  unfold get_redirect. apply licensed_try_catch; [| intros e c'; quiet].
  cbv zeta. destruct (isReserved (param_shortcode req)); quiet.
  match goal with |- licensed _ _ (match ?o with _ => _ end) =>
    destruct o as [d |] end; quiet.
  match goal with |- licensed _ _ (if ?b then _ else _) =>
    destruct b end; quiet.
  cbn [bind await].
  destruct (decide (param_shortcode req = sc)) as [Heq | Hne].
  - apply lic_SaveClick; [exact Heq | intros e; apply lic_Throw |].
    rewrite Heq. cbn [bind]. apply lic_Inc; [intros e; apply lic_Throw |].
    cbn [bind]. apply lic_Log. intros [[] | e]; cbn [bind]; quiet.
  - apply lic_SaveClick_other; [exact Hne |].
    intros [[] | e]; cbn [bind]; quiet.
    apply lic_Inc_other; [exact Hne |].
    intros [[] | e]; cbn [bind]; quiet.
    apply lic_Log. intros [[] | e]; cbn [bind]; quiet.
Qed.

Section Create.
Context `{Host}.

Lemma licensed_save_retry (n c : nat) (mk : string -> ShortUrl)
    (chosen : string) (last : option exn) :
  (forall s, clicksCount (mk s) = 0) ->
  licensed sc c (save_retry n mk chosen last).
Proof.
  intros Hmk. revert c chosen last.
  induction n as [| n IH]; intros c chosen last; cbn [save_retry]; quiet.
  apply licensed_bind.
  { apply lic_SaveShortUrl; [apply Hmk |]. intros r. apply lic_Ret. }
  intros [saved | e] c'; quiet.
  destruct (bool_decide (exn_code e = Some 11000)); quiet.
  apply licensed_bind; [apply licensed_makeUniqueShortcode |].
  intros chosen' c''. apply IH.
Qed.

Lemma licensed_create_with (req : Request) (url : string) (vm : Z)
    (chosen : string) (c : nat) :
  licensed sc c (create_with req url vm chosen).
Proof.
  unfold create_with. quiet. unfold create_at. cbv zeta.
  match goal with |- licensed _ _ (if ?b then _ else _) =>
    destruct b end; quiet.
  apply licensed_bind; [apply licensed_save_retry; reflexivity |].
  intros [[[saved |] chosen'] last] c''; quiet.
Qed.

Lemma licensed_post_shorturls (req : Request) (c : nat) :
  licensed sc c (post_shorturls req).
Proof.
  unfold post_shorturls. apply licensed_try_catch.
  - unfold post_shorturls_body.
    destruct (body_url req) as [| | b | n | url | prim]; quiet.
    destruct (negb (nonempty url)); quiet.
    destruct (negb (isValidUrl (JString url))); quiet.
    cbv zeta.
    destruct (validMinutes_of (body_validity req) <=? 0); quiet.
    destruct (truthy (body_shortcode req)).
    + destruct (normalizeShortcode (body_shortcode req)); quiet.
      apply licensed_bind; [apply licensed_makeUniqueShortcode |].
      intros chosen c'. apply licensed_create_with.
    + apply licensed_bind; [apply licensed_makeUniqueShortcode |].
      intros chosen c'. apply licensed_create_with.
  - intros e c'. unfold post_shorturls_catch. quiet.
    destruct e as [status message | code message]; quiet.
    destruct (negb (status =? 0)); quiet.
Qed.

Lemma licensed_handler (p : Prog Response) (c : nat) :
  is_handler p -> licensed sc c p.
Proof.
  intros [req | req | req].
  - apply licensed_post_shorturls.
  - apply licensed_get_stats.
  - apply licensed_get_redirect.
Qed.

End Create.

End Licences.

Lemma recorded_append (sc : string) (l : list Click) (cl : Click) :
  Z.of_nat (List.length (clicks_of sc (l ++ [cl])%list))
  = Z.of_nat (List.length (clicks_of sc l))
    + (if decide (click_shortcode cl = sc) then 1 else 0).
Proof.
  unfold clicks_of. rewrite filter_app, length_app, filter_cons, filter_nil.
  destruct (decide (click_shortcode cl = sc)); simpl; lia.
Qed.

Lemma sum_list_insert (cs : list nat) (i c c' : nat) :
  cs !! i = Some c ->
  (sum_list (<[i := c']> cs) + c = sum_list cs + c')%nat.
Proof.
  revert i. induction cs as [| x cs IH]; intros i Hi; [discriminate Hi |].
  destruct i as [| i]; simpl in *.
  - injection Hi as ->. lia.
  - specialize (IH i Hi). lia.
Qed.

(** One step of a licensed program keeps
    [counter + licences - recorded] from growing. *)
Lemma step_licensed {A : Type} (sc : string) (c : nat) (p : Prog A) (w : World) :
  licensed sc c p ->
  exists c' : nat,
    licensed sc c' (step p w).2
    /\ counter sc (step p w).1 + Z.of_nat c' - recorded sc (step p w).1
       <= counter sc w + Z.of_nat c - recorded sc w.
Proof.
  intros Hlic.
  destruct Hlic as [c a | c e | c s k Hk | c doc k Hdoc Hk | c s k Hne Hk
                   | c k Herr Hok | c cl k Hne Hk | c cl k Heq Herr Hok
                   | c s k Hk | c k Hk | c n k Hk | c lvl msg k Hk];
    cbn [step perform]; unfold storage;
    try match goal with
        | |- context [faults w (calls w)] =>
            destruct (faults w (calls w)) as [[code msg'] |]
        end;
    cbn [fst snd].
  - exists c. split; [constructor | lia].
  - exists c. split; [constructor | lia].
  - exists c. split; [apply Hk | unfold counter, recorded; simpl; lia].
  - exists c. split; [apply Hk | unfold counter, recorded; simpl; lia].
  - exists c. split; [apply Hk | unfold counter, recorded; simpl; lia].
  - (* insert of a new document *)
    cbn [shortUrls next_call].
    destruct (shortUrls w !! shortcode doc) as [old |] eqn:Hold; cbn [fst snd].
    + exists c. split; [apply Hk | unfold counter, recorded; simpl; lia].
    + exists c. split; [apply Hk |].
      unfold counter, recorded. cbn [shortUrls clicks set_shortUrls next_call].
      destruct (decide (shortcode doc = sc)) as [<- | Hother].
      * rewrite lookup_insert_eq, Hold. simpl. lia.
      * rewrite lookup_insert_ne by exact Hother. lia.
  - exists c. split; [apply Hk | unfold counter, recorded; simpl; lia].
  - (* increment of another shortcode *)
    exists c. split; [apply Hk |].
    unfold counter, recorded. cbn [shortUrls clicks set_shortUrls next_call].
    rewrite lookup_alter_ne by exact Hne. lia.
  - exists (S c). split; [apply Herr | unfold counter, recorded; simpl; lia].
  - (* increment of [sc]: one licence is spent *)
    exists c. split; [exact Hok |].
    unfold counter, recorded. cbn [shortUrls clicks set_shortUrls next_call].
    rewrite lookup_alter_eq.
    destruct (shortUrls w !! sc) as [d |]; simpl; lia.
  - exists c. split; [apply Hk | unfold counter, recorded; simpl; lia].
  - (* click for another shortcode *)
    exists c. split; [apply Hk |].
    unfold counter, recorded. cbn [shortUrls clicks set_clicks next_call].
    rewrite recorded_append, decide_False by exact Hne. lia.
  - exists c. split; [apply Herr | unfold counter, recorded; simpl; lia].
  - (* click for [sc]: one licence is earned *)
    exists (S c). split; [exact Hok |].
    unfold counter, recorded. cbn [shortUrls clicks set_clicks next_call].
    rewrite recorded_append, decide_True by exact Heq. lia.
  - exists c. split; [apply Hk | unfold counter, recorded; simpl; lia].
  - exists c. split; [apply Hk | unfold counter, recorded; simpl; lia].
  - exists c. split; [apply Hk | unfold counter, recorded; simpl; lia].
  - exists c. split; [apply Hk | unfold counter, recorded; simpl; lia].
  - exists c. split; [apply Hk | unfold counter, recorded; simpl; lia].
Qed.

(** The invariant of a pool of in-flight requests: the counter of [sc] plus
    the licences the requests hold does not exceed the clicks recorded for
    [sc]. *)
Lemma interleave_licensed (sc : string) (sched : list Move)
    (pool : list (Prog Response)) (cs : list nat) (w : World) :
  Forall2 (licensed sc) cs pool ->
  counter sc w + Z.of_nat (sum_list cs) <= recorded sc w ->
  counter sc (interleave sched pool w).1 <= recorded sc (interleave sched pool w).1.
Proof.
  revert pool cs w. induction sched as [| m sched IH]; intros pool cs w Hall Hinv.
  - simpl. lia.
  - destruct m as [i | dt]; cbn [interleave].
    + destruct (pool !! i) as [p |] eqn:Hp; [| apply (IH pool cs w Hall Hinv)].
      destruct (Forall2_lookup_r _ _ _ _ _ Hall Hp) as (c & Hc & Hlic).
      destruct (step_licensed sc c p w Hlic) as (c' & Hlic' & Hstep).
      destruct (step p w) as [w' p'] eqn:Hst. cbn [fst snd] in Hlic', Hstep.
      apply (IH (<[i := p']> pool) (<[i := c']> cs) w').
      * apply Forall2_insert; assumption.
      * pose proof (sum_list_insert cs i c c' Hc) as Hsum. lia.
    + apply (IH pool cs). { exact Hall. }
      unfold counter, recorded in *. simpl. exact Hinv.
Qed.

Section CounterConsistency.
Context `{Host}.

(** C7. The redirect handler appends the click before it issues the
    increment, so however the handlers of concurrent requests are
    interleaved at their storage calls, however many of them are
    interrupted part-way (between the two writes included), whichever calls
    storage rejects and however much time passes, no stored [clicksCount]
    ever exceeds the number of click documents for its shortcode. *)
Theorem counter_never_ahead (pool : list (Prog Response)) (w : World)
    (sched : list Move) :
  Forall is_handler pool ->
  counts_ok w ->
  counts_ok (interleave sched pool w).1.
Proof.
  intros Hpool Hok sc d Hd.
  assert (Hinv : counter sc (interleave sched pool w).1
                 <= recorded sc (interleave sched pool w).1).
  { apply (interleave_licensed sc sched pool
             (replicate (List.length pool) 0%nat) w).
    - apply Forall2_replicate_l; [reflexivity |].
      eapply Forall_impl; [exact Hpool |].
      intros p Hp. eapply licensed_handler. exact Hp.
    - rewrite sum_list_replicate. unfold counter.
      destruct (shortUrls w !! sc) as [d0 |] eqn:Hd0; simpl.
      + specialize (Hok sc d0 Hd0). lia.
      + unfold recorded. lia. }
  unfold counter in Hinv. rewrite Hd in Hinv. exact Hinv.
Qed.

End CounterConsistency.

(** Two redirects of "promo1" in flight; the first is interrupted after its
    click append and before its increment, the second has only looked the
    link up: one click is recorded and the counter still reads 0. *)
Lemma counter_never_ahead_witness :
  let pool := [get_redirect (with_param "promo1" sample_request);
               get_redirect (with_param "promo1" sample_request)] in
  let sched := [Run 0; Run 1; Run 0; Elapse 5; Run 0; Run 0] in
  let w := (interleave sched pool (sample_world 5000 no_fault)).1 in
  counts_ok w /\ recorded "promo1" w = 1 /\ counter "promo1" w = 0.
Proof.
  intros pool sched w. split; [| vm_compute; split; reflexivity].
  apply (@counter_never_ahead sample_host pool (sample_world 5000 no_fault) sched).
  - repeat constructor.
  - intros sc d Hd. cbn [shortUrls sample_world] in Hd.
    apply lookup_singleton_Some in Hd. destruct Hd as [<- <-].
    vm_compute. discriminate.
Defined.

(** ** Reserved names never reach storage *)

Lemma always_bind {A B : Type} (Q : forall R : Type, Eff R -> Prop)
    (P : A -> Prop) (P' : B -> Prop) (p : Prog A) (f : A -> Prog B) :
  always Q P p ->
  (forall a : A, P a -> always Q P' (f a)) ->
  always Q P' (bind p f).
Proof.
  intros Hp Hf. induction Hp as [a Ha | e | R ev k Hev Hk IH]; simpl.
  - apply Hf. exact Ha.
  - constructor.
  - constructor; [exact Hev | exact IH].
Qed.

Lemma always_try_catch {A : Type} (Q : forall R : Type, Eff R -> Prop)
    (P : A -> Prop) (p : Prog A) (h : exn -> Prog A) :
  always Q P p ->
  (forall e : exn, always Q P (h e)) ->
  always Q P (try_catch p h).
Proof.
  intros Hp Hh. induction Hp as [a Ha | e | R ev k Hev Hk IH]; simpl.
  - constructor. exact Ha.
  - apply Hh.
  - constructor; [exact Hev | exact IH].
Qed.

Lemma always_await {R : Type} (ev : Eff R) :
  unreserved_insert R ev ->
  always unreserved_insert (fun _ : R => True) (await ev).
Proof.
  intros Hev. constructor; [exact Hev |]. intros [v | e]; constructor. exact I.
Qed.

Lemma always_generateShortcode_from (n : nat) (out : string) :
  always unreserved_insert anything (generateShortcode_from n out).
Proof.
  revert out. induction n as [| n IH]; intros out; cbn [generateShortcode_from].
  - constructor. exact I.
  - eapply always_bind; [apply always_await; exact I |]. intros i _. apply IH.
Qed.

Lemma always_generate_unique (k : nat) :
  always unreserved_insert not_reserved (generate_unique k).
Proof.
  induction k as [| k IH]; cbn [generate_unique]; [constructor |].
  eapply always_bind; [apply always_generateShortcode_from |].
  intros candidate _. destruct (isReserved candidate) eqn:Hres; [exact IH |].
  eapply always_bind; [apply always_await; exact I |].
  intros [d |] _; [exact IH | constructor; exact Hres].
Qed.

Lemma always_makeUniqueShortcode (desired : option string) :
  always unreserved_insert not_reserved (makeUniqueShortcode desired).
Proof.
  unfold makeUniqueShortcode.
  destruct desired as [d |]; [| apply always_generate_unique].
  destruct (nonempty d); [| apply always_generate_unique].
  destruct (isReserved (trim d)) eqn:Hres; [constructor |].
  eapply always_bind; [apply always_await; exact I |].
  intros [old |] _; constructor. exact Hres.
Qed.

Lemma always_get_stats (req : Request) :
  always unreserved_insert anything (get_stats req).
Proof.
  unfold get_stats. apply always_try_catch.
  - cbv zeta. eapply always_bind; [apply always_await; exact I |].
    intros [d |] _.
    + eapply always_bind; [apply always_await; exact I |].
      intros l _. constructor. exact I.
    + eapply always_bind; [apply always_await; exact I |].
      intros u _. constructor. exact I.
  - intros e. eapply always_bind; [apply always_await; exact I |].
    intros u _. constructor. exact I.
Qed.

Lemma always_get_redirect (req : Request) :
  always unreserved_insert anything (get_redirect req).
Proof.
  unfold get_redirect. apply always_try_catch.
  - cbv zeta. destruct (isReserved (param_shortcode req)).
    + eapply always_bind; [apply always_await; exact I |].
      intros u _. constructor. exact I.
    + eapply always_bind; [apply always_await; exact I |].
      intros [d |] _;
        (eapply always_bind; [apply always_await; exact I |]);
        [intros now _ | intros u _; constructor; exact I].
      destruct (expiryAt d <? now);
        repeat (eapply always_bind; [apply always_await; exact I |]; intros ? _);
        constructor; exact I.
  - intros e. eapply always_bind; [apply always_await; exact I |].
    intros u _. constructor. exact I.
Qed.

Section ReservedCreate.
Context `{Host}.

Lemma always_save_retry (n : nat) (mk : string -> ShortUrl) (chosen : string)
    (last : option exn) :
  (forall s, shortcode (mk s) = s) ->
  isReserved chosen = false ->
  always unreserved_insert anything (save_retry n mk chosen last).
Proof.
  intros Hmk. revert chosen last.
  induction n as [| n IH]; intros chosen last Hres; cbn [save_retry].
  - constructor. exact I.
  - eapply (always_bind _ anything).
    { constructor; [| intros r; constructor; exact I].
      cbn [unreserved_insert]. rewrite Hmk. exact Hres. }
    intros [saved | e] _; [constructor; exact I |].
    destruct (bool_decide (exn_code e = Some 11000)); [| constructor; exact I].
    eapply always_bind; [apply always_await; exact I |]. intros u _.
    eapply always_bind; [apply always_makeUniqueShortcode |].
    intros chosen' Hres'. apply IH. exact Hres'.
Qed.

Lemma always_create_with (req : Request) (url : string) (vm : Z)
    (chosen : string) :
  isReserved chosen = false ->
  always unreserved_insert anything (create_with req url vm chosen).
Proof.
  intros Hres. unfold create_with.
  eapply always_bind; [apply always_await; exact I |]. intros now _.
  unfold create_at. cbv zeta.
  destruct (valid_time (now + vm * 60000)).
  - eapply always_bind; [apply always_save_retry; [reflexivity | exact Hres] |].
    intros [[[saved |] chosen'] last] _;
      (eapply always_bind; [apply always_await; exact I |]);
      intros u _; constructor; exact I.
  - eapply always_bind; [apply always_await; exact I |].
    intros u _. constructor. exact I.
Qed.

Lemma always_post_shorturls (req : Request) :
  always unreserved_insert anything (post_shorturls req).
Proof.
  unfold post_shorturls. apply always_try_catch.
  - unfold post_shorturls_body.
    destruct (body_url req) as [| | b | n | url | prim];
      try (constructor; exact I).
    destruct (negb (nonempty url)); [constructor; exact I |].
    destruct (negb (isValidUrl (JString url))); [constructor; exact I |].
    cbv zeta.
    destruct (validMinutes_of (body_validity req) <=? 0);
      [constructor; exact I |].
    destruct (truthy (body_shortcode req)).
    + destruct (normalizeShortcode (body_shortcode req));
        [| constructor; exact I].
      eapply always_bind; [apply always_makeUniqueShortcode |].
      intros chosen Hres. apply always_create_with. exact Hres.
    + eapply always_bind; [apply always_makeUniqueShortcode |].
      intros chosen Hres. apply always_create_with. exact Hres.
  - intros e. unfold post_shorturls_catch.
    eapply always_bind; [apply always_await; exact I |]. intros u _.
    destruct e as [status message | code message]; [| constructor; exact I].
    destruct (negb (status =? 0)); constructor; exact I.
Qed.

Lemma always_handler (p : Prog Response) :
  is_handler p -> always unreserved_insert anything p.
Proof.
  intros [req | req | req].
  - apply always_post_shorturls.
  - apply always_get_stats.
  - apply always_get_redirect.
Qed.

End ReservedCreate.

Lemma step_unreserved {A : Type} (p : Prog A) (w : World) :
  always unreserved_insert anything p ->
  unreserved w ->
  always unreserved_insert anything (step p w).2 /\ unreserved (step p w).1.
Proof.
  intros Hp Hw. destruct Hp as [a Ha | e | R ev k Hev Hk]; cbn [step].
  - split; [constructor; exact Ha | exact Hw].
  - split; [constructor | exact Hw].
  - destruct (perform ev w) as [w' r] eqn:Hperf. cbn [fst snd].
    split; [apply Hk |].
    destruct ev as [s | doc | s | cl | s | | n | lvl msg];
      cbn [perform] in Hperf; unfold storage in Hperf;
      try (destruct (faults w (calls w)) as [[code msg'] |]);
      try (injection Hperf as <- _; exact Hw).
    + (* insert *)
      cbn [shortUrls next_call] in Hperf.
      destruct (shortUrls w !! shortcode doc) as [old |];
        injection Hperf as <- _; [exact Hw |].
      intros sc d. cbn [shortUrls set_shortUrls next_call].
      rewrite lookup_insert. destruct (decide (shortcode doc = sc)) as [<- | _].
      * intros _. exact Hev.
      * apply Hw.
    + (* increment *)
      injection Hperf as <- _. intros sc d.
      cbn [shortUrls set_shortUrls next_call]. intros Hd.
      apply lookup_alter_Some in Hd.
      destruct Hd as [(_ & d0 & Hd0 & _) | (_ & Hd0)]; apply (Hw sc _ Hd0).
Qed.

(** From a store without reserved keys, no interleaving of the service's
    handlers ever stores a document under a reserved name. *)
Lemma reserved_never_stored `{Host} (sched : list Move)
    (pool : list (Prog Response)) (w : World) :
  Forall is_handler pool ->
  unreserved w ->
  unreserved (interleave sched pool w).1.
Proof.
  intros Hpool.
  assert (Hall : Forall (always unreserved_insert anything) pool)
    by (eapply Forall_impl; [exact Hpool | intros p Hp; apply always_handler;
                                            exact Hp]).
  clear Hpool. revert pool w Hall.
  induction sched as [| m sched IH]; intros pool w Hall Hw; [exact Hw |].
  destruct m as [i | dt]; cbn [interleave].
  - destruct (pool !! i) as [p |] eqn:Hp; [| apply IH; assumption].
    pose proof (Forall_lookup_1 _ _ _ _ Hall Hp) as Hlic.
    destruct (step_unreserved p w Hlic Hw) as [Hp' Hw'].
    destruct (step p w) as [w' p']. cbn [fst snd] in Hp', Hw'.
    apply IH; [| exact Hw'].
    apply Forall_insert; assumption.
  - apply IH; [exact Hall |]. exact Hw.
Qed.

(** ** End-to-end runs *)

(** A one-minute link with a generated shortcode. *)
Example create_generated :
  (run (@post_shorturls sample_host
          (with_validity (JNumber (NInt 1)) sample_request))
       (fresh 1000 (fun n => n))).2
  = Ok (Json 201 (CreatedBody "http://localhost:4000/ABCDEF" 61000)).
Proof. vm_compute. reflexivity. Qed.

(** The same desired shortcode requested twice in a row: the second request
    is stopped by the existence check. *)
Example create_twice :
  let req := with_shortcode (JString "promo1") sample_request in
  let w1 := (run (@post_shorturls sample_host req) (fresh 1000 (fun n => n))).1 in
  (run (@post_shorturls sample_host req) w1).2
  = Ok (Json 409 (ErrorBody "shortcode already exists")).
Proof. vm_compute. reflexivity. Qed.

(** Three redirects of an active link with storage answering: three clicks
    recorded, counter at three. *)
Example three_redirects :
  let q := with_param "promo1" sample_request in
  let w1 := (run (get_redirect q) (sample_world 5000 no_fault)).1 in
  let w2 := (run (get_redirect q) w1).1 in
  let w3 := (run (get_redirect q) w2).1 in
  counter "promo1" w3 = 3 /\ recorded "promo1" w3 = 3.
Proof. vm_compute. split; reflexivity. Qed.

(** A validity of 144000000000 minutes puts the expiry beyond the range of
    [Date]: nothing is stored and the answer is 500. *)
Example create_beyond_date_range :
  let r := run (@post_shorturls sample_host
                  (with_validity (JNumber (NInt 144000000000)) sample_request))
               (fresh 1700000000000 (fun n => n)) in
  r.2 = Ok (Json 500 (ErrorBody "internal server error"))
  /\ shortUrls r.1 = ∅.
Proof. vm_compute. split; reflexivity. Qed.

(** A desired shortcode behind a no-break space is trimmed and created. *)
Example create_padded_beyond_ascii :
  (run (@post_shorturls sample_host
          (with_shortcode (JString (utf8 [194; 160] ++ "promo3")) sample_request))
       (fresh 1000 (fun n => n))).2
  = Ok (Json 201 (CreatedBody "http://localhost:4000/promo3" 1801000)).
Proof. vm_compute. reflexivity. Qed.

(** A reserved name that the draw sequence can spell is never stored by a
    creation request: "HEALTH" is drawn first and passed over. *)
Example create_skips_reserved :
  (run (@post_shorturls sample_host sample_request)
       (fresh 1000 (fun n => nth n [7; 4; 0; 11; 19; 7]%nat 0%nat))).2
  = Ok (Json 201 (CreatedBody "http://localhost:4000/AAAAAA" 1801000)).
Proof. vm_compute. reflexivity. Qed.

(** * Further properties of the service *)

(** ** The codec *)

Lemma length_append (a b : string) :
  String.length (a ++ b) = (String.length a + String.length b)%nat.
Proof.
  induction a as [| x a IH]; [reflexivity |].
  change (S (String.length (a ++ b)) = S (String.length a + String.length b)).
  f_equal. exact IH.
Qed.

Lemma all_chars_append (f : ascii -> bool) (a b : string) :
  all_chars f (a ++ b) = all_chars f a && all_chars f b.
Proof.
  induction a as [| x a IH]; [reflexivity |].
  change (f x && all_chars f (a ++ b) = f x && all_chars f a && all_chars f b).
  rewrite IH. apply andb_assoc.
Qed.

Lemma blank_spaces (post : string) :
  all_chars is_space post = true -> blank post = true.
Proof.
  induction post as [| c post IH]; [reflexivity |]. cbn [all_chars].
  intros Hc. apply andb_true_iff in Hc. destruct Hc as [Hc Hpost].
  cbn [blank]. rewrite Hc. apply IH. exact Hpost.
Qed.

Lemma trimStart_blank (pre s : string) :
  blank pre = true -> trimStart (pre ++ s) = trimStart s.
Proof.
  induction pre as [pre IH] using string_length_ind.
  destruct pre as [| c1 pre1]; [reflexivity |].
  change (String c1 pre1 ++ s) with (String c1 (pre1 ++ s)).
  cbn [blank trimStart].
  destruct (is_space c1); [intros Hb; apply IH; [simpl; lia | exact Hb] |].
  destruct pre1 as [| c2 pre2]; [discriminate |].
  change (String c2 pre2 ++ s) with (String c2 (pre2 ++ s)). cbv iota.
  destruct (is_space2 c1 c2); [intros Hb; apply IH; [simpl; lia | exact Hb] |].
  destruct pre2 as [| c3 pre3]; [discriminate |].
  change (String c3 pre3 ++ s) with (String c3 (pre3 ++ s)). cbv iota.
  destruct (is_space3 c1 c2 c3); [| discriminate].
  intros Hb. apply IH; [simpl; lia | exact Hb].
Qed.

Lemma trimEnd_blank (s post : string) :
  all_chars plain s = true -> blank post = true -> trimEnd (s ++ post) = s.
Proof.
  intros Hs Hpost. induction s as [| c s IH].
  - change ("" ++ post) with post. destruct post as [| c post]; [reflexivity |].
    cbn [trimEnd]. rewrite Hpost. reflexivity.
  - cbn [all_chars] in Hs. apply andb_true_iff in Hs. destruct Hs as [Hc Hs].
    change (trimEnd (String c (s ++ post)) = String c s). cbn [trimEnd].
    rewrite (blank_plain c _ Hc), (IH Hs). reflexivity.
Qed.


(** X1. Whatever value the body carries, a shortcode [normalizeShortcode]
    lets through is the trimmed input string, matches
    [/^[A-Za-z0-9_-]{3,30}$/], and is a fixed point: normalizing it again
    returns it unchanged. *)
Theorem normalizeShortcode_idempotent (v : jsval) (c : string) :
  normalizeShortcode v = Some c ->
  (exists s : string, v = JString s /\ c = trim s)
  /\ shortcode_re c = true
  /\ (3 <= String.length c <= 30)%nat
  /\ normalizeShortcode (JString c) = Some c.
Proof.
  unfold normalizeShortcode at 1. intros Hn.
  destruct v as [| | b | n | s | prim];
    try (destruct (negb (truthy _) || negb (is_string _)); discriminate Hn).
  destruct (negb (truthy (JString s)) || negb (is_string (JString s)));
    [discriminate Hn |].
  destruct (shortcode_re (trim s)) eqn:Hre; [| discriminate Hn].
  cbn [negb] in Hn. injection Hn as <-.
  split; [exists s; split; reflexivity |]. split; [exact Hre |]. split.
  - unfold shortcode_re in Hre.
    apply andb_true_iff in Hre. destruct Hre as [Hre Hhi].
    apply andb_true_iff in Hre. destruct Hre as [_ Hlo].
    apply Nat.leb_le in Hlo, Hhi. lia.
  - unfold normalizeShortcode. cbn [truthy is_string].
    rewrite (shortcode_re_nonempty _ Hre), (shortcode_re_trim _ Hre), Hre.
    reflexivity.
Qed.

Lemma normalizeShortcode_idempotent_witness :
  normalizeShortcode (JString "  my-Code_1 ") = Some "my-Code_1"
  /\ normalizeShortcode (JString "my-Code_1") = Some "my-Code_1".
Proof.
  split; [reflexivity |].
  apply (normalizeShortcode_idempotent (JString "  my-Code_1 ") "my-Code_1").
  reflexivity.
Defined.

(** X2. White space around a well-formed shortcode is dropped: padded on
    either side with any run of white space (TAB, LF, VT, FF, CR, SPACE, or
    the white space and line terminators beyond ASCII), the shortcode is
    accepted and returned bare. *)
Theorem normalizeShortcode_strips_padding (pre s post : string) :
  blank pre = true ->
  blank post = true ->
  shortcode_re s = true ->
  normalizeShortcode (JString (pre ++ s ++ post)) = Some s.
Proof.
  intros Hpre Hpost Hre.
  assert (Htrim : trim (pre ++ s ++ post) = s).
  { unfold trim. rewrite (trimStart_blank pre _ Hpre).
    assert (Hs : trimStart (s ++ post) = s ++ post).
    { pose proof (shortcode_re_chars s Hre) as Hc.
      pose proof (shortcode_re_nonempty s Hre) as Hne.
      destruct s as [| c s]; [discriminate Hne |].
      change (trimStart (String c (s ++ post)) = String c (s ++ post)).
      cbn [all_chars] in Hc. apply andb_true_iff in Hc. destruct Hc as [Hc _].
      apply trimStart_plain, code_char_plain. exact Hc. }
    rewrite Hs. apply trimEnd_blank; [| exact Hpost].
    apply (all_chars_impl code_char plain _ code_char_plain).
    apply shortcode_re_chars. exact Hre. }
  unfold normalizeShortcode. cbn [truthy is_string].
  assert (Hne : nonempty (pre ++ s ++ post) = true).
  { destruct (pre ++ s ++ post) eqn:E; [| reflexivity].
    cbn in Htrim. subst s. discriminate Hre. }
  rewrite Hne, Htrim, Hre. reflexivity.
Qed.

(** A tab and an ideographic space in front, a space and a no-break space
    behind. *)
Lemma normalizeShortcode_strips_padding_witness :
  normalizeShortcode
    (JString ((String "009" (utf8 [227; 128; 128])) ++ "abc"
              ++ (" " ++ utf8 [194; 160])))
  = Some "abc".
Proof.
  apply (normalizeShortcode_strips_padding
           (String "009" (utf8 [227; 128; 128])) "abc" (" " ++ utf8 [194; 160]));
    vm_compute; reflexivity.
Defined.

Lemma chars_alnum (i : nat) :
  (i < String.length chars)%nat ->
  exists c : ascii, charAt chars i = String c "" /\ alnum c = true.
Proof.
  intros Hi.
  assert (Hall : forallb
                   (fun j => match charAt chars j with
                             | String c EmptyString => alnum c
                             | _ => false
                             end)
                   (seq 0 (String.length chars)) = true)
    by (vm_compute; reflexivity).
  rewrite forallb_forall in Hall.
  specialize (Hall i). rewrite in_seq in Hall. specialize (Hall ltac:(lia)).
  destruct (charAt chars i) as [| c [| c' r]]; try discriminate Hall.
  exists c. split; [reflexivity | exact Hall].
Qed.

Lemma drawn_shape (rnd : nat -> nat) (p n : nat) :
  String.length (drawn rnd p n) = n /\ all_chars alnum (drawn rnd p n) = true.
Proof.
  revert p. induction n as [| n IH]; intros p; [split; reflexivity |].
  cbn [drawn].
  destruct (chars_alnum (rnd p mod String.length chars)) as (c & Hc & Ha).
  { apply Nat.mod_upper_bound. discriminate. }
  rewrite Hc. destruct (IH (S p)) as [Hlen Hall].
  change (String c "" ++ drawn rnd (S p) n) with (String c (drawn rnd (S p) n)).
  simpl. rewrite Hlen, Ha, Hall. split; reflexivity.
Qed.

Lemma alnum_code_char (c : ascii) : alnum c = true -> code_char c = true.
Proof. unfold alnum, code_char. intros ->. reflexivity. Qed.

(** X3. [generateShortcode n] consumes exactly [n] draws and returns a string
    of exactly [n] characters, each a letter or digit; for [3 <= n <= 30]
    (the service asks for 6) the result is a well-formed shortcode that
    [normalizeShortcode] accepts as it is. *)
Theorem generateShortcode_wellformed (n : nat) (w : World) :
  exists c : string,
    run (generateShortcode n) w = (add_draws n w, Ok c)
    /\ String.length c = n
    /\ all_chars alnum c = true
    /\ ((3 <= n <= 30)%nat -> normalizeShortcode (JString c) = Some c).
Proof.
  exists (drawn (random w) (draws w) n).
  destruct (drawn_shape (random w) (draws w) n) as [Hlen Hall].
  split; [apply run_generateShortcode |]. split; [exact Hlen |].
  split; [exact Hall |]. intros Hn.
  assert (Hre : shortcode_re (drawn (random w) (draws w) n) = true).
  { unfold shortcode_re.
    rewrite (all_chars_impl alnum code_char _ alnum_code_char Hall), Hlen.
    apply andb_true_iff. split; [apply Nat.leb_le | apply Nat.leb_le]; lia. }
  unfold normalizeShortcode. cbn [truthy is_string].
  rewrite (shortcode_re_nonempty _ Hre), (shortcode_re_trim _ Hre), Hre.
  reflexivity.
Qed.

(** ** The allocator *)

Lemma generate_unique_sound (k : nat) (w : World) :
  let r := run (generate_unique k) w in
  shortUrls r.1 = shortUrls w /\ clicks r.1 = clicks w
  /\ forall c : string,
       r.2 = Ok c -> isReserved c = false /\ shortUrls w !! c = None.
Proof.
  revert w. induction k as [| k IH]; intros w r; subst r.
  - simpl. repeat split; discriminate.
  - cbn [generate_unique]. rewrite run_bind, run_generateShortcode.
    set (c0 := drawn (random w) (draws w) 6).
    destruct (isReserved c0) eqn:Hres; [apply (IH (add_draws 6 w)) |].
    rewrite run_bind, run_await. cbn [perform]. unfold storage.
    cbn [faults calls add_draws].
    destruct (faults w (calls w)) as [[code msg] |].
    { cbn [fst snd shortUrls clicks next_call add_draws].
      repeat split; discriminate. }
    cbn [shortUrls next_call add_draws].
    destruct (shortUrls w !! c0) as [d |] eqn:Hlook.
    + apply (IH (next_call (add_draws 6 w))).
    + cbn [run fst snd shortUrls clicks next_call add_draws].
      split; [reflexivity | split; [reflexivity |]].
      intros c Hc. injection Hc as <-. split; assumption.
Qed.

(** The allocator reads only, and what it returns is not reserved. *)
Lemma makeUnique_reads_only (desired : option string) (w : World) :
  shortUrls (run (makeUniqueShortcode desired) w).1 = shortUrls w
  /\ clicks (run (makeUniqueShortcode desired) w).1 = clicks w
  /\ forall c : string,
       (run (makeUniqueShortcode desired) w).2 = Ok c -> isReserved c = false.
Proof.
  assert (Hgen : shortUrls (run (generate_unique 8) w).1 = shortUrls w
                 /\ clicks (run (generate_unique 8) w).1 = clicks w
                 /\ forall c : string,
                      (run (generate_unique 8) w).2 = Ok c -> isReserved c = false).
  { destruct (generate_unique_sound 8 w) as (Hs & Hc & Hok).
    split; [exact Hs | split; [exact Hc |]].
    intros c Hr. apply (Hok c Hr). }
  unfold makeUniqueShortcode.
  destruct desired as [d |]; [| exact Hgen].
  destruct (nonempty d); [| exact Hgen].
  destruct (isReserved (trim d)) eqn:Hres.
  { simpl. repeat split; discriminate. }
  rewrite run_bind, run_await. cbn [perform]. unfold storage.
  destruct (faults w (calls w)) as [[code msg] |].
  { cbn [fst snd shortUrls clicks next_call]. repeat split; discriminate. }
  cbn [shortUrls next_call].
  destruct (shortUrls w !! trim d) as [old |].
  { cbn [run fst snd shortUrls clicks next_call]. repeat split; discriminate. }
  cbn [run fst snd shortUrls clicks next_call].
  split; [reflexivity | split; [reflexivity |]].
  intros c Hc. injection Hc as <-. exact Hres.
Qed.

(** X4. Whatever storage does, the allocator writes nothing, and a shortcode
    it returns is not a reserved name and was not a key of the collection
    when it was looked up; a non-empty desired shortcode comes back as its
    trimmed self or not at all. *)
Theorem allocation_sound (desired : option string) (w : World) :
  let r := run (makeUniqueShortcode desired) w in
  shortUrls r.1 = shortUrls w /\ clicks r.1 = clicks w
  /\ forall c : string,
       r.2 = Ok c ->
       isReserved c = false /\ shortUrls w !! c = None
       /\ (forall d, desired = Some d -> nonempty d = true -> c = trim d).
Proof.
  intros r. subst r. unfold makeUniqueShortcode.
  destruct desired as [d |].
  - destruct (nonempty d) eqn:Hne.
    + destruct (isReserved (trim d)) eqn:Hres.
      { simpl. repeat split; discriminate. }
      rewrite run_bind, run_await. cbn [perform]. unfold storage.
      destruct (faults w (calls w)) as [[code msg] |].
      { cbn [fst snd shortUrls clicks next_call]. repeat split; discriminate. }
      cbn [shortUrls next_call].
      destruct (shortUrls w !! trim d) as [old |] eqn:Hlook.
      { cbn [run fst snd shortUrls clicks next_call]. repeat split; discriminate. }
      cbn [run fst snd shortUrls clicks next_call].
      split; [reflexivity | split; [reflexivity |]].
      intros c Hc. injection Hc as <-.
      split; [exact Hres | split; [exact Hlook |]].
      intros d' Hd' _. injection Hd' as <-. reflexivity.
    + destruct (generate_unique_sound 8 w) as (Hs & Hc & Hok).
      split; [exact Hs | split; [exact Hc |]]. intros c Hr.
      destruct (Hok c Hr) as [H1 H2]. split; [exact H1 | split; [exact H2 |]].
      intros d' Hd' Hne'. injection Hd' as <-. congruence.
  - destruct (generate_unique_sound 8 w) as (Hs & Hc & Hok).
    split; [exact Hs | split; [exact Hc |]]. intros c Hr.
    destruct (Hok c Hr) as [H1 H2]. split; [exact H1 | split; [exact H2 |]].
    intros d' Hd'. discriminate Hd'.
Qed.

(** ** The creation handler, whatever storage does *)

Section CreationAnyFaults.
Context `{Host}.

Lemma run_post_catch (e : exn) (w : World) :
  exists (status : Z) (msg : string),
    run (post_shorturls_catch e) w
    = (add_log (LError, "create shorturl error") w,
       Ok (Json status (ErrorBody msg))).
Proof.
  unfold post_shorturls_catch. rewrite run_bind, run_await. cbn [perform].
  destruct e as [status message | code message].
  - destruct (negb (status =? 0)); simpl; eauto.
  - simpl. eauto.
Qed.

(** The save loop either inserts exactly one new document, under a key that
    was free, or leaves the collection as it was. *)
Lemma save_retry_sound (n : nat) (mk : string -> ShortUrl) (chosen : string)
    (last : option exn) (w : World) :
  (forall s, shortcode (mk s) = s) ->
  isReserved chosen = false ->
  let r := run (save_retry n mk chosen last) w in
  clicks r.1 = clicks w
  /\ ((exists c : string,
         r.2 = Ok (Some (mk c), c, None) /\ isReserved c = false
         /\ shortUrls w !! c = None
         /\ shortUrls r.1 = <[c := mk c]> (shortUrls w))
      \/ (shortUrls r.1 = shortUrls w
          /\ ((exists c l, r.2 = Ok (None, c, l)) \/ exists e, r.2 = Err e))).
Proof.
  intros Hmk. revert chosen last w.
  induction n as [| n IH]; intros chosen last w Hres r; subst r.
  - simpl. split; [reflexivity |]. right. split; [reflexivity |]. left. eauto.
  - rewrite save_retry_S, run_bind. unfold attempt. cbn [run perform].
    assert (Hdup : forall (w1 : World) (e : exn),
              shortUrls w1 = shortUrls w -> clicks w1 = clicks w ->
              exn_code e = Some 11000 ->
              let r := run
                (let* _ := await (Log LWarn
                   "Duplicate key on save - shortcode collision, regenerating") in
                 let* chosen' := makeUniqueShortcode None in
                 save_retry n mk chosen' (Some e)) w1 in
              clicks r.1 = clicks w
              /\ ((exists c : string,
                     r.2 = Ok (Some (mk c), c, None) /\ isReserved c = false
                     /\ shortUrls w !! c = None
                     /\ shortUrls r.1 = <[c := mk c]> (shortUrls w))
                  \/ (shortUrls r.1 = shortUrls w
                      /\ ((exists c l, r.2 = Ok (None, c, l))
                          \/ exists e, r.2 = Err e)))).
    { intros w1 e Hs1 Hc1 _ r. subst r.
      rewrite run_bind, run_await. cbn [perform]. rewrite run_bind.
      set (w2 := add_log _ w1).
      destruct (makeUnique_reads_only None w2) as (Hs2 & Hc2 & Hok).
      destruct (run (makeUniqueShortcode None) w2) as [w3 [c' | e']].
      - cbn [fst snd] in Hs2, Hc2, Hok.
        pose proof (Hok c' eq_refl) as Hres'.
        destruct (IH c' (Some e) w3 Hres') as [Hc3 Hcases].
        change (shortUrls w2) with (shortUrls w1) in Hs2.
        change (clicks w2) with (clicks w1) in Hc2.
        rewrite Hs2, Hs1 in Hcases. rewrite Hc2, Hc1 in Hc3.
        split; [exact Hc3 | exact Hcases].
      - cbn [fst snd] in Hs2, Hc2 |- *.
        change (shortUrls w2) with (shortUrls w1) in Hs2.
        change (clicks w2) with (clicks w1) in Hc2.
        split; [congruence |]. right. split; [congruence |]. right. eauto. }
    unfold storage. destruct (faults w (calls w)) as [[code msg] |].
    + cbn [exn_code].
      destruct (bool_decide (Some code = Some 11000)) eqn:Hcode.
      * apply Hdup; [reflexivity | reflexivity |].
        apply bool_decide_eq_true in Hcode. exact Hcode.
      * simpl. split; [reflexivity |]. right. split; [reflexivity |].
        left. eauto.
    + cbn [shortUrls next_call]. rewrite Hmk.
      destruct (shortUrls w !! chosen) as [old |] eqn:Hlook.
      * unfold E11000 at 1. cbn [exn_code].
        rewrite bool_decide_true by reflexivity.
        apply Hdup; reflexivity.
      * simpl. split; [reflexivity |]. left. exists chosen.
        repeat split; assumption.
Qed.

Lemma create_with_sound (req : Request) (url : string) (vm : Z)
    (chosen : string) (w : World) :
  isReserved chosen = false ->
  let r := run (try_catch (create_with req url vm chosen) post_shorturls_catch) w in
  clicks r.1 = clicks w
  /\ ((exists c : string,
         r.2 = Ok (Json 201 (CreatedBody (base_of req ++ "/" ++ c)
                               (clock w + vm * 60000)))
         /\ isReserved c = false
         /\ shortUrls w !! c = None
         /\ shortUrls r.1
            = <[c := new_ShortUrl req url (clock w) (clock w + vm * 60000) vm c]>
                (shortUrls w))
      \/ (shortUrls r.1 = shortUrls w
          /\ exists status msg, r.2 = Ok (Json status (ErrorBody msg)))).
Proof.
  intros Hres r. subst r. unfold create_with.
  rewrite run_try_catch, run_bind, run_await. cbn [perform]. unfold create_at.
  destruct (valid_time (clock w + vm * 60000)).
  2: { simpl. split; [reflexivity |]. right. split; [reflexivity |].
       unfold internal_error. eauto. }
  rewrite run_bind.
  destruct (save_retry_sound 5
              (new_ShortUrl req url (clock w) (clock w + vm * 60000) vm)
              chosen None w (fun s => eq_refl) Hres) as [Hc Hcases].
  destruct (run (save_retry 5 _ chosen None) w) as [w1 res].
  cbn [fst snd] in Hc, Hcases.
  destruct Hcases as [(c & -> & Hresc & Hfree & Hs)
                     | (Hs & [(c & l & ->) | (e & ->)])].
  - simpl. split; [exact Hc |]. left. exists c. repeat split; assumption.
  - simpl. split; [exact Hc |]. right. split; [exact Hs |].
    unfold internal_error. eauto.
  - destruct (run_post_catch e w1) as (status & msg & ->).
    simpl. split; [exact Hc |]. right. split; [exact Hs |]. eauto.
Qed.

(** X5. A creation request is all or nothing, whatever storage does: the
    handler always answers, never touches the click log, and either answers
    201 and has inserted exactly one document, never clicked, under a
    non-reserved key that was free and that its short link names, or
    answers with an error body and has left the collection as it was. *)
Theorem creation_is_atomic (req : Request) (w : World) :
  let r := run (post_shorturls req) w in
  clicks r.1 = clicks w
  /\ ((exists (c : string) (d : ShortUrl),
         r.2 = Ok (Json 201 (CreatedBody (base_of req ++ "/" ++ c) (expiryAt d)))
         /\ isReserved c = false
         /\ shortUrls w !! c = None
         /\ shortUrls r.1 = <[c := d]> (shortUrls w)
         /\ shortcode d = c /\ clicksCount d = 0
         /\ body_url req = JString (originalUrl d))
      \/ (shortUrls r.1 = shortUrls w
          /\ exists status msg, r.2 = Ok (Json status (ErrorBody msg)))).
Proof.
  intros r. subst r.
  assert (Hfail : forall msg : string,
            let r := run (try_catch (Ret (Json 400 (ErrorBody msg)))
                            post_shorturls_catch) w in
            clicks r.1 = clicks w
            /\ ((exists (c : string) (d : ShortUrl),
                   r.2 = Ok (Json 201 (CreatedBody (base_of req ++ "/" ++ c)
                                         (expiryAt d)))
                   /\ isReserved c = false
                   /\ shortUrls w !! c = None
                   /\ shortUrls r.1 = <[c := d]> (shortUrls w)
                   /\ shortcode d = c /\ clicksCount d = 0
                   /\ body_url req = JString (originalUrl d))
                \/ (shortUrls r.1 = shortUrls w
                    /\ exists status msg, r.2 = Ok (Json status (ErrorBody msg))))).
  { intros msg. simpl. split; [reflexivity |]. right.
    split; [reflexivity |]. eauto. }
  assert (Halloc : forall (desired : option string) (url : string),
            body_url req = JString url ->
            let r := run (try_catch
                       (let* chosen := makeUniqueShortcode desired in
                        create_with req url (validMinutes_of (body_validity req))
                          chosen)
                       post_shorturls_catch) w in
            clicks r.1 = clicks w
            /\ ((exists (c : string) (d : ShortUrl),
                   r.2 = Ok (Json 201 (CreatedBody (base_of req ++ "/" ++ c)
                                         (expiryAt d)))
                   /\ isReserved c = false
                   /\ shortUrls w !! c = None
                   /\ shortUrls r.1 = <[c := d]> (shortUrls w)
                   /\ shortcode d = c /\ clicksCount d = 0
                   /\ body_url req = JString (originalUrl d))
                \/ (shortUrls r.1 = shortUrls w
                    /\ exists status msg, r.2 = Ok (Json status (ErrorBody msg))))).
  { intros desired url Hurl r. subst r.
    rewrite run_try_catch, run_bind.
    destruct (makeUnique_reads_only desired w) as (Hs1 & Hc1 & Hok).
    destruct (run (makeUniqueShortcode desired) w) as [w1 [chosen | e]].
    - cbn [fst snd] in Hs1, Hc1, Hok.
      pose proof (Hok chosen eq_refl) as Hres.
      rewrite <- run_try_catch.
      destruct (create_with_sound req url (validMinutes_of (body_validity req))
                  chosen w1 Hres) as [Hc Hcases].
      split; [congruence |].
      destruct Hcases as [(c & Hr & Hresc & Hfree & Hs) | (Hs & Hr)].
      + left. exists c.
        exists (new_ShortUrl req url (clock w1)
                  (clock w1 + validMinutes_of (body_validity req) * 60000)
                  (validMinutes_of (body_validity req)) c).
        rewrite Hs1 in Hfree, Hs. cbn [expiryAt shortcode clicksCount originalUrl
                                         new_ShortUrl].
        repeat split; assumption.
      + right. split; [congruence | exact Hr].
    - cbn [fst snd] in Hs1, Hc1.
      destruct (run_post_catch e w1) as (status & msg & ->).
      cbn [fst snd shortUrls clicks add_log].
      split; [exact Hc1 |]. right. split; [exact Hs1 |]. eauto. }
  unfold post_shorturls, post_shorturls_body.
  destruct (body_url req) as [| | b | n | url | prim] eqn:Hurl;
    try apply Hfail.
  destruct (negb (nonempty url)); [apply Hfail |].
  destruct (negb (isValidUrl (JString url))); [apply Hfail |].
  cbv zeta.
  destruct (validMinutes_of (body_validity req) <=? 0); [apply Hfail |].
  destruct (truthy (body_shortcode req)).
  - destruct (normalizeShortcode (body_shortcode req)) as [normalized |];
      [| apply Hfail].
    apply (Halloc (Some normalized) url). reflexivity.
  - apply (Halloc None url). reflexivity.
Qed.

End CreationAnyFaults.

Section CreationPaths.
Context `{Host}.





End CreationPaths.




(** ** Storage calls per request *)

Lemma within_weaken {A : Type} (n m : nat) (p : Prog A) :
  within n p -> (n <= m)%nat -> within m p.
Proof.
  intros Hp. revert m.
  induction Hp as [n a | n e | n R ev k Hk IH | n R ev k Hfree Hk IH];
    intros m Hle.
  - constructor.
  - constructor.
  - destruct m as [| m]; [lia |]. apply within_call. intros r. apply IH. lia.
  - apply within_free; [exact Hfree |]. intros r. apply IH. exact Hle.
Qed.

Lemma within_bind {A B : Type} (n m : nat) (p : Prog A) (f : A -> Prog B) :
  within n p -> (forall a, within m (f a)) -> within (n + m) (bind p f).
Proof.
  intros Hp Hf.
  induction Hp as [n a | n e | n R ev k Hk IH | n R ev k Hfree Hk IH]; simpl.
  - apply (within_weaken m); [apply Hf | lia].
  - constructor.
  - apply within_call. exact IH.
  - apply within_free; [exact Hfree | exact IH].
Qed.

Lemma within_try_catch {A : Type} (n m : nat) (p : Prog A) (h : exn -> Prog A) :
  within n p -> (forall e, within m (h e)) -> within (n + m) (try_catch p h).
Proof.
  intros Hp Hh.
  induction Hp as [n a | n e | n R ev k Hk IH | n R ev k Hfree Hk IH]; simpl.
  - constructor.
  - apply (within_weaken m); [apply Hh | lia].
  - apply within_call. exact IH.
  - apply within_free; [exact Hfree | exact IH].
Qed.

Lemma within_await {R : Type} (ev : Eff R) : within 1 (await ev).
Proof. apply within_call. intros [v | e]; constructor. Qed.

Lemma within_await_free {R : Type} (ev : Eff R) :
  is_storage ev = false -> within 0 (await ev).
Proof. intros Hev. apply within_free; [exact Hev |]. intros [v | e]; constructor. Qed.

Lemma calls_perform {R : Type} (ev : Eff R) (w : World) :
  (calls w <= calls (perform ev w).1
   <= calls w + (if is_storage ev then 1 else 0))%nat.
Proof.
  destruct ev; cbn [perform is_storage]; unfold storage;
    try (destruct (faults w (calls w)) as [[code msg] |]);
    try (destruct (shortUrls (next_call w) !! shortcode doc));
    simpl; lia.
Qed.

Lemma run_within {A : Type} (n : nat) (p : Prog A) (w : World) :
  within n p -> (calls w <= calls (run p w).1 <= calls w + n)%nat.
Proof.
  intros Hp. revert w.
  induction Hp as [n a | n e | n R ev k Hk IH | n R ev k Hfree Hk IH];
    intros w; cbn [run]; try (simpl; lia).
  - pose proof (calls_perform ev w) as Hc.
    destruct (perform ev w) as [w' r]. cbn [fst] in Hc.
    specialize (IH r w'). destruct (is_storage ev); lia.
  - pose proof (calls_perform ev w) as Hc. rewrite Hfree in Hc.
    destruct (perform ev w) as [w' r]. cbn [fst] in Hc.
    specialize (IH r w'). lia.
Qed.

Lemma within_generateShortcode_from (n : nat) (out : string) :
  within 0 (generateShortcode_from n out).
Proof.
  revert out. induction n as [| n IH]; intros out; cbn [generateShortcode_from].
  - constructor.
  - apply (within_bind 0 0); [apply within_await_free; reflexivity |].
    intros i. apply IH.
Qed.

Lemma within_generate_unique (k : nat) : within k (generate_unique k).
Proof.
  induction k as [| k IH]; cbn [generate_unique]; [constructor |].
  apply (within_bind 0 (S k)); [apply within_generateShortcode_from |].
  intros candidate. destruct (isReserved candidate).
  - apply (within_weaken k); [exact IH | lia].
  - apply (within_bind 1 k); [apply within_await |].
    intros [d |]; [exact IH | constructor].
Qed.

Lemma within_makeUniqueShortcode (desired : option string) :
  within 8 (makeUniqueShortcode desired).
Proof.
  unfold makeUniqueShortcode.
  destruct desired as [d |]; [| apply within_generate_unique].
  destruct (nonempty d); [| apply within_generate_unique].
  destruct (isReserved (trim d)); [constructor |].
  apply (within_bind 1 7); [apply within_await |].
  intros [old |]; constructor.
Qed.

Lemma within_get_stats (req : Request) : within 2 (get_stats req).
Proof.
  unfold get_stats. apply (within_try_catch 2 0).
  - cbv zeta. apply (within_bind 1 1); [apply within_await |].
    intros [d |].
    + apply (within_bind 1 0); [apply within_await |]. intros l. constructor.
    + apply (within_weaken 0); [| lia].
      apply (within_bind 0 0); [apply within_await_free; reflexivity |].
      intros u. constructor.
  - intros e. apply (within_bind 0 0); [apply within_await_free; reflexivity |].
    intros u. constructor.
Qed.

Lemma within_get_redirect (req : Request) : within 3 (get_redirect req).
Proof.
  unfold get_redirect. apply (within_try_catch 3 0).
  - cbv zeta. destruct (isReserved (param_shortcode req)).
    { apply (within_weaken 0); [| lia].
      apply (within_bind 0 0); [apply within_await_free; reflexivity |].
      intros u. constructor. }
    apply (within_bind 1 2); [apply within_await |].
    intros [d |].
    + apply (within_bind 0 2); [apply within_await_free; reflexivity |].
      intros now. destruct (expiryAt d <? now).
      { apply (within_weaken 0); [| lia].
        apply (within_bind 0 0); [apply within_await_free; reflexivity |].
        intros u. constructor. }
      apply (within_bind 0 2); [apply within_await_free; reflexivity |].
      intros stamp. cbv zeta.
      apply (within_bind 1 1); [apply within_await |]. intros u1.
      apply (within_bind 1 0); [apply within_await |]. intros u2.
      apply (within_bind 0 0); [apply within_await_free; reflexivity |].
      intros u3. constructor.
    + apply (within_weaken 0); [| lia].
      apply (within_bind 0 0); [apply within_await_free; reflexivity |].
      intros u. constructor.
  - intros e. apply (within_bind 0 0); [apply within_await_free; reflexivity |].
    intros u. constructor.
Qed.

Section CallBounds.
Context `{Host}.

Lemma within_save_retry (n : nat) (mk : string -> ShortUrl) (chosen : string)
    (last : option exn) :
  within (n * 9) (save_retry n mk chosen last).
Proof.
  revert chosen last. induction n as [| n IH]; intros chosen last.
  - constructor.
  - rewrite save_retry_S. change (S n * 9)%nat with (1 + (8 + n * 9))%nat.
    apply (within_bind 1 (8 + n * 9)).
    { apply within_call. intros r. constructor. }
    intros [saved | e]; [constructor |].
    destruct (bool_decide (exn_code e = Some 11000)); [| constructor].
    apply (within_bind 0 (8 + n * 9)); [apply within_await_free; reflexivity |].
    intros u. apply within_bind; [apply within_makeUniqueShortcode |].
    intros chosen'. apply IH.
Qed.

Lemma within_create_with (req : Request) (url : string) (vm : Z)
    (chosen : string) :
  within 45 (create_with req url vm chosen).
Proof.
  unfold create_with.
  apply (within_bind 0 45); [apply within_await_free; reflexivity |].
  intros now. unfold create_at. cbv zeta.
  destruct (valid_time (now + vm * 60000)).
  - apply (within_bind 45 0); [apply (within_save_retry 5) |].
    intros [[[saved |] chosen'] last];
      (apply (within_bind 0 0); [apply within_await_free; reflexivity |]);
      intros u; constructor.
  - apply (within_weaken 0); [| lia].
    apply (within_bind 0 0); [apply within_await_free; reflexivity |].
    intros u. constructor.
Qed.

Lemma within_post_shorturls (req : Request) : within 53 (post_shorturls req).
Proof.
  unfold post_shorturls. apply (within_try_catch 53 0).
  - unfold post_shorturls_body.
    destruct (body_url req) as [| | b | n | url | prim]; try constructor.
    destruct (negb (nonempty url)); [constructor |].
    destruct (negb (isValidUrl (JString url))); [constructor |].
    cbv zeta.
    destruct (validMinutes_of (body_validity req) <=? 0); [constructor |].
    destruct (truthy (body_shortcode req)).
    + destruct (normalizeShortcode (body_shortcode req)); [| constructor].
      apply (within_bind 8 45); [apply within_makeUniqueShortcode |].
      intros chosen. apply within_create_with.
    + apply (within_bind 8 45); [apply within_makeUniqueShortcode |].
      intros chosen. apply within_create_with.
  - intros e. unfold post_shorturls_catch.
    apply (within_bind 0 0); [apply within_await_free; reflexivity |].
    intros u. destruct e as [status message | code message]; [| constructor].
    destruct (negb (status =? 0)); constructor.
Qed.

(** X9. Every request is bounded in the storage calls it makes, whatever
    storage answers: a creation at most 53 (8 lookups to allocate, 5 inserts,
    and 8 lookups to re-allocate after each rejected insert), a redirect at
    most 3 (lookup, click append, increment), a stats read at most 2. *)
Theorem storage_calls_bounded (req : Request) (w : World) :
  (calls w <= calls (run (post_shorturls req) w).1 <= calls w + 53)%nat
  /\ (calls w <= calls (run (get_redirect req) w).1 <= calls w + 3)%nat
  /\ (calls w <= calls (run (get_stats req) w).1 <= calls w + 2)%nat.
Proof.
  split; [| split].
  - apply run_within, within_post_shorturls.
  - apply run_within, within_get_redirect.
  - apply run_within, within_get_stats.
Qed.

End CallBounds.

(** ** Stored documents stay well formed *)

Lemma always_await_any {R : Type} (Q : forall R : Type, Eff R -> Prop)
    (ev : Eff R) :
  Q R ev -> always Q (fun _ : R => True) (await ev).
Proof.
  intros Hev. constructor; [exact Hev |]. intros [v | e]; constructor. exact I.
Qed.

(** Builds [always wf_insert] for a stretch of effects other than inserts. *)
Ltac wf_steps :=
  repeat first
    [ apply always_Ret; exact I
    | apply always_Throw
    | eapply always_bind; [apply always_await_any; exact I | intros ? _] ].

Lemma wf_generateShortcode_from (n : nat) (out : string) :
  always wf_insert anything (generateShortcode_from n out).
Proof.
  revert out. induction n as [| n IH]; intros out;
    cbn [generateShortcode_from]; wf_steps. apply IH.
Qed.

Lemma wf_generate_unique (k : nat) :
  always wf_insert anything (generate_unique k).
Proof.
  induction k as [| k IH]; cbn [generate_unique]; [constructor |].
  eapply always_bind; [apply wf_generateShortcode_from |].
  intros candidate _. destruct (isReserved candidate); [exact IH |].
  wf_steps.
  match goal with |- always _ _ (match ?o with _ => _ end) => destruct o end;
    [exact IH | wf_steps].
Qed.

Lemma wf_makeUniqueShortcode (desired : option string) :
  always wf_insert anything (makeUniqueShortcode desired).
Proof.
  unfold makeUniqueShortcode.
  destruct desired as [d |]; [| apply wf_generate_unique].
  destruct (nonempty d); [| apply wf_generate_unique].
  destruct (isReserved (trim d)); wf_steps.
  match goal with |- always _ _ (match ?o with _ => _ end) => destruct o end;
    wf_steps.
Qed.

Lemma wf_get_stats (req : Request) : always wf_insert anything (get_stats req).
Proof.
  unfold get_stats. apply always_try_catch; [| intros e; wf_steps].
  cbv zeta. wf_steps.
  match goal with |- always _ _ (match ?o with _ => _ end) => destruct o end;
    wf_steps.
Qed.

Lemma wf_get_redirect (req : Request) :
  always wf_insert anything (get_redirect req).
Proof.
  unfold get_redirect. apply always_try_catch; [| intros e; wf_steps].
  cbv zeta. destruct (isReserved (param_shortcode req)); wf_steps.
  match goal with |- always _ _ (match ?o with _ => _ end) => destruct o end;
    wf_steps.
  match goal with |- always _ _ (if ?b then _ else _) => destruct b end;
    wf_steps.
Qed.

Section WellFormedCreate.
Context `{Host}.

Lemma wf_save_retry (n : nat) (mk : string -> ShortUrl) (chosen : string)
    (last : option exn) :
  (forall s, wf_doc (mk s)) ->
  always wf_insert anything (save_retry n mk chosen last).
Proof.
  intros Hmk. revert chosen last.
  induction n as [| n IH]; intros chosen last; cbn [save_retry]; wf_steps.
  eapply (always_bind _ anything).
  { constructor; [apply Hmk | intros r; constructor; exact I]. }
  intros [saved | e] _; wf_steps.
  destruct (bool_decide (exn_code e = Some 11000)); wf_steps.
  eapply always_bind; [apply wf_makeUniqueShortcode |].
  intros chosen' _. apply IH.
Qed.

Lemma wf_post_shorturls (req : Request) :
  always wf_insert anything (post_shorturls req).
Proof.
  assert (Hcreate : forall url chosen,
            always wf_insert anything
              (create_with req url (validMinutes_of (body_validity req)) chosen)).
  { intros url chosen. unfold create_with. wf_steps. unfold create_at.
    cbv zeta.
    match goal with |- always _ _ (if ?b then _ else _) =>
      destruct b end; wf_steps.
    eapply always_bind.
    - apply wf_save_retry. intros s. unfold wf_doc. cbn.
      pose proof (validMinutes_positive (body_validity req)). lia.
    - intros [[[saved |] chosen'] last] _; wf_steps. }
  unfold post_shorturls. apply always_try_catch.
  - unfold post_shorturls_body.
    destruct (body_url req) as [| | b | n | url | prim]; wf_steps.
    destruct (negb (nonempty url)); wf_steps.
    destruct (negb (isValidUrl (JString url))); wf_steps.
    cbv zeta.
    destruct (validMinutes_of (body_validity req) <=? 0); wf_steps.
    destruct (truthy (body_shortcode req)).
    + destruct (normalizeShortcode (body_shortcode req)); wf_steps.
      eapply always_bind; [apply wf_makeUniqueShortcode |].
      intros chosen _. apply Hcreate.
    + eapply always_bind; [apply wf_makeUniqueShortcode |].
      intros chosen _. apply Hcreate.
  - intros e. unfold post_shorturls_catch. wf_steps.
    destruct e as [status message | code message]; wf_steps.
    destruct (negb (status =? 0)); wf_steps.
Qed.

Lemma wf_handler (p : Prog Response) :
  is_handler p -> always wf_insert anything p.
Proof.
  intros [req | req | req].
  - apply wf_post_shorturls.
  - apply wf_get_stats.
  - apply wf_get_redirect.
Qed.

End WellFormedCreate.

Lemma perform_wf_store {R : Type} (ev : Eff R) (w : World) :
  wf_insert R ev -> wf_store w -> wf_store (perform ev w).1.
Proof.
  intros Hev Hw.
  destruct ev as [s | doc | s | cl | s | | n | lvl msg];
    cbn [perform]; unfold storage;
    try (destruct (faults w (calls w)) as [[code msg'] |]);
    try exact Hw.
  - cbn [shortUrls next_call].
    destruct (shortUrls w !! shortcode doc) as [old |]; [exact Hw |].
    intros sc d. cbn [fst shortUrls set_shortUrls next_call].
    rewrite lookup_insert. destruct (decide (shortcode doc = sc)) as [<- | _].
    + intros Hd. injection Hd as <-. split; [reflexivity | exact Hev].
    + apply Hw.
  - intros sc d. cbn [fst shortUrls set_shortUrls next_call]. intros Hd.
    apply lookup_alter_Some in Hd.
    destruct Hd as [(_ & d0 & Hd0 & ->) | (_ & Hd0)]; [| apply (Hw sc _ Hd0)].
    destruct (Hw _ _ Hd0) as (Hkey & Hvm & Hexp & Hcount).
    unfold wf_doc. cbn. repeat split; try assumption. lia.
Qed.

Lemma step_always {A : Type} (Q : forall R : Type, Eff R -> Prop)
    (P : A -> Prop) (Inv : World -> Prop) (p : Prog A) (w : World) :
  (forall (R : Type) (ev : Eff R) (w : World),
     Q R ev -> Inv w -> Inv (perform ev w).1) ->
  always Q P p -> Inv w ->
  always Q P (step p w).2 /\ Inv (step p w).1.
Proof.
  intros Hperf Hp Hw. destruct Hp as [a Ha | e | R ev k Hev Hk]; cbn [step].
  - split; [constructor; exact Ha | exact Hw].
  - split; [constructor | exact Hw].
  - specialize (Hperf R ev w Hev Hw).
    destruct (perform ev w) as [w' r]. split; [apply Hk | exact Hperf].
Qed.

Lemma interleave_always (Q : forall R : Type, Eff R -> Prop)
    (Inv : World -> Prop) (sched : list Move) (pool : list (Prog Response))
    (w : World) :
  (forall (R : Type) (ev : Eff R) (w : World),
     Q R ev -> Inv w -> Inv (perform ev w).1) ->
  (forall (t : Z) (w : World), Inv w -> Inv (set_clock t w)) ->
  Forall (always Q anything) pool -> Inv w ->
  Inv (interleave sched pool w).1.
Proof.
  intros Hperf Hclock. revert pool w.
  induction sched as [| m sched IH]; intros pool w Hall Hw; [exact Hw |].
  destruct m as [i | dt]; cbn [interleave].
  - destruct (pool !! i) as [p |] eqn:Hp; [| apply IH; assumption].
    pose proof (Forall_lookup_1 _ _ _ _ Hall Hp) as Hlic.
    destruct (step_always Q anything Inv p w Hperf Hlic Hw) as [Hp' Hw'].
    destruct (step p w) as [w' p']. cbn [fst snd] in Hp', Hw'.
    apply IH; [| exact Hw']. apply Forall_insert; assumption.
  - apply IH; [exact Hall |]. apply Hclock. exact Hw.
Qed.

(** X10. Starting from a well-formed collection, however the handlers of
    concurrent requests interleave and whatever storage rejects, every
    stored document stays filed under its own shortcode, with
    [validityMinutes] at least 1, [expiryAt] exactly [validityMinutes]
    minutes after [createdAt] (so strictly later), and a non-negative
    [clicksCount]. *)
Theorem stored_documents_wellformed `{Host} (sched : list Move)
    (pool : list (Prog Response)) (w : World) :
  Forall is_handler pool ->
  wf_store w ->
  forall (sc : string) (d : ShortUrl),
    shortUrls (interleave sched pool w).1 !! sc = Some d ->
    shortcode d = sc
    /\ 1 <= validityMinutes d
    /\ expiryAt d = createdAt d + validityMinutes d * 60000
    /\ createdAt d < expiryAt d
    /\ 0 <= clicksCount d.
Proof.
  intros Hpool Hw sc d Hd.
  assert (Hfin : wf_store (interleave sched pool w).1).
  { apply (interleave_always wf_insert wf_store).
    - intros R ev w0. apply perform_wf_store.
    - intros t w0 Hw0. exact Hw0.
    - eapply Forall_impl; [exact Hpool |]. intros p Hp. apply wf_handler.
      exact Hp.
    - exact Hw. }
  destruct (Hfin sc d Hd) as (Hkey & Hvm & Hexp & Hcount).
  repeat split; try assumption; lia.
Qed.

(** Two creations and a redirect interleaved on an empty store. *)
Lemma stored_documents_wellformed_witness :
  let pool := [@post_shorturls sample_host
                 (with_shortcode (JString "promo7") sample_request);
               @post_shorturls sample_host
                 (with_validity (JNumber (NInt 2)) sample_request);
               get_redirect (with_param "promo7" sample_request)] in
  let sched := (repeat (Run 0) 4 ++ [Elapse 10] ++ repeat (Run 2) 6
                ++ repeat (Run 1) 10)%list in
  let w := (interleave sched pool (fresh 1000 (fun n => n))).1 in
  exists d : ShortUrl,
    shortUrls w !! "ABCDEF" = Some d
    /\ shortcode d = "ABCDEF"
    /\ 1 <= validityMinutes d
    /\ expiryAt d = createdAt d + validityMinutes d * 60000
    /\ createdAt d < expiryAt d
    /\ 0 <= clicksCount d.
Proof.
  intros pool sched w.
  assert (Hd : exists d, shortUrls w !! "ABCDEF" = Some d)
    by (vm_compute; eauto).
  destruct Hd as [d Hd]. exists d. split; [exact Hd |].
  apply (@stored_documents_wellformed sample_host sched pool
           (fresh 1000 (fun n => n))).
  - repeat constructor.
  - intros sc d0 Hd0. cbn [shortUrls fresh] in Hd0.
    rewrite lookup_empty in Hd0. discriminate Hd0.
  - exact Hd.
Defined.

(** ** The redirect handler, whatever storage does *)

(** No program changes the clock, the fault schedule or the draw sequence,
    and the call counter only grows. *)
Lemma run_env {A : Type} (p : Prog A) (w : World) :
  faults (run p w).1 = faults w /\ clock (run p w).1 = clock w
  /\ random (run p w).1 = random w /\ (calls w <= calls (run p w).1)%nat.
Proof.
  revert w. induction p as [a | e | R ev k IH]; intros w; cbn [run].
  - simpl. repeat split; lia.
  - simpl. repeat split; lia.
  - assert (Hperf : faults (perform ev w).1 = faults w
                    /\ clock (perform ev w).1 = clock w
                    /\ random (perform ev w).1 = random w).
    { destruct ev; cbn [perform]; unfold storage;
        try (destruct (faults w (calls w)) as [[code msg] |]);
        try (destruct (shortUrls (next_call w) !! shortcode doc));
        simpl; repeat split. }
    pose proof (calls_perform ev w) as Hc.
    destruct (perform ev w) as [w' r]. cbn [fst] in Hperf, Hc.
    destruct (IH r w') as (Hf & Ht & Hr & Hcalls).
    destruct Hperf as (Hf' & Ht' & Hr').
    repeat split; try congruence. lia.
Qed.

Lemma no_faults_run {A : Type} (p : Prog A) (w : World) :
  no_faults w -> no_faults (run p w).1.
Proof.
  intros Hn n Hle. destruct (run_env p w) as (Hf & _ & _ & Hcalls).
  rewrite Hf. apply Hn. lia.
Qed.

(** The three ways a redirect request can end. *)
Lemma redirect_cases (req : Request) (w : World) :
  let r := run (get_redirect req) w in
  let sc := param_shortcode req in
  (shortUrls r.1 = shortUrls w /\ clicks r.1 = clicks w
   /\ exists status msg, r.2 = Ok (Json status (ErrorBody msg)))
  \/ (exists d : ShortUrl,
        shortUrls w !! sc = Some d /\ isReserved sc = false
        /\ clock w <= expiryAt d
        /\ clicks r.1 = (clicks w ++ [new_Click req sc (clock w)])%list
        /\ ((shortUrls r.1 = shortUrls w /\ r.2 = Ok internal_error)
            \/ (shortUrls r.1 = alter inc_clicksCount sc (shortUrls w)
                /\ r.2 = Ok (Redirect 302 (originalUrl d))))).
Proof.
  intros r sc. subst r sc.
  destruct (isReserved (param_shortcode req)) eqn:Hres.
  { left. unfold get_redirect. rewrite Hres. simpl. eauto 6. }
  destruct (faults w (calls w)) as [[code msg] |] eqn:Hf.
  { left. unfold get_redirect. rewrite Hres. simpl. unfold storage.
    rewrite Hf. simpl. unfold internal_error. eauto 6. }
  destruct (shortUrls w !! param_shortcode req) as [d |] eqn:Hd.
  - pose proof (redirect_outcome w req d Hres Hf Hd) as Hout. simpl in Hout.
    destruct (Z.ltb_spec (expiryAt d) (clock w)) as [Hlt | Hge].
    { left. destruct Hout as (-> & Hs & Hc). eauto 6. }
    destruct (faults w (S (calls w))) as [[c1 m1] |].
    { left. destruct Hout as (-> & Hs & Hc). unfold internal_error. eauto 6. }
    destruct Hout as [Hc Hout]. right. exists d.
    split; [reflexivity |]. split; [reflexivity |]. split; [exact Hge |].
    split; [exact Hc |].
    destruct (faults w (S (S (calls w)))) as [[c2 m2] |];
      destruct Hout as [Hr Hs]; [left | right]; split; assumption.
  - left. unfold get_redirect. rewrite Hres. simpl. unfold storage.
    rewrite Hf. simpl. rewrite Hd. simpl. eauto 6.
Qed.

(** X11. A 302 is never issued on a guess: whenever the handler answers
    with a redirect, the shortcode is not reserved and is stored, the link
    has not expired, the target is that document's [originalUrl], and by
    then the click has been appended and the counter incremented. *)
Theorem redirect_only_when_recorded (req : Request) (w : World) (url : string) :
  (run (get_redirect req) w).2 = Ok (Redirect 302 url) ->
  exists d : ShortUrl,
    shortUrls w !! param_shortcode req = Some d
    /\ url = originalUrl d
    /\ isReserved (param_shortcode req) = false
    /\ clock w <= expiryAt d
    /\ clicks (run (get_redirect req) w).1
       = (clicks w ++ [new_Click req (param_shortcode req) (clock w)])%list
    /\ shortUrls (run (get_redirect req) w).1
       = alter inc_clicksCount (param_shortcode req) (shortUrls w).
Proof.
  intros Hr.
  destruct (redirect_cases req w)
    as [(_ & _ & status & msg & Hresp)
       | (d & Hd & Hres & Hact & Hc & [[_ Hresp] | [Hs Hresp]])];
    cbv zeta in *; rewrite Hresp in Hr; try discriminate Hr.
  injection Hr as <-. exists d. repeat split; assumption.
Qed.

Lemma redirect_only_when_recorded_witness :
  exists d : ShortUrl,
    shortUrls (sample_world 5000 no_fault) !! "promo1" = Some d
    /\ "https://example.com/landing" = originalUrl d
    /\ isReserved "promo1" = false
    /\ clock (sample_world 5000 no_fault) <= expiryAt d
    /\ clicks (run (get_redirect (with_param "promo1" sample_request))
                 (sample_world 5000 no_fault)).1
       = [new_Click (with_param "promo1" sample_request) "promo1" 5000]
    /\ shortUrls (run (get_redirect (with_param "promo1" sample_request))
                    (sample_world 5000 no_fault)).1
       = alter inc_clicksCount "promo1" (shortUrls (sample_world 5000 no_fault)).
Proof.
  apply (redirect_only_when_recorded (with_param "promo1" sample_request)
           (sample_world 5000 no_fault) "https://example.com/landing").
  vm_compute. reflexivity.
Defined.

(** X12. Whatever storage does, a redirect request always gets an answer
    and touches nothing but its own link: documents under other shortcodes
    are as they were, the requested document is unchanged or has its
    [clicksCount] raised by exactly one with every other field kept, no
    document appears or disappears, and the click log is unchanged or longer
    by the one click of this request. *)
Theorem redirect_frame (req : Request) (w : World) :
  let r := run (get_redirect req) w in
  let sc := param_shortcode req in
  (exists resp, r.2 = Ok resp)
  /\ (forall s : string, s <> sc -> shortUrls r.1 !! s = shortUrls w !! s)
  /\ (shortUrls r.1 !! sc = shortUrls w !! sc
      \/ shortUrls r.1 !! sc = inc_clicksCount <$> shortUrls w !! sc)
  /\ dom (shortUrls r.1) = dom (shortUrls w)
  /\ (clicks r.1 = clicks w
      \/ clicks r.1 = (clicks w ++ [new_Click req sc (clock w)])%list).
Proof.
  intros r sc. subst r sc.
  destruct (redirect_cases req w)
    as [(Hs & Hc & status & msg & Hresp)
       | (d & Hd & Hres & Hact & Hc & [[Hs Hresp] | [Hs Hresp]])];
    cbv zeta in *; rewrite Hresp, Hs, Hc.
  - split; [eauto |]. repeat split; auto.
  - split; [eauto |]. repeat split; auto.
  - split; [eauto |]. split; [| split; [| split]].
    + intros s Hne. apply lookup_alter_ne. congruence.
    + right. apply lookup_alter_eq.
    + apply dom_alter_L.
    + right. reflexivity.
Qed.

(** X13. A request for a shortcode that is not stored is answered 404
    'shortcode not found' after the one lookup, with both collections
    untouched. *)
Theorem unknown_shortcode_not_found (req : Request) (w : World) :
  isReserved (param_shortcode req) = false ->
  faults w (calls w) = None ->
  shortUrls w !! param_shortcode req = None ->
  run (get_redirect req) w
  = (add_log (LWarn, "redirect_not_found") (next_call w),
     Ok (Json 404 (ErrorBody "shortcode not found"))).
Proof.
  intros Hres Hf Hd. unfold get_redirect. rewrite Hres.
  simpl. unfold storage. rewrite Hf. simpl. rewrite Hd. reflexivity.
Qed.

Lemma unknown_shortcode_not_found_witness :
  run (get_redirect (with_param "Promo1" sample_request))
      (sample_world 5000 no_fault)
  = (add_log (LWarn, "redirect_not_found")
       (next_call (sample_world 5000 no_fault)),
     Ok (Json 404 (ErrorBody "shortcode not found"))).
Proof.
  apply (unknown_shortcode_not_found (with_param "Promo1" sample_request)
           (sample_world 5000 no_fault)).
  - vm_compute. reflexivity.
  - reflexivity.
  - vm_compute. reflexivity.
Defined.

Lemma counter_alter_inc (sc : string) (w w' : World) (d : ShortUrl) :
  shortUrls w !! sc = Some d ->
  shortUrls w' = alter inc_clicksCount sc (shortUrls w) ->
  counter sc w' = counter sc w + 1
  /\ shortUrls w' !! sc = Some (inc_clicksCount d).
Proof.
  intros Hd Hs. unfold counter. rewrite Hs, lookup_alter_eq, Hd. simpl.
  split; reflexivity.
Qed.

(** X14. Served one after the other with storage answering, [k] redirects of
    an unexpired link raise its [clicksCount] by exactly [k] and add exactly
    [k] click documents for it. *)
Theorem redirects_count (k : nat) (req : Request) (w : World) (d : ShortUrl) :
  isReserved (param_shortcode req) = false ->
  no_faults w ->
  shortUrls w !! param_shortcode req = Some d ->
  clock w <= expiryAt d ->
  counter (param_shortcode req) (redirects k req w)
    = counter (param_shortcode req) w + Z.of_nat k
  /\ recorded (param_shortcode req) (redirects k req w)
    = recorded (param_shortcode req) w + Z.of_nat k.
Proof.
  intros Hres. revert w d.
  induction k as [| k IH]; intros w d Hn Hd Hact; cbn [redirects].
  - split; lia.
  - pose proof (redirect_outcome w req d Hres (no_faults_now w Hn) Hd) as Hout.
    simpl in Hout.
    assert (Hge : (expiryAt d <? clock w) = false)
      by (apply Z.ltb_ge; exact Hact).
    rewrite Hge, !Hn in Hout by lia. destruct Hout as (Hc & _ & Hs).
    destruct (counter_alter_inc _ w _ d Hd Hs) as [Hcount Hd'].
    destruct (run_env (get_redirect req) w) as (_ & Ht & _ & _).
    destruct (IH (run (get_redirect req) w).1 (inc_clicksCount d)
                (no_faults_run _ w Hn) Hd') as [IHc IHr].
    { rewrite Ht. exact Hact. }
    assert (Hrec : recorded (param_shortcode req) (run (get_redirect req) w).1
                   = recorded (param_shortcode req) w + 1).
    { unfold recorded. rewrite Hc, recorded_append.
      unfold new_Click. cbn [click_shortcode].
      rewrite decide_True by reflexivity. reflexivity. }
    rewrite IHc, IHr, Hcount, Hrec. split; lia.
Qed.

Lemma redirects_count_witness :
  counter "promo1"
    (redirects 4 (with_param "promo1" sample_request) (sample_world 5000 no_fault))
    = counter "promo1" (sample_world 5000 no_fault) + 4
  /\ recorded "promo1"
       (redirects 4 (with_param "promo1" sample_request)
          (sample_world 5000 no_fault))
     = recorded "promo1" (sample_world 5000 no_fault) + 4.
Proof.
  apply (redirects_count 4 (with_param "promo1" sample_request)
           (sample_world 5000 no_fault) sample_link).
  - vm_compute. reflexivity.
  - intros n _. reflexivity.
  - vm_compute. reflexivity.
  - vm_compute. discriminate.
Defined.

(** ** The stats handler: what it reads and how it orders it *)

(** X15. For a stored shortcode, both reads answering, the stats body lists
    exactly the click documents recorded for that shortcode, once each,
    newest first, beside the document's own fields; where no counter is
    ahead of the click log, [clicksTotal] is at most the number of clicks
    listed. *)
Theorem stats_list_clicks_newest_first (req : Request) (w : World)
    (d : ShortUrl) :
  faults w (calls w) = None ->
  faults w (S (calls w)) = None ->
  shortUrls w !! param_shortcode req = Some d ->
  exists cs : list ClickDetail,
    (run (get_stats req) w).2
      = Ok (Json 200 (StatsBody (param_shortcode req) (originalUrl d)
                        (createdAt d) (expiryAt d) (clicksCount d) cs))
    /\ cs ≡ₚ map click_detail (clicks_of (param_shortcode req) (clicks w))
    /\ StronglySorted detail_newer cs
    /\ (counts_ok w -> clicksCount d <= Z.of_nat (List.length cs)).
Proof.
  intros F0 F1 Hd.
  exists (map click_detail
            (sort_desc (ties w) (clicks_of (param_shortcode req) (clicks w)))).
  split; [| split; [| split]].
  - rewrite (run_get_stats_ok req w F0 F1), Hd. reflexivity.
  - apply fmap_Permutation, sort_desc_perm.
  - apply (StronglySorted_fmap click_detail click_newer detail_newer).
    + intros x y Hxy. exact Hxy.
    + apply sort_desc_sorted.
  - intros Hok. specialize (Hok _ _ Hd). unfold recorded in Hok.
    rewrite length_map, (Permutation_length (sort_desc_perm _ _)). exact Hok.
Qed.

(** Three clicks stored out of order come back newest first. *)
Lemma stats_list_clicks_newest_first_witness :
  let q := with_param "promo1" sample_request in
  let w := set_clicks [new_Click q "promo1" 20; new_Click q "other" 25;
                       new_Click q "promo1" 40; new_Click q "promo1" 30]
             (sample_world 5000 no_fault) in
  exists cs : list ClickDetail,
    (run (get_stats q) w).2
      = Ok (Json 200 (StatsBody "promo1" "https://example.com/landing" 1000
                        1801000 0 cs))
    /\ map cd_timestamp cs = [40; 30; 20].
Proof.
  intros q w.
  destruct (stats_list_clicks_newest_first q w sample_link)
    as (cs & Hr & _ & _ & _).
  - reflexivity.
  - reflexivity.
  - vm_compute. reflexivity.
  - exists cs. split; [exact Hr |].
    vm_compute in Hr. injection Hr as <-. reflexivity.
Defined.

(** X16. The stats handler only reads: whatever storage does, it answers and
    leaves both collections exactly as they were. *)
Theorem stats_read_only (req : Request) (w : World) :
  (exists resp, (run (get_stats req) w).2 = Ok resp)
  /\ shortUrls (run (get_stats req) w).1 = shortUrls w
  /\ clicks (run (get_stats req) w).1 = clicks w.
Proof.
  destruct (faults w (calls w)) as [[c0 m0] |] eqn:F0;
    [| destruct (shortUrls w !! param_shortcode req) as [d |] eqn:Hd;
       [destruct (faults w (S (calls w))) as [[c1 m1] |] eqn:F1 |]];
    unfold get_stats;
    repeat (progress (simpl; unfold storage; simpl; rewrite ?F0, ?Hd, ?F1));
    eauto.
Qed.

(** ** The listing handler *)






Section Listing.
Context `{Host}.


(** The read rejected: 500 and nothing changed. *)
Lemma listing_failure (req : Request) (w : World) (code : Z) (msg : string) :
  faults w (calls w) = Some (code, msg) ->
  get_list req w
  = (add_log (LError, "list shorturls error") (next_call w),
     ListError 500 "internal server error").
Proof. intros Hf. unfold get_list. rewrite (storage_fault _ _ _ _ Hf). reflexivity. Qed.

End Listing.


(** ** Creation with a generated shortcode *)

Section GeneratedCreation.
Context `{Host}.


End GeneratedCreation.


(** A creation and a redirect interleaved on a store without reserved
    keys. *)
Lemma reserved_never_stored_witness :
  let pool := [@post_shorturls sample_host sample_request;
               get_redirect (with_param "promo1" sample_request)] in
  let sched := (repeat (Run 0) 12 ++ repeat (Run 1) 6)%list in
  unreserved (interleave sched pool (sample_world 5000 no_fault)).1.
Proof.
  intros pool sched.
  apply (@reserved_never_stored sample_host sched pool
           (sample_world 5000 no_fault)).
  - repeat constructor.
  - intros sc d Hd. cbn [shortUrls sample_world] in Hd.
    apply lookup_singleton_Some in Hd. destruct Hd as [<- _].
    vm_compute. reflexivity.
Defined.

(** ** Expiry beyond the range of [Date] *)

Section OutOfRange.
Context `{Host}.

(** X25. A validity that puts the expiry further than 8.64e15 ms from the
    epoch makes [expiryAt] an Invalid Date, which the document's validation
    refuses: whatever else the request holds and whatever storage does, the
    request is answered with an error body, never with a short link, and
    both collections are left as they were. *)
Theorem expiry_out_of_range_not_saved (req : Request) (w : World) :
  valid_time (clock w + validMinutes_of (body_validity req) * 60000) = false ->
  let r := run (post_shorturls req) w in
  shortUrls r.1 = shortUrls w
  /\ clicks r.1 = clicks w
  /\ exists (status : Z) (msg : string), r.2 = Ok (Json status (ErrorBody msg)).
Proof.
  intros Hdate r. subst r.
  assert (Hfail : forall msg : string,
            let r := run (try_catch (Ret (Json 400 (ErrorBody msg)))
                            post_shorturls_catch) w in
            shortUrls r.1 = shortUrls w /\ clicks r.1 = clicks w
            /\ exists (status : Z) (msg : string),
                 r.2 = Ok (Json status (ErrorBody msg))).
  { intros msg. simpl. split; [reflexivity |]. split; [reflexivity |]. eauto. }
  assert (Halloc : forall (desired : option string) (url : string),
            let r := run (try_catch
                       (let* chosen := makeUniqueShortcode desired in
                        create_with req url (validMinutes_of (body_validity req))
                          chosen)
                       post_shorturls_catch) w in
            shortUrls r.1 = shortUrls w /\ clicks r.1 = clicks w
            /\ exists (status : Z) (msg : string),
                 r.2 = Ok (Json status (ErrorBody msg))).
  { intros desired url r. subst r. rewrite run_try_catch, run_bind.
    destruct (makeUnique_reads_only desired w) as (Hs & Hc & _).
    destruct (run_env (makeUniqueShortcode desired) w) as (_ & Ht & _ & _).
    destruct (run (makeUniqueShortcode desired) w) as [w1 [chosen | e]];
      cbn [fst] in Hs, Hc, Ht.
    - rewrite run_create_with_invalid by (rewrite Ht; exact Hdate).
      cbn [fst snd shortUrls clicks add_log].
      split; [exact Hs |]. split; [exact Hc |]. unfold internal_error. eauto.
    - destruct (run_post_catch e w1) as (status & msg & ->).
      cbn [fst snd shortUrls clicks add_log].
      split; [exact Hs |]. split; [exact Hc |]. eauto. }
  unfold post_shorturls, post_shorturls_body.
  destruct (body_url req) as [| | b | n | url | prim] eqn:Hurl;
    try apply Hfail.
  destruct (negb (nonempty url)); [apply Hfail |].
  destruct (negb (isValidUrl (JString url))); [apply Hfail |].
  cbv zeta.
  destruct (validMinutes_of (body_validity req) <=? 0); [apply Hfail |].
  destruct (truthy (body_shortcode req)).
  - destruct (normalizeShortcode (body_shortcode req)) as [normalized |];
      [| apply Hfail].
    apply (Halloc (Some normalized) url).
  - apply (Halloc None url).
Qed.

End OutOfRange.

(** At 144000000000 minutes the expiry is 1.7e12 ms past the limit; the
    desired shortcode is free and storage answers, and still nothing is
    stored. *)
Lemma expiry_out_of_range_not_saved_witness :
  let req := with_shortcode (JString "promo4")
               (with_validity (JNumber (NInt 144000000000)) sample_request) in
  let r := run (@post_shorturls sample_host req)
             (fresh 1700000000000 (fun n => n)) in
  shortUrls r.1 = ∅
  /\ r.2 = Ok (Json 500 (ErrorBody "internal server error")).
Proof.
  intros req r.
  destruct (@expiry_out_of_range_not_saved sample_host req
              (fresh 1700000000000 (fun n => n)))
    as (Hs & _ & _).
  - vm_compute. reflexivity.
  - split; [exact Hs | vm_compute; reflexivity].
Defined.

(** ** The loggers *)

Module LoggingFacts.
Import Logging.

Lemma lowered_fixed (t : string) : lowered t = true -> toLowerCase t = t.
Proof.
  induction t as [| c t IH]; [reflexivity |]. cbn [lowered].
  intros Hl. apply andb_true_iff in Hl. destruct Hl as [Hl Ht].
  apply andb_true_iff in Hl. destruct Hl as [Hc Hk].
  apply negb_true_iff in Hc. apply bool_decide_eq_true in Hk.
  rewrite toLowerCase_eq, Hk, (IH Ht). unfold lower_char. rewrite Hc.
  reflexivity.
Qed.

Lemma lower_char_lowered (c : ascii) : is_upper (lower_char c) = false.
Proof. destruct c as [[] [] [] [] [] [] [] []]; reflexivity. Qed.

(** The first byte of a lower-cased string, when outside ASCII, is the first
    byte of the string. *)
Lemma toLowerCase_head (n : nat) (s : string) (c' : ascii) (r : string) :
  (128 <= n)%nat ->
  toLowerCase s = String c' r ->
  is_byte n c' = true ->
  exists (c : ascii) (s1 : string),
    s = String c s1 /\ is_byte n c = true /\ r = toLowerCase s1.
Proof.
  intros Hn. rewrite toLowerCase_eq. destruct s as [| c s1]; [discriminate |].
  destruct (kelvin_at (String c s1)) as [s3 |]; intros Heq Hc';
    injection Heq as <- <-.
  - unfold is_byte in Hc'. apply Nat.eqb_eq in Hc'. cbv in Hc'. lia.
  - rewrite (is_byte_lower n c Hn) in Hc'. eauto.
Qed.

Lemma toLowerCase_lowered (s : string) : lowered (toLowerCase s) = true.
Proof.
  induction s as [s IH] using string_length_ind.
  rewrite toLowerCase_eq. destruct s as [| c1 s1]; [reflexivity |].
  destruct (kelvin_at (String c1 s1)) as [s3 |] eqn:Hk; cbn [lowered].
  - rewrite (IH s3 (kelvin_at_shorter _ _ Hk)).
    rewrite kelvin_at_lead by reflexivity. reflexivity.
  - rewrite lower_char_lowered, (IH s1) by (simpl; lia).
    rewrite bool_decide_true; [reflexivity |].
    destruct (is_byte 226 c1) eqn:Hc1;
      [| apply kelvin_at_lead; rewrite is_byte_lower by lia; exact Hc1].
    destruct (toLowerCase s1) as [| c2' [| c3' r]] eqn:Hlow; try reflexivity.
    cbn [kelvin_at]. unfold kelvin.
    destruct (is_byte 132 c2') eqn:Hc2; [| rewrite andb_false_r; reflexivity].
    destruct (is_byte 170 c3') eqn:Hc3; [| rewrite andb_false_r; reflexivity].
    exfalso.
    destruct (toLowerCase_head 132 s1 c2' _ ltac:(lia) Hlow Hc2)
      as (c2 & s2 & -> & Hb2 & Hr).
    symmetry in Hr.
    destruct (toLowerCase_head 170 s2 c3' _ ltac:(lia) Hr Hc3)
      as (c3 & s3 & -> & Hb3 & _).
    cbn [kelvin_at] in Hk. unfold kelvin in Hk. rewrite Hc1, Hb2, Hb3 in Hk.
    discriminate Hk.
Qed.

Lemma toLowerCase_idem (s : string) : toLowerCase (toLowerCase s) = toLowerCase s.
Proof. apply lowered_fixed, toLowerCase_lowered. Qed.

Lemma nonempty_toLowerCase (s : string) : nonempty (toLowerCase s) = nonempty s.
Proof.
  rewrite toLowerCase_eq. destruct s as [| c s]; [reflexivity |].
  destruct (kelvin_at (String c s)); reflexivity.
Qed.

Lemma nonempty_same_lower (s s' : string) :
  toLowerCase s' = toLowerCase s -> nonempty s' = nonempty s.
Proof.
  intros Hl. rewrite <- (nonempty_toLowerCase s'), Hl.
  apply nonempty_toLowerCase.
Qed.

Lemma or_else_empty (a : string) : or_else a "" = a.
Proof. destruct a; reflexivity. Qed.

Lemma normalizePackage_same_lower (p p' : string) :
  toLowerCase p' = toLowerCase p -> normalizePackage p' = normalizePackage p.
Proof.
  intros Hl. unfold normalizePackage.
  rewrite (nonempty_same_lower p p' Hl), Hl. reflexivity.
Qed.

Lemma normalizePackage_idem (p : string) :
  nonempty p = true ->
  normalizePackage (normalizePackage p) = normalizePackage p
  /\ nonempty (normalizePackage p) = true.
Proof.
  intros Hne. unfold normalizePackage at 2 3 4. rewrite Hne. cbn [negb].
  destruct (bool_decide (toLowerCase p = "cron-job")
            || bool_decide (toLowerCase p = "cronjob")) eqn:Hcron.
  - split; reflexivity.
  - unfold normalizePackage.
    rewrite nonempty_toLowerCase, Hne, toLowerCase_idem. cbn [negb].
    rewrite Hcron. split; reflexivity.
Qed.

(** What an accepted record looks like. *)
Lemma validate_accepted (stack level pkg : string) (message : option string)
    (pl : Payload) :
  validateAndNormalize stack level pkg message = inl pl <->
  nonempty stack = true /\ nonempty level = true /\ nonempty pkg = true
  /\ toLowerCase stack ∈ ALLOWED_STACKS
  /\ toLowerCase level ∈ ALLOWED_LEVELS
  /\ normalizePackage pkg ∈ allowed_for (toLowerCase stack)
  /\ pl = {| p_stack := toLowerCase stack; p_level := toLowerCase level;
             p_package := normalizePackage pkg;
             p_message := match message with Some m => m | None => "" end |}.
Proof.
  unfold validateAndNormalize, has.
  destruct (nonempty stack), (nonempty level), (nonempty pkg);
    cbn [negb orb]; try (split; [discriminate | intros (? & ? & ? & _);
                                                 discriminate]).
  destruct (bool_decide (toLowerCase stack ∈ ALLOWED_STACKS)) eqn:Hs;
    cbn [negb];
    [apply bool_decide_eq_true in Hs
    | apply bool_decide_eq_false in Hs; split;
      [discriminate | intros (_ & _ & _ & ? & _); contradiction]].
  destruct (bool_decide (toLowerCase level ∈ ALLOWED_LEVELS)) eqn:Hl;
    cbn [negb];
    [apply bool_decide_eq_true in Hl
    | apply bool_decide_eq_false in Hl; split;
      [discriminate | intros (_ & _ & _ & _ & ? & _); contradiction]].
  destruct (bool_decide (normalizePackage pkg ∈ allowed_for (toLowerCase stack)))
    eqn:Hp; cbn [negb];
    [apply bool_decide_eq_true in Hp
    | apply bool_decide_eq_false in Hp; split;
      [discriminate | intros (_ & _ & _ & _ & _ & ? & _); contradiction]].
  split.
  - intros Heq. injection Heq as <-. repeat split; assumption.
  - intros (_ & _ & _ & _ & _ & _ & ->). reflexivity.
Qed.

(** X18. Validation of a log record looks only at the lower-cased stack,
    level and package: records that agree up to letter case are accepted
    alike, with the same payload; and an accepted payload is a normal form,
    accepted unchanged when it is validated again. *)
Theorem validation_normal_form (stack level pkg : string)
    (message : option string) (pl : Payload) :
  validateAndNormalize stack level pkg message = inl pl ->
  validateAndNormalize (p_stack pl) (p_level pl) (p_package pl)
    (Some (p_message pl)) = inl pl
  /\ forall stack' level' pkg' : string,
       toLowerCase stack' = toLowerCase stack ->
       toLowerCase level' = toLowerCase level ->
       toLowerCase pkg' = toLowerCase pkg ->
       validateAndNormalize stack' level' pkg' message = inl pl.
Proof.
  intros Hacc. apply validate_accepted in Hacc.
  destruct Hacc as (Hs & Hl & Hp & Hst & Hlv & Hpk & ->).
  destruct (normalizePackage_idem pkg Hp) as [Hidem Hne].
  split.
  - apply validate_accepted. cbn [p_stack p_level p_package p_message].
    rewrite !nonempty_toLowerCase, !toLowerCase_idem, Hidem.
    repeat split; assumption.
  - intros stack' level' pkg' Es El Ep. apply validate_accepted.
    rewrite (nonempty_same_lower _ _ Es), (nonempty_same_lower _ _ El),
      (nonempty_same_lower _ _ Ep), Es, El,
      (normalizePackage_same_lower _ _ Ep).
    repeat split; assumption.
Qed.

Lemma validation_normal_form_witness :
  validateAndNormalize "backend" "info" "cron job" (Some "tick")
  = inl {| p_stack := "backend"; p_level := "info"; p_package := "cron job";
           p_message := "tick" |}
  /\ validateAndNormalize "BACKEND" "info" "Cron-Job" (Some "tick")
     = inl {| p_stack := "backend"; p_level := "info"; p_package := "cron job";
              p_message := "tick" |}.
Proof.
  destruct (validation_normal_form "BackEnd" "INFO" "CRON-JOB" (Some "tick")
              {| p_stack := "backend"; p_level := "info";
                 p_package := "cron job"; p_message := "tick" |})
    as [Hidem Hcase].
  - vm_compute. reflexivity.
  - split; [exact Hidem |].
    apply (Hcase "BACKEND" "info" "Cron-Job"); reflexivity.
Defined.

(** X19. [Log] never fails its caller and is frugal: each call appends
    exactly one line to the fallback file when the disk accepts the write
    (none otherwise), makes at most one post, one exactly when the record is
    valid and a token is configured, and resolves to response data only if
    that post was answered with it. *)
Theorem log_one_line_one_post (stack level pkg : string)
    (message : option string) (s : Sink) :
  let r := Log stack level pkg message s in
  List.length (file r.1)
    = (List.length (file s) + (if disk_ok s then 1 else 0))%nat
  /\ posts r.1
     = (posts s ++
        match validateAndNormalize stack level pkg message with
        | inl pl => if nonempty (token_of s) then [pl] else []
        | inr _ => []
        end)%list
  /\ forall data : string,
       r.2 = Some data ->
       exists pl, validateAndNormalize stack level pkg message = inl pl
                  /\ nonempty (token_of s) = true
                  /\ remote s pl = inl data.
Proof.
  intros r. subst r. unfold Log, fallbackWrite, append_line.
  destruct (validateAndNormalize stack level pkg message) as [pl | err].
  - destruct (nonempty (token_of s)) eqn:Htok; cbn [negb].
    + destruct (remote s pl) as [data | err] eqn:Hrem;
        cbn [disk_ok add_post]; destruct (disk_ok s);
        cbn [fst snd file posts set_file add_post];
        rewrite ?length_app; cbn [List.length];
        (split; [lia | split; [reflexivity |]]);
        intros data' Hd; try discriminate Hd;
        injection Hd as <-; eauto.
    + destruct (disk_ok s); cbn [fst snd file posts set_file];
        rewrite ?length_app, ?app_nil_r; cbn [List.length];
        (split; [lia | split; [reflexivity | discriminate]]).
  - destruct (disk_ok s); cbn [fst snd file posts set_file];
      rewrite ?length_app, ?app_nil_r; cbn [List.length];
      (split; [lia | split; [reflexivity | discriminate]]).
Qed.

Lemma members (x : string) (l : list string) :
  has x (list_to_set l) = true -> x ∈ l.
Proof.
  unfold has. intros Hx. apply bool_decide_eq_true in Hx.
  apply elem_of_list_to_set in Hx. exact Hx.
Qed.

Ltac enumerate :=
  repeat match goal with
         | H : _ ∈ _ :: _ |- _ => apply elem_of_cons in H; destruct H as [H | H]
         | H : _ ∈ [] |- _ => apply elem_of_nil in H; destruct H
         end.

(** X20. The two validators agree where they meet: every record the frontend
    logger decides to post is, as posted, accepted unchanged by the
    middleware's [validateAndNormalize]. *)
Theorem client_records_pass_middleware (token stack level pkg message : string)
    (pl : Payload) :
  clientLog token stack level pkg message = Some pl ->
  validateAndNormalize (p_stack pl) (p_level pl) (p_package pl)
    (Some (p_message pl)) = inl pl.
Proof.
  unfold clientLog, validate. rewrite !or_else_empty.
  destruct (has (toLowerCase stack) allowedStacks) eqn:Hs; cbn [negb];
    [| discriminate].
  destruct (has (toLowerCase level) allowedLevels) eqn:Hl; cbn [negb];
    [| discriminate].
  destruct (has (toLowerCase pkg) allowedPackages) eqn:Hp; cbn [negb];
    [| discriminate].
  destruct (nonempty token); cbn [negb]; [| discriminate].
  intros Hpl. injection Hpl as <-. cbn [p_stack p_level p_package p_message].
  apply members in Hs, Hl, Hp. enumerate;
    rewrite Hs, Hl, Hp; vm_compute; reflexivity.
Qed.

Lemma client_records_pass_middleware_witness :
  validateAndNormalize "frontend" "error" "hook" (Some "boom")
  = inl {| p_stack := "frontend"; p_level := "error"; p_package := "hook";
           p_message := "boom" |}.
Proof.
  apply (client_records_pass_middleware "t0ken" "FrontEnd" "Error" "Hook" "boom"
           {| p_stack := "frontend"; p_level := "error"; p_package := "hook";
              p_message := "boom" |}).
  vm_compute. reflexivity.
Defined.

(** What a call of [Log] posts. *)
Lemma Log_posts (stack level pkg : string) (message : option string)
    (s : Sink) :
  posts (Log stack level pkg message s).1
  = (posts s ++
     match validateAndNormalize stack level pkg message with
     | inl pl => if nonempty (token_of s) then [pl] else []
     | inr _ => []
     end)%list.
Proof.
  unfold Log, fallbackWrite, append_line.
  destruct (validateAndNormalize stack level pkg message) as [pl | err];
    [destruct (nonempty (token_of s)); cbn [negb];
     [destruct (remote s pl) as [data | err] |] |];
    cbn [disk_ok add_post]; destruct (disk_ok s);
    cbn [fst posts set_file add_post]; rewrite ?app_nil_r; reflexivity.
Qed.

(** X21. Through the backend adapter neither the stack nor the level can
    get a record rejected, whatever [meta.stack] the caller passes and also
    for [warn]: the record is posted exactly when a token is configured and
    its package, or the method's default, normalizes to one of the names
    allowed for the backend, and it is posted with stack 'backend'. *)
Theorem backend_logger_delivery (m : Method) (msg : string) (meta : Meta)
    (s : Sink) :
  let pkg := or_else (m_package meta)
               (or_else (m_pkg meta) (default_package m)) in
  posts (backend_logger m msg meta s).1
  = (posts s ++
     if has (normalizePackage pkg) (BOTH_PACKAGES ∪ BACKEND_PACKAGES)
        && nonempty (token_of s)
     then [{| p_stack := "backend"; p_level := level_name m;
              p_package := normalizePackage pkg; p_message := msg |}]
     else [])%list.
Proof.
  intros pkg.
  assert (Hne : nonempty pkg = true).
  { subst pkg. unfold or_else.
    destruct (nonempty (m_package meta)) eqn:H1; [exact H1 |].
    destruct (nonempty (m_pkg meta)) eqn:H2; [exact H2 |].
    destruct m; reflexivity. }
  assert (Hlog : backend_logger m msg meta s
                 = Log "backend" (level_name m) pkg (Some msg) s)
    by (destruct m; reflexivity).
  rewrite Hlog.
  rewrite (Log_posts "backend" (level_name m) pkg (Some msg) s).
  f_equal.
  assert (Hval : validateAndNormalize "backend" (level_name m) pkg (Some msg)
                 = if has (normalizePackage pkg)
                        (BOTH_PACKAGES ∪ BACKEND_PACKAGES)
                   then inl {| p_stack := "backend"; p_level := level_name m;
                               p_package := normalizePackage pkg;
                               p_message := msg |}
                   else inr ("invalid package '" ++ pkg
                             ++ "' for stack '" ++ "backend" ++ "'")).
  { unfold validateAndNormalize. rewrite Hne.
    assert (Hall : allowed_for (toLowerCase "backend")
                   = BOTH_PACKAGES ∪ BACKEND_PACKAGES).
    { unfold allowed_for. change (toLowerCase "backend") with "backend".
      rewrite bool_decide_true by reflexivity.
      rewrite bool_decide_false by discriminate.
      apply right_id_L, _. }
    rewrite Hall.
    destruct m; cbn -[has normalizePackage BOTH_PACKAGES BACKEND_PACKAGES];
      destruct (has (normalizePackage pkg) (BOTH_PACKAGES ∪ BACKEND_PACKAGES));
      reflexivity. }
  rewrite Hval.
  destruct (has (normalizePackage pkg) (BOTH_PACKAGES ∪ BACKEND_PACKAGES));
    [| reflexivity].
  destruct (nonempty (token_of s)); reflexivity.
Qed.

(** A stack spelled with the Kelvin sign lower-cases to 'backend' and is
    accepted. *)
Example kelvin_stack :
  validateAndNormalize ("BAC" ++ utf8 [226; 132; 170] ++ "end") "info" "db" None
  = inl {| p_stack := "backend"; p_level := "info"; p_package := "db";
           p_message := "" |}.
Proof. vm_compute. reflexivity. Qed.

(** The four packages the server's log statements use: 'db', 'handler' and
    'route' are deliverable, 'system' is not. *)
Example server_packages :
  map (fun p => has (normalizePackage p) (BOTH_PACKAGES ∪ BACKEND_PACKAGES))
      ["db"; "handler"; "route"; "system"]
  = [true; true; true; false].
Proof. vm_compute. reflexivity. Qed.

End LoggingFacts.
